(** * Bug Report AI: the report pipeline of [bugReportController.js]

    A shallow embedding of the controller's deterministic parts (keyword file
    selection, fallback report synthesis, markdown rendering, the
    needs-more-info gate) and of its report store (remote store with an
    in-process [Map] as fallback), with the properties of the specification
    stated and proved against it.

    Conventions.
    - A JavaScript string is a [string] whose characters are UTF-16 code units
      below 256 (the Latin-1 range).  On that range [toLowerCase] maps
      [A-Z] and the accented capitals U+00C0..U+00DE (except U+00D7) to the
      code unit 32 above, and the regular expression class [\s] holds the code
      units 9..13, 32 and 160.
    - A JavaScript object used as a dictionary is a [gmap string _]; an
      optional or possibly [undefined] property is an [option], and so is an
      argument that may be [null].
    - Calls to external services (language model, remote store, issue
      tracker, clock, random numbers) are parameters that give the outcome of
      the call.
    - An [async] function that may reject returns a [Result]; its effect on
      the module state is the [World] it returns with it. *)

From Stdlib Require Import String Ascii List Bool Arith Lia DecimalString DecimalN.
From stdpp Require Import gmap strings list sorting.

(** ** JavaScript string primitives *)

Module JS.

Definition nl : string := String (ascii_of_nat 10) EmptyString.

Definition lowerUnit (c : ascii) : ascii :=
  let n := nat_of_ascii c in
  if ((65 <=? n) && (n <=? 90))
     || ((192 <=? n) && (n <=? 222) && negb (n =? 215))
  then ascii_of_nat (n + 32) else c.

(** [s.toLowerCase()] *)
Fixpoint toLowerCase (s : string) : string :=
  match s with
  | EmptyString => EmptyString
  | String c s' => String (lowerUnit c) (toLowerCase s')
  end.

(** [s.includes(t)]: [t] occurs in [s] at some position *)
Fixpoint includes (s t : string) : bool :=
  String.prefix t s ||
  match s with
  | EmptyString => false
  | String _ s' => includes s' t
  end.

(** the class [\s] *)
Definition isSpace (c : ascii) : bool :=
  let n := nat_of_ascii c in
  ((9 <=? n) && (n <=? 13)) || (n =? 32) || (n =? 160).

(** [s.split(/\s+/)]: [cur] is the piece read so far, [inRun] tells that
    the previous code unit belonged to a separator. *)
Fixpoint splitFrom (cur : string) (inRun : bool) (s : string) : list string :=
  match s with
  | EmptyString => [cur]
  | String c s' =>
      if isSpace c
      then if inRun then splitFrom cur true s'
           else cur :: splitFrom EmptyString true s'
      else splitFrom (cur +:+ String c EmptyString) false s'
  end.

Definition splitSpaces (s : string) : list string :=
  splitFrom EmptyString false s.

(** [a.join(sep)] *)
Fixpoint join (sep : string) (a : list string) : string :=
  match a with
  | [] => EmptyString
  | [x] => x
  | x :: rest => x +:+ sep +:+ join sep rest
  end.

(** [s.substring(0, n)] *)
Definition substring0 (n : nat) (s : string) : string := String.substring 0 n s.

End JS.

Import JS.

(** ** Data model *)

(** The report object ([reportJson]): the four fields the model or the
    fallback gives, plus what the store ([created_at], here
    [report_created_at]) and the additional-info submission add to it
    later. *)
Record Report := mkReport {
  title : string;
  suspected_root_cause : string;
  evidence : list string;
  next_steps : list string;
  report_created_at : option string;
  additional_info : option (gmap string string)
}.

Record BugData := mkBugData {
  description : string;
  logs : option string;
  steps : option string;
  additionalContext : option string;
  screenshots : list string
}.

(** One follow-up question. *)
Record Request := mkRequest {
  type : string;
  question : string
}.

(** The object the gate returns when it is not [null]. *)
Record MoreInfo := mkMoreInfo {
  needs_more_info : bool;
  confidence : string;
  requests : list Request
}.

(** ** The gate: [checkIfNeedsMoreInfo] *)

Definition uncertaintyTerms : list string :=
  [ "unclear"; "unknown"; "uncertain"; "possible"; "might"; "could be";
    "not enough information"; "insufficient"; "additional details needed";
    "vague"; "ambiguous"; "sometimes"; "occasionally"; "intermittent" ].

Definition hasUncertainty (r : Report) : bool :=
  let rootCause := toLowerCase (suspected_root_cause r) in
  existsb (fun term => includes rootCause term) uncertaintyTerms.

Definition thinEvidence (r : Report) : bool :=
  length (evidence r) <? 2.

Definition vagueItem (item : string) : bool :=
  (String.length item <? 20)
  || negb (includes item "/")
  || (includes item "code" && negb (includes item ":")).

Definition vagueEvidence (r : Report) : bool :=
  existsb vagueItem (evidence r).

Definition stepAsksMore (step : string) : bool :=
  let lowerStep := toLowerCase step in
  includes lowerStep "provide more"
  || includes lowerStep "additional info"
  || includes lowerStep "reproduction steps"
  || includes lowerStep "more details"
  || includes lowerStep "clarify".

Definition requestsMoreInfo (r : Report) : bool :=
  existsb stepAsksMore (next_steps r).

Definition needsMoreInfo (r : Report) : bool :=
  hasUncertainty r || thinEvidence r || vagueEvidence r || requestsMoreInfo r.

(** [requests.push(q)] under the condition [c] *)
Definition pushIf (c : bool) (q : Request) (requests : list Request) : list Request :=
  if c then requests ++ [q] else requests.

Definition stepMentions (word : string) (r : Report) : bool :=
  existsb (fun step => includes (toLowerCase step) word) (next_steps r).

Definition q_reproduction_steps : Request :=
  mkRequest "reproduction_steps"
    "Please provide specific steps to reproduce this issue. What were you doing right before the problem occurred?".
Definition q_environment : Request :=
  mkRequest "environment"
    "What environment are you experiencing this issue in? (browser, OS, device, screen size, etc.)".
Definition q_version : Request :=
  mkRequest "version"
    "What version of the software are you using? Is this a recent change?".
Definition q_user_context : Request :=
  mkRequest "user_context"
    "What were you trying to accomplish when you encountered this bug? What is your user role?".
Definition q_data_context : Request :=
  mkRequest "data_context"
    "What kind of data were you working with when the issue occurred? Any specific inputs that trigger the problem?".
Definition q_screenshot : Request :=
  mkRequest "screenshot"
    "Could you provide a screenshot or screen recording that shows the issue?".

Definition evidenceMentionsScreenshot (r : Report) : bool :=
  existsb (fun e => includes (toLowerCase e) "screenshot") (evidence r).

Definition followUps (r : Report) : list Request :=
  let rootCause := toLowerCase (suspected_root_cause r) in
  let requests := [] in
  let requests :=
    pushIf (includes rootCause "reproduce"
            || negb (includes rootCause "steps to")
            || stepMentions "reproduce" r) q_reproduction_steps requests in
  let requests :=
    pushIf (includes rootCause "environment"
            || vagueEvidence r
            || stepMentions "environment" r) q_environment requests in
  let requests :=
    pushIf (includes rootCause "version"
            || stepMentions "version" r) q_version requests in
  let requests :=
    pushIf (includes (toLowerCase (title r)) "user"
            || includes (toLowerCase rootCause) "user") q_user_context requests in
  let requests :=
    pushIf (includes (toLowerCase rootCause) "data"
            || existsb (fun e => includes (toLowerCase e) "data") (evidence r))
           q_data_context requests in
  pushIf (negb (evidenceMentionsScreenshot r)) q_screenshot requests.

Definition checkIfNeedsMoreInfo (r : Report) : option MoreInfo :=
  if needsMoreInfo r then
    Some {| needs_more_info := true;
            confidence := if hasUncertainty r then "low"
                          else if vagueEvidence r then "medium-low"
                          else "medium";
            requests := followUps r |}
  else None.

(** ** The synthesizer: [generateBugReport] *)

(** The outcome of the call to the language model: no client is configured,
    the request or the parse of its answer raised, or a value was parsed. *)
Inductive ModelOutcome (A : Type) : Type :=
| NoModel
| ModelFailed
| ModelReturned (a : A).
Arguments NoModel {A}.
Arguments ModelFailed {A}.
Arguments ModelReturned {A} a.

Definition fallbackTitle (d : string) : string :=
  substring0 50 d +:+ (if 50 <? String.length d then "..." else "").

Definition fallbackRootCause : string :=
  "Unable to generate detailed analysis without AI integration.".

Definition fallbackEvidence (shots : list string) : list string :=
  [ "Reported bug description";
    "Available code files (analysis unavailable)";
    if 0 <? length shots
    then "Provided screenshots (analysis unavailable)"
    else "No screenshots provided" ].

Definition fallbackNextSteps : list string :=
  [ "Review the reported description manually";
    "Check the relevant files identified in the report";
    "Implement proper error handling and validation" ].

(** The mock report built when the model is absent or its call failed. *)
Definition mockReport (bugData : BugData) : Report :=
  {| title := fallbackTitle (description bugData);
     suspected_root_cause := fallbackRootCause;
     evidence := fallbackEvidence (screenshots bugData);
     next_steps := fallbackNextSteps;
     report_created_at := None;
     additional_info := None |}.

(** [bugData] is an object with a string [description] and an array
    [screenshots], so nothing in the body raises and the outer handler (the
    one-line minimal report) is not entered. *)
Definition generateBugReport (model : ModelOutcome Report) (bugData : BugData) : Report :=
  match model with
  | ModelReturned parsed => parsed
  | NoModel | ModelFailed => mockReport bugData
  end.

(** ** The selector: [searchCodebase] *)

Record Scored := mkScored {
  file : string;
  score : nat
}.

Definition keywordsOf (bugReport : string) : list string :=
  splitSpaces (toLowerCase bugReport).

Definition scoreFile (keywords : list string) (f : string) : Scored :=
  let lowerPath := toLowerCase f in
  {| file := f;
     score := fold_left
                (fun sum keyword => sum + (if includes lowerPath keyword then 1 else 0))
                keywords 0 |}.

(** [Array.prototype.sort] with a comparator.  The sort is stable, so for a
    comparator that is a weak order its result is determined; it is
    modelled by the stable insertion sort. *)
Section Sort.
Context {A : Type}.
Variable compareFn : A -> A -> Z.

Fixpoint insertSorted (x : A) (l : list A) : list A :=
  match l with
  | [] => [x]
  | y :: ys =>
      if (0 <? compareFn x y)%Z then y :: insertSorted x ys
      else x :: y :: ys
  end.

Fixpoint sort (l : list A) : list A :=
  match l with
  | [] => []
  | x :: xs => insertSorted x (sort xs)
  end.
End Sort.

(** [(a, b) => b.score - a.score] *)
Definition byScoreDesc (a b : Scored) : Z :=
  (Z.of_nat (score b) - Z.of_nat (score a))%Z.

(** The keyword path, entered when the model is absent or failed. *)
Definition keywordMatch (bugReport : string) (allFiles : list string) : list string :=
  let keywords := keywordsOf bugReport in
  let scoredFiles := map (scoreFile keywords) allFiles in
  map file (firstn 10 (sort byScoreDesc scoredFiles)).

(** [listing] is the result of [fileSystem.listFiles], [None] when it
    raised; [model] is the [files] array of the parsed model answer. *)
Definition searchCodebase (model : ModelOutcome (list string))
    (bugReport : string) (listing : option (list string)) : list string :=
  match listing with
  | None => []
  | Some allFiles =>
      match model with
      | ModelReturned files => firstn 10 files
      | NoModel | ModelFailed => keywordMatch bugReport allFiles
      end
  end.

(** ** The renderer: [generateMarkdownReport] *)

(** A backtracking matcher for the fragment of regular expressions the
    renderer uses: a sequence of pieces, each a character class, a greedy
    [+] over a class, a literal, or an ordered choice of literals. *)
Module Regex.

Inductive Piece :=
| One (cls : ascii -> bool)
| Many (cls : ascii -> bool)
| Lit (s : string)
| Choice (alts : list string).

Fixpoint dropUnits (n : nat) (s : string) : string :=
  match n, s with
  | S n', String _ s' => dropUnits n' s'
  | _, _ => s
  end.

(** [matchFrom re s]: the rest of [s] after the first match (in
    backtracking order) of [re] at the start of [s]. *)
Fixpoint matchFrom (re : list Piece) (s : string) : option string :=
  match re with
  | [] => Some s
  | One cls :: re' =>
      match s with
      | String c s' => if cls c then matchFrom re' s' else None
      | EmptyString => None
      end
  | Many cls :: re' =>
      (fix more (s : string) : option string :=
         match s with
         | String c s' =>
             if cls c then
               match more s' with
               | Some rest => Some rest
               | None => matchFrom re' s'
               end
             else None
         | EmptyString => None
         end) s
  | Lit t :: re' =>
      if String.prefix t s then matchFrom re' (dropUnits (String.length t) s)
      else None
  | Choice alts :: re' =>
      (fix attempt (alts : list string) : option string :=
         match alts with
         | [] => None
         | t :: alts' =>
             match (if String.prefix t s
                    then matchFrom re' (dropUnits (String.length t) s)
                    else None) with
             | Some rest => Some rest
             | None => attempt alts'
             end
         end) alts
  end.

(** [s.match(re)] without the [g] flag: the text of the leftmost match. *)
Fixpoint exec (re : list Piece) (s : string) : option string :=
  match matchFrom re s with
  | Some rest => Some (String.substring 0 (String.length s - String.length rest) s)
  | None =>
      match s with
      | EmptyString => None
      | String _ s' => exec re s'
      end
  end.

End Regex.

Definition slash : string := "/".
Definition backslash : string := String (ascii_of_nat 92) EmptyString.

Definition isSeparator (c : ascii) : bool :=
  let n := nat_of_ascii c in (n =? 47) || (n =? 92).

Definition isSegmentUnit (c : ascii) : bool :=
  let n := nat_of_ascii c in negb ((n =? 47) || (n =? 92) || (n =? 58)).

(** The pattern of the renderer: a separator, a segment, a separator, a
    segment, a dot and one of the extensions, tried in this order.  Its
    first group spans the whole pattern. *)
Definition filePathPattern : list Regex.Piece :=
  [ Regex.One isSeparator; Regex.Many isSegmentUnit;
    Regex.One isSeparator; Regex.Many isSegmentUnit;
    Regex.Lit ".";
    Regex.Choice ["js"; "jsx"; "ts"; "tsx"; "css"; "html"; "json"] ].

Definition mentionsSeparator (item : string) : bool :=
  includes item slash || includes item backslash.

(** [filePathMatch ? filePathMatch[1] : null] *)
Definition extractPath (item : string) : option string :=
  Regex.exec filePathPattern item.

(** [Boolean(x)] for a string or [null] *)
Definition truthy (x : option string) : bool :=
  match x with
  | Some s => negb (String.eqb s EmptyString)
  | None => false
  end.

Fixpoint keepTruthy (l : list (option string)) : list string :=
  match l with
  | [] => []
  | Some s :: l' => if truthy (Some s) then s :: keepTruthy l' else keepTruthy l'
  | None :: l' => keepTruthy l'
  end.

Definition filePaths (r : Report) : list string :=
  keepTruthy (map extractPath (List.filter mentionsSeparator (evidence r))).

Definition bullet (item : string) : string := "- " +:+ item.
Definition fileBullet (f : string) : string := "- `" +:+ f +:+ "`".

Definition filesSection (paths : list string) : string :=
  if 0 <? length paths
  then nl +:+ "## Files Involved" +:+ nl +:+ join nl (map fileBullet paths) +:+ nl
  else "".

Definition generateMarkdownReport (r : Report) : string :=
  "# Bug Report: " +:+ title r +:+ nl +:+ nl +:+
  "## Suspected Root Cause" +:+ nl +:+
  suspected_root_cause r +:+ nl +:+ nl +:+
  "## Technical Evidence" +:+ nl +:+
  join nl (map bullet (evidence r)) +:+ nl +:+ nl +:+
  "## Recommended Next Steps for Developers" +:+ nl +:+
  join nl (map bullet (next_steps r)) +:+ nl +:+ nl +:+
  filesSection (filePaths r) +:+ nl +:+ nl +:+
  "---" +:+ nl +:+
  "Report generated by Bug Report AI" +:+ nl.

(** ** The report store *)

(** A row of the [bug_reports] table, which is also the value kept in the
    in-process map. *)
Record ReportData := mkReportData {
  id : string;
  row_title : string;
  content_json : Report;
  content_markdown : string;
  created_at : string;
  linear_issue_id : option string;
  linear_issue_number : option N;
  linear_issue_url : option string;
  reporter_email : option string;
  reporter_name : option string;
  status : option string;
  feedback_requested : option bool;
  files_analyzed : list string;
  row_screenshots : list string;
  last_updated : option string
}.

Record UserData := mkUserData {
  email : option string;
  name : option string
}.

Record LinearIssue := mkLinearIssue {
  issue_id : string;
  issue_number : N;
  issue_url : string
}.

(** The module state: [supabase] is [None] when no client is configured and
    holds the rows of the remote table otherwise; [inMemoryReports] is the
    in-process map. *)
Record World := mkWorld {
  supabase : option (gmap string ReportData);
  inMemoryReports : gmap string ReportData
}.

(** How the remote store answers one call: it serves it, it answers with an
    error object, or the call raises.  A call that is not served leaves the
    table as it is. *)
Inductive Reply := Served | Refused | Broken.

(** [.select('*').eq('id', reportId).single()]: the row when the call is
    served and exactly one row has the id. *)
Definition remoteSelect (reply : Reply) (rows : gmap string ReportData)
    (reportId : string) : option ReportData :=
  match reply with
  | Served => rows !! reportId
  | Refused | Broken => None
  end.

(** [.insert([row]).select().single()]: the table after the call and the
    row it answers with, [None] for an error or an exception. *)
Definition remoteInsert (reply : Reply) (rows : gmap string ReportData)
    (row : ReportData) : gmap string ReportData * option ReportData :=
  match reply with
  | Served =>
      match rows !! id row with
      | None => (<[id row := row]> rows, Some row)
      | Some _ => (rows, None)
      end
  | Refused | Broken => (rows, None)
  end.

(** [.update(fields).eq('id', reportId).select().single()], the fields
    given as the function that sets them on a row. *)
Definition remoteUpdate (reply : Reply) (rows : gmap string ReportData)
    (reportId : string) (setFields : ReportData -> ReportData)
    : gmap string ReportData * option ReportData :=
  match reply with
  | Served =>
      match rows !! reportId with
      | Some row => (<[reportId := setFields row]> rows, Some (setFields row))
      | None => (rows, None)
      end
  | Refused | Broken => (rows, None)
  end.

(** The result of an [async] function: the value it resolves to or the
    message of the error it rejects with. *)
Inductive Result (A : Type) : Type :=
| Returned (a : A)
| Thrown (message : string).
Arguments Returned {A} a.
Arguments Thrown {A} message.

Definition decimal (n : N) : string := NilZero.string_of_uint (N.to_uint n).

(** [Boolean(s)] for a string *)
Definition nonEmpty (s : string) : bool := negb (String.eqb s EmptyString).

(** *** [storeBugReport] *)

(** The readings of the clock and of the random generator, one per place
    of the function that reads them. *)
Record StoreClock := mkStoreClock {
  created_iso : string;      (* new Date().toISOString(), first statement *)
  now_ms : N;                (* Date.now() of the id *)
  random_1000 : N;           (* Math.floor(Math.random() * 1000) *)
  fallback_ms : N;           (* Date.now() of the handler *)
  fallback_iso : string      (* new Date().toISOString() of the handler *)
}.

(** [reportJson.created_at = t]: the fields of the report object after the
    assignment.  The object is the caller's; what the records that hold it
    read afterwards is told by [stampShared] below. *)
Definition stampReport (t : string) (reportJson : Report) : Report :=
  {| title := title reportJson;
     suspected_root_cause := suspected_root_cause reportJson;
     evidence := evidence reportJson;
     next_steps := next_steps reportJson;
     report_created_at := Some t;
     additional_info := additional_info reportJson |}.

(** The record of the main path; [u] is the (non-null) [userData]. *)
Definition reportDataOf (clock : StoreClock) (reportJson : Report)
    (reportMarkdown : string) (linearIssue : option LinearIssue) (u : UserData)
    (filesAnalyzed shots : list string) : ReportData :=
  let withEmail := truthy (email u) in
  {| id := "report-" +:+ decimal (now_ms clock) +:+ "-" +:+ decimal (random_1000 clock);
     row_title := title reportJson;
     content_json := stampReport (created_iso clock) reportJson;
     content_markdown := reportMarkdown;
     created_at := created_iso clock;
     linear_issue_id := issue_id <$> linearIssue;
     linear_issue_number := issue_number <$> linearIssue;
     linear_issue_url := issue_url <$> linearIssue;
     reporter_email := if withEmail then email u else None;
     reporter_name := if withEmail then (if truthy (name u) then name u else None) else None;
     status := if withEmail then Some "open" else None;
     feedback_requested := if withEmail then Some false else None;
     files_analyzed := filesAnalyzed;
     row_screenshots := shots;
     last_updated := None |}.

(** The record of the handler ([catch]). *)
Definition fallbackDataOf (clock : StoreClock) (reportJson : Report)
    (reportMarkdown : string) (filesAnalyzed shots : list string) : ReportData :=
  {| id := "fallback-" +:+ decimal (fallback_ms clock);
     row_title := if nonEmpty (title reportJson) then title reportJson else "Bug Report";
     content_json := stampReport (created_iso clock) reportJson;
     content_markdown := reportMarkdown;
     created_at := fallback_iso clock;
     linear_issue_id := None;
     linear_issue_number := None;
     linear_issue_url := None;
     reporter_email := None;
     reporter_name := None;
     status := None;
     feedback_requested := None;
     files_analyzed := filesAnalyzed;
     row_screenshots := shots;
     last_updated := None |}.

Definition setMemory (reports : gmap string ReportData) (w : World) : World :=
  {| supabase := supabase w; inMemoryReports := reports |}.

Definition setRemote (rows : gmap string ReportData) (w : World) : World :=
  {| supabase := Some rows; inMemoryReports := inMemoryReports w |}.

(** The body of the [try].  [reportJson] and [userData] are [None] for a
    [null] argument (the default value [{}] of [userData] replaces only
    [undefined]): stamping [created_at] on a [null] report raises, and so
    does reading [userData.email] of a [null] user, after the stamp.  Up to
    there no store was touched. *)
Definition storeBody (clock : StoreClock) (insertReply : Reply) (w : World)
    (reportJson : option Report) (reportMarkdown : string)
    (linearIssue : option LinearIssue) (userData : option UserData)
    (filesAnalyzed shots : list string) : World * Result ReportData :=
  match reportJson, userData with
  | None, _ => (w, Thrown "Cannot set properties of null (setting 'created_at')")
  | Some _, None => (w, Thrown "Cannot read properties of null (reading 'email')")
  | Some report, Some u =>
      let reportData :=
        reportDataOf clock report reportMarkdown linearIssue u filesAnalyzed shots in
      let inMemory (w' : World) :=
        (setMemory (<[id reportData := reportData]> (inMemoryReports w')) w',
         Returned reportData) in
      match supabase w with
      | Some rows =>
          match remoteInsert insertReply rows reportData with
          | (rows', Some data) => (setRemote rows' w, Returned data)
          | (rows', None) => inMemory (setRemote rows' w)
          end
      | None => inMemory w
      end
  end.

(** The handler ([catch]): it reads [reportJson.title], which raises again
    on a [null] report. *)
Definition storeHandler (clock : StoreClock) (w : World)
    (reportJson : option Report) (reportMarkdown : string)
    (filesAnalyzed shots : list string) : World * Result ReportData :=
  match reportJson with
  | None => (w, Thrown "Cannot read properties of null (reading 'title')")
  | Some report =>
      let fallbackReport :=
        fallbackDataOf clock report reportMarkdown filesAnalyzed shots in
      (setMemory (<[id fallbackReport := fallbackReport]> (inMemoryReports w)) w,
       Returned fallbackReport)
  end.

Definition storeBugReport (clock : StoreClock) (insertReply : Reply) (w : World)
    (reportJson : option Report) (reportMarkdown : string)
    (linearIssue : option LinearIssue) (userData : option UserData)
    (filesAnalyzed shots : list string) : World * Result ReportData :=
  match storeBody clock insertReply w reportJson reportMarkdown linearIssue userData
          filesAnalyzed shots with
  | (w', Returned data) => (w', Returned data)
  | (w', Thrown _) => storeHandler clock w' reportJson reportMarkdown filesAnalyzed shots
  end.

(** The record [d] as it reads once the report object that is its
    [content_json] got [created_at = t]. *)
Definition seenStamped (t : string) (d : ReportData) : ReportData :=
  {| id := id d;
     row_title := row_title d;
     content_json := stampReport t (content_json d);
     content_markdown := content_markdown d;
     created_at := created_at d;
     linear_issue_id := linear_issue_id d;
     linear_issue_number := linear_issue_number d;
     linear_issue_url := linear_issue_url d;
     reporter_email := reporter_email d;
     reporter_name := reporter_name d;
     status := status d;
     feedback_requested := feedback_requested d;
     files_analyzed := files_analyzed d;
     row_screenshots := row_screenshots d;
     last_updated := last_updated d |}.

(** The assignment of the first statement as the stores show it.  The
    record the function builds has the caller's object as its
    [content_json] ([content_json: reportJson]) and the in-process map keeps
    that record, so a later call on the same object assigns to an object
    that records of the map hold: [sharing] are the ids of these records,
    and they read the new [created_at].  The rows of the remote table are
    serialised copies and read as before. *)
Definition stampShared (t : string) (sharing : gset string) (w : World) : World :=
  setMemory
    (map_imap (λ k d, Some (if bool_decide (k ∈ sharing) then seenStamped t d else d))
       (inMemoryReports w))
    w.

(** [storeBugReport] on a report object that the records [sharing] of the
    in-process map hold; [reportJson] are the fields of the object.  For an
    object made for the call, as in [analyzeBugReport], [sharing] is empty
    and this is [storeBugReport]. *)
Definition storeSharedReport (clock : StoreClock) (insertReply : Reply)
    (sharing : gset string) (w : World)
    (reportJson : Report) (reportMarkdown : string)
    (linearIssue : option LinearIssue) (userData : option UserData)
    (filesAnalyzed shots : list string) : World * Result ReportData :=
  storeBugReport clock insertReply (stampShared (created_iso clock) sharing w)
    (Some reportJson) reportMarkdown linearIssue userData filesAnalyzed shots.

(** *** [getBugReport] *)

Definition getBugReport (selectReply : Reply) (w : World) (reportId : string)
    : Result ReportData :=
  if negb (nonEmpty reportId) then Thrown "Bug report ID is required"
  else
    match from_option (fun rows => remoteSelect selectReply rows reportId) None (supabase w) with
    | Some data => Returned data
    | None =>
        match inMemoryReports w !! reportId with
        | Some data => Returned data
        | None => Thrown "Bug report not found"
        end
    end.

(** *** [confirmBugReport] *)

Record ConfirmClock := mkConfirmClock {
  remote_updated_iso : string;   (* last_updated sent to the remote store *)
  memory_updated_iso : string;   (* last_updated of the in-memory record *)
  confirm_timestamp : string     (* timestamp of the answer *)
}.

Record Confirmation := mkConfirmation {
  confirmed_id : string;
  report_json : Report;
  report_markdown : string;
  confirmed_files : list string;
  confirmed_screenshots : list string;
  linear_issue : option LinearIssue;
  timestamp : string;
  confirmed : bool
}.

(** The fields the remote update of [confirmBugReport] sets: the ticket
    fields only when a ticket was created. *)
Definition confirmRemote (clock : ConfirmClock) (linearIssue : option LinearIssue)
    (row : ReportData) : ReportData :=
  {| id := id row;
     row_title := row_title row;
     content_json := content_json row;
     content_markdown := content_markdown row;
     created_at := created_at row;
     linear_issue_id :=
       match linearIssue with Some i => Some (issue_id i) | None => linear_issue_id row end;
     linear_issue_number :=
       match linearIssue with Some i => Some (issue_number i) | None => linear_issue_number row end;
     linear_issue_url :=
       match linearIssue with Some i => Some (issue_url i) | None => linear_issue_url row end;
     reporter_email := reporter_email row;
     reporter_name := reporter_name row;
     status := Some "confirmed";
     feedback_requested := feedback_requested row;
     files_analyzed := files_analyzed row;
     row_screenshots := row_screenshots row;
     last_updated := Some (remote_updated_iso clock) |}.

(** The in-memory record of [confirmBugReport]: the ticket fields are
    written even without a ticket ([linearIssue?.id]). *)
Definition confirmMemory (clock : ConfirmClock) (linearIssue : option LinearIssue)
    (report : ReportData) : ReportData :=
  {| id := id report;
     row_title := row_title report;
     content_json := content_json report;
     content_markdown := content_markdown report;
     created_at := created_at report;
     linear_issue_id := issue_id <$> linearIssue;
     linear_issue_number := issue_number <$> linearIssue;
     linear_issue_url := issue_url <$> linearIssue;
     reporter_email := reporter_email report;
     reporter_name := reporter_name report;
     status := Some "confirmed";
     feedback_requested := feedback_requested report;
     files_analyzed := files_analyzed report;
     row_screenshots := row_screenshots report;
     last_updated := Some (memory_updated_iso clock) |}.

(** [linearIssue] is what [createLinearIssue] resolves to for the record
    that was found (it never rejects: its body is inside a handler). *)
Definition confirmBugReport (clock : ConfirmClock) (selectReply updateReply : Reply)
    (linearIssue : ReportData -> option LinearIssue)
    (w : World) (reportId : string) : World * Result Confirmation :=
  if negb (nonEmpty reportId) then (w, Thrown "Report ID is required")
  else
    let found :=
      match from_option (fun rows => remoteSelect selectReply rows reportId) None (supabase w) with
      | Some data => Some data
      | None => inMemoryReports w !! reportId
      end in
    match found with
    | None => (w, Thrown "Bug report not found")
    | Some reportData =>
        let issue := linearIssue reportData in
        let '(w1, updatedReport) :=
          match supabase w with
          | Some rows =>
              let '(rows', data) :=
                remoteUpdate updateReply rows reportId (confirmRemote clock issue) in
              (setRemote rows' w, data)
          | None => (w, None)
          end in
        let w2 :=
          match updatedReport, inMemoryReports w1 !! reportId with
          | None, Some report =>
              setMemory (<[reportId := confirmMemory clock issue report]> (inMemoryReports w1)) w1
          | _, _ => w1
          end in
        (w2, Returned {| confirmed_id := reportId;
                         report_json := content_json reportData;
                         report_markdown := content_markdown reportData;
                         confirmed_files := files_analyzed reportData;
                         confirmed_screenshots := row_screenshots reportData;
                         linear_issue := issue;
                         timestamp := confirm_timestamp clock;
                         confirmed := true |})
    end.

(** *** [submitAdditionalInfo] *)

Record SubmitClock := mkSubmitClock {
  remote_submitted_iso : string;   (* submitted_at sent to the remote store *)
  remote_info_updated_iso : string;
  memory_submitted_iso : string;   (* submitted_at of the in-memory record *)
  memory_info_updated_iso : string
}.

Record Submission := mkSubmission {
  message : string;
  submitted_id : string
}.

(** [{ ...old || {}, ...responses, submitted_at: t }] *)
Definition mergeInfo (old : option (gmap string string))
    (responses : gmap string string) (t : string) : gmap string string :=
  <["submitted_at" := t]> (responses ∪ default ∅ old).

(** [{ ...content_json, additional_info: ... }] *)
Definition withInfo (responses : gmap string string) (t : string) (c : Report) : Report :=
  {| title := title c;
     suspected_root_cause := suspected_root_cause c;
     evidence := evidence c;
     next_steps := next_steps c;
     report_created_at := report_created_at c;
     additional_info := Some (mergeInfo (additional_info c) responses t) |}.

(** The fields both the remote update and the in-memory record of
    [submitAdditionalInfo] set: [updated] is the new [content_json]. *)
Definition infoFields (updated : Report) (t : string) (row : ReportData) : ReportData :=
  {| id := id row;
     row_title := row_title row;
     content_json := updated;
     content_markdown := content_markdown row;
     created_at := created_at row;
     linear_issue_id := linear_issue_id row;
     linear_issue_number := linear_issue_number row;
     linear_issue_url := linear_issue_url row;
     reporter_email := reporter_email row;
     reporter_name := reporter_name row;
     status := status row;
     feedback_requested := Some false;
     files_analyzed := files_analyzed row;
     row_screenshots := row_screenshots row;
     last_updated := Some t |}.

(** The comment sent to the issue tracker at the end changes nothing here
    and its failure is swallowed, so it is left out. *)
Definition submitAdditionalInfo (clock : SubmitClock) (selectReply updateReply : Reply)
    (w : World) (reportId : string) (responses : gmap string string)
    : World * Result Submission :=
  if negb (nonEmpty reportId) then (w, Thrown "Bug report ID is required")
  else if bool_decide (responses = ∅) then (w, Thrown "Additional information is required")
  else
    let '(w1, fromRemote, updatedReport) :=
      match supabase w with
      | Some rows =>
          match remoteSelect selectReply rows reportId with
          | Some data =>
              let updatedContentJson :=
                withInfo responses (remote_submitted_iso clock) (content_json data) in
              let '(rows', updatedData) :=
                remoteUpdate updateReply rows reportId
                  (infoFields updatedContentJson (remote_info_updated_iso clock)) in
              (setRemote rows' w, Some data, updatedData)
          | None => (w, None, None)
          end
      | None => (w, None, None)
      end in
    let found :=
      match fromRemote with
      | Some data => Some data
      | None => inMemoryReports w1 !! reportId
      end in
    match found with
    | None => (w1, Thrown "Bug report not found")
    | Some reportData =>
        match updatedReport with
        | Some updated =>
            (w1, Returned {| message := "Additional information submitted successfully";
                             submitted_id := id updated |})
        | None =>
            let updatedContentJson :=
              withInfo responses (memory_submitted_iso clock) (content_json reportData) in
            let updated :=
              infoFields updatedContentJson (memory_info_updated_iso clock) reportData in
            (setMemory (<[reportId := updated]> (inMemoryReports w1)) w1,
             Returned {| message := "Additional information submitted successfully";
                         submitted_id := id updated |})
        end
    end.

(** ** The snippet loader: [readCodeSnippets] *)

(** [object[key] = value] on an object literal, [value] a string: the key
    ["__proto__"] reaches the prototype setter, which ignores a string, so
    no property is made. *)
Definition setProperty (key value : string) (object : gmap string string)
    : gmap string string :=
  if String.eqb key "__proto__" then object else <[key := value]> object.

(** [readFile] gives the outcome of [fileSystem.readFile] on a path.  The
    loop body has its own handler, so the outer one is never entered. *)
Definition readCodeSnippets (readFile : string → Result string)
    (filePaths : list string) : gmap string string :=
  fold_left
    (λ codeSnippets filePath,
       match readFile filePath with
       | Returned content => setProperty filePath content codeSnippets
       | Thrown message => setProperty filePath ("Error reading file: " +:+ message) codeSnippets
       end)
    filePaths ∅.

(** ** The ticket publisher: [createLinearIssue] *)

Record Label := mkLabel {
  label_id : string;
  label_name : string
}.

(** The argument of [linearClient.createIssue]. *)
Record IssuePayload := mkIssuePayload {
  teamId : string;
  payload_title : string;
  payload_description : string;
  labelIds : list string;
  priority : N
}.

(** What the tracker answers to [createIssue]. *)
Record CreatedIssue := mkCreatedIssue {
  created : LinearIssue;
  created_title : option string
}.

(** The tracker client, by the outcome of its calls: [teams] gives the ids
    of [teams.nodes], [issueLabels] the [nodes] of the labels. *)
Record LinearClient := mkLinearClient {
  teams : Result (list string);
  issueLabels : Result (list Label);
  createIssue : IssuePayload → Result CreatedIssue
}.

(** The object [createLinearIssue] resolves to when it is not [null]. *)
Record Ticket := mkTicket {
  ticket : LinearIssue;
  ticket_title : string
}.

(** The two characters the source writes as a doubled backslash followed
    by [n]: they are not a line break. *)
Definition backslashN : string := backslash +:+ "n".

Definition screenshotImage (url : string) : string := "![Screenshot](" +:+ url +:+ ")".

Definition issueDescription (reportMarkdown : string) (files shots : list string) : string :=
  let filesList := join backslashN (map fileBullet files) in
  let screenshotsSection :=
    if 0 <? length shots
    then backslashN +:+ backslashN +:+ "## Screenshots" +:+ backslashN
         +:+ join backslashN (map screenshotImage shots)
    else "" in
  "## AI Bug Analysis" +:+ backslashN +:+ reportMarkdown +:+ backslashN +:+ backslashN
  +:+ "## Files Examined" +:+ backslashN +:+ filesList +:+ screenshotsSection.

Definition isBugLabel (label : Label) : bool :=
  String.eqb (toLowerCase (label_name label)) "bug".

Definition isPriorityLabel (label : Label) : bool :=
  String.eqb (toLowerCase (label_name label)) "high"
  || String.eqb (toLowerCase (label_name label)) "urgent".

Definition mentionsCrash (reportJson : Report) : bool :=
  includes (toLowerCase (suspected_root_cause reportJson)) "crash"
  || includes (toLowerCase (suspected_root_cause reportJson)) "critical".

(** The labels of the ticket; a failed label request gives none. *)
Definition labelIdsFor (labels : Result (list Label)) (reportJson : Report) : list string :=
  match labels with
  | Thrown _ => []
  | Returned nodes =>
      let labelIds :=
        match List.find isBugLabel nodes with
        | Some bugLabel => [label_id bugLabel]
        | None => []
        end in
      if mentionsCrash reportJson then
        match List.find isPriorityLabel nodes with
        | Some priorityLabel => labelIds ++ [label_id priorityLabel]
        | None => labelIds
        end
      else labelIds
  end.

(** The team of the ticket: the configured one, else the first team of the
    tracker. *)
Definition resolveTeam (client : LinearClient) (configTeamId : option string)
    : option string :=
  if truthy configTeamId then configTeamId
  else
    match teams client with
    | Returned (first :: _) => Some first
    | Returned [] => None
    | Thrown _ => None
    end.

Definition issuePayloadFor (client : LinearClient) (team : string) (reportJson : Report)
    (reportMarkdown : string) (files shots : list string) : IssuePayload :=
  {| teamId := team;
     payload_title := title reportJson;
     payload_description := issueDescription reportMarkdown files shots;
     labelIds := labelIdsFor (issueLabels client) reportJson;
     priority := 2 |}.

(** [linearClient] is [None] when no tracker is configured.  A failure of
    [createIssue] is caught by the outer handler. *)
Definition createLinearIssue (linearClient : option LinearClient) (reportJson : Report)
    (reportMarkdown : string) (files shots : list string) (configTeamId : option string)
    : option Ticket :=
  match linearClient with
  | None => None
  | Some client =>
      match resolveTeam client configTeamId with
      | None => None
      | Some team =>
          match createIssue client
                  (issuePayloadFor client team reportJson reportMarkdown files shots) with
          | Returned issue =>
              Some {| ticket := created issue;
                      ticket_title := if truthy (created_title issue)
                                      then default "" (created_title issue)
                                      else title reportJson |}
          | Thrown _ => None
          end
      end
  end.

(** [confirmBugReport] with the ticket made by [createLinearIssue] from the
    record it found. *)
Definition confirmWithTracker (linearClient : option LinearClient)
    (configTeamId : option string) (clock : ConfirmClock)
    (selectReply updateReply : Reply) (w : World) (reportId : string)
    : World * Result Confirmation :=
  confirmBugReport clock selectReply updateReply
    (λ reportData,
       ticket <$> createLinearIssue linearClient (content_json reportData)
                    (content_markdown reportData) (files_analyzed reportData)
                    (row_screenshots reportData) configTeamId)
    w reportId.

(** ** The orchestrator: [analyzeBugReport] *)

(** The request body of the analysis. *)
Record AnalyzeData := mkAnalyzeData {
  data_description : option string;
  data_logs : option string;
  data_steps : option string;
  repoPath : option string;
  data_email : option string;
  data_name : option string;
  data_additionalContext : option string;
  data_screenshots : option (list string)
}.

(** The file system interface: [listFiles] is [None] where it raises. *)
Record FileSystem := mkFileSystem {
  listFiles : string → option (list string);
  readFile : string → Result string
}.

Record Analysis := mkAnalysis {
  analysis_id : string;
  analysis_report_json : Report;
  analysis_report_markdown : string;
  analysis_files : list string;
  analysis_screenshots : list string;
  analysis_needs_more_info : option MoreInfo;
  analysis_timestamp : string;
  pending_confirmation : bool
}.

(** [selection] and [synthesis] are the outcomes of the two model calls.
    The report the answer carries is the object [storeBugReport] has stamped
    with [created_at]. *)
Definition analyzeBugReport (fileSystem : FileSystem)
    (selection : ModelOutcome (list string)) (synthesis : ModelOutcome Report)
    (clock : StoreClock) (insertReply : Reply) (answered_iso : string)
    (w : World) (data : AnalyzeData) : World * Result Analysis :=
  match data_description data, repoPath data with
  | Some description, Some path =>
      if negb (nonEmpty description) then (w, Thrown "Bug description is required")
      else if negb (nonEmpty path) then (w, Thrown "Repository path is required")
      else
        let relevantFiles := searchCodebase selection description (listFiles fileSystem path) in
        let codeSnippets := readCodeSnippets (readFile fileSystem) relevantFiles in
        let shots := default [] (data_screenshots data) in
        let bugData :=
          {| description := description;
             logs := data_logs data;
             steps := data_steps data;
             additionalContext := data_additionalContext data;
             screenshots := shots |} in
        let reportJson := generateBugReport synthesis bugData in
        let reportMarkdown := generateMarkdownReport reportJson in
        let needsMore := checkIfNeedsMoreInfo reportJson in
        let userData := {| email := data_email data; name := data_name data |} in
        match storeBugReport clock insertReply w (Some reportJson) reportMarkdown None
                (Some userData) relevantFiles shots with
        | (w', Returned storedReport) =>
            (w', Returned {| analysis_id := id storedReport;
                             analysis_report_json := stampReport (created_iso clock) reportJson;
                             analysis_report_markdown := reportMarkdown;
                             analysis_files := relevantFiles;
                             analysis_screenshots := shots;
                             analysis_needs_more_info := needsMore;
                             analysis_timestamp := answered_iso;
                             pending_confirmation := true |})
        | (w', Thrown message) => (w', Thrown message)
        end
  | None, _ => (w, Thrown "Bug description is required")
  | Some description, None =>
      if negb (nonEmpty description) then (w, Thrown "Bug description is required")
      else (w, Thrown "Repository path is required")
  end.

(** ** The routes of [bugReportRoutes.js] *)

Record ErrorBody := mkErrorBody {
  error_message : string;
  error_detail : option string
}.

(** An answer: its status and its JSON body, a result or an error object. *)
Record HttpResponse (A : Type) := mkHttpResponse {
  http_status : nat;
  http_body : A + ErrorBody
}.
Arguments mkHttpResponse {A} http_status http_body.
Arguments http_status {A} h.
Arguments http_body {A} h.

Definition okJson {A : Type} (a : A) : HttpResponse A :=
  {| http_status := 200; http_body := inl a |}.

Definition failJson {A : Type} (code : nat) (message : string) (detail : option string)
    : HttpResponse A :=
  {| http_status := code;
     http_body := inr {| error_message := message; error_detail := detail |} |}.

(** [POST /analyze], after the rate limiter let the request through. *)
Definition analyzeRoute (fileSystem : FileSystem)
    (selection : ModelOutcome (list string)) (synthesis : ModelOutcome Report)
    (clock : StoreClock) (insertReply : Reply) (answered_iso : string)
    (w : World) (body : AnalyzeData) : World * HttpResponse Analysis :=
  match analyzeBugReport fileSystem selection synthesis clock insertReply answered_iso w body with
  | (w', Returned result) => (w', okJson result)
  | (w', Thrown message) =>
      (w', failJson 500 "An error occurred while analyzing the bug report" (Some message))
  end.

(** [POST /confirm]; [envTeamId] is [process.env.LINEAR_TEAM_ID]. *)
Definition confirmRoute (linearClient : option LinearClient) (envTeamId : option string)
    (clock : ConfirmClock) (selectReply updateReply : Reply)
    (w : World) (reportId : option string) : World * HttpResponse Confirmation :=
  match reportId with
  | Some rid =>
      if negb (nonEmpty rid) then (w, failJson 400 "Report ID is required" None)
      else
        match confirmWithTracker linearClient envTeamId clock selectReply updateReply w rid with
        | (w', Returned result) => (w', okJson result)
        | (w', Thrown message) =>
            (w', failJson 500 "An error occurred while confirming the bug report"
                   (Some message))
        end
  | None => (w, failJson 400 "Report ID is required" None)
  end.

(** [POST /:id/additional-info] *)
Definition additionalInfoRoute (clock : SubmitClock) (selectReply updateReply : Reply)
    (w : World) (reportId : string) (responses : option (gmap string string))
    : World * HttpResponse Submission :=
  match responses with
  | Some answers =>
      if bool_decide (answers = ∅)
      then (w, failJson 400 "Additional information is required" None)
      else
        match submitAdditionalInfo clock selectReply updateReply w reportId answers with
        | (w', Returned result) => (w', okJson result)
        | (w', Thrown message) =>
            (w', failJson 500 "An error occurred while submitting additional information"
                   (Some message))
        end
  | None => (w, failJson 400 "Additional information is required" None)
  end.

(** [GET /:id] *)
Definition getRoute (selectReply : Reply) (w : World) (reportId : string)
    : HttpResponse ReportData :=
  match getBugReport selectReply w reportId with
  | Returned report => okJson report
  | Thrown message => failJson 404 "Bug report not found" (Some message)
  end.

(** ** The conditions of the specification *)

(** The four conditions of the gate as the specification words them. *)
Definition askForMorePhrases : list string :=
  [ "provide more"; "additional info"; "reproduction steps"; "more details"; "clarify" ].

Definition uncertainRootCause (r : Report) : Prop :=
  ∃ term, In term uncertaintyTerms
          ∧ includes (toLowerCase (suspected_root_cause r)) term = true.

Definition fewerThanTwoEvidence (r : Report) : Prop :=
  length (evidence r) < 2.

Definition someVagueEvidence (r : Report) : Prop :=
  ∃ e, In e (evidence r)
       ∧ (String.length e < 20
          ∨ includes e "/" = false
          ∨ (includes e "code" = true ∧ includes e ":" = false)).

Definition someStepAsksForMore (r : Report) : Prop :=
  ∃ step, In step (next_steps r)
          ∧ ∃ phrase, In phrase askForMorePhrases
                      ∧ includes (toLowerCase step) phrase = true.

Definition anyGateCondition (r : Report) : Prop :=
  uncertainRootCause r ∨ fewerThanTwoEvidence r
  ∨ someVagueEvidence r ∨ someStepAsksForMore r.

(** A list of follow-up questions asks for a screenshot. *)
Definition asksScreenshot (qs : list Request) : Prop :=
  ∃ q, In q qs ∧ type q = "screenshot".

(** Some evidence entry mentions a screenshot, in any letter case. *)
Definition mentionsScreenshot (ev : list string) : Prop :=
  ∃ e, In e ev ∧ includes (toLowerCase e) "screenshot" = true.

(** The model gave no report: it is absent or its call failed. *)
Definition modelUnavailable {A : Type} (model : ModelOutcome A) : Prop :=
  match model with
  | ModelReturned _ => False
  | NoModel | ModelFailed => True
  end.

(** The evidence of the specification's fallback: an entry mentions
    screenshots only if some were supplied. *)
Definition screenshotsMentionedOnlyIfSupplied (bugData : BugData) (r : Report) : Prop :=
  mentionsScreenshot (evidence r) → screenshots bugData ≠ [].

(** The keyword-overlap score of the specification: how many of the
    whitespace-split keywords of the lower-cased description occur in the
    lower-cased path. *)
Definition keywordOverlap (bugReport path : string) : nat :=
  length (List.filter (fun keyword => includes (toLowerCase path) keyword)
                      (splitSpaces (toLowerCase bugReport))).

(** No row of the remote table and no entry of the in-process map has the
    id. *)
Definition absentFromStore (w : World) (reportId : string) : Prop :=
  (∀ rows, supabase w = Some rows → rows !! reportId = None)
  ∧ inMemoryReports w !! reportId = None.

(** The record is kept under its id, by the remote table or by the
    in-process map. *)
Definition persistedIn (w : World) (data : ReportData) : Prop :=
  (∃ rows, supabase w = Some rows ∧ rows !! id data = Some data)
  ∨ inMemoryReports w !! id data = Some data.

(** The call read the record [d] under the id, from the remote table or
    from the in-process map. *)
Definition readsRecord (w : World) (reportId : string) (d : ReportData) : Prop :=
  (∃ rows, supabase w = Some rows ∧ rows !! reportId = Some d)
  ∨ inMemoryReports w !! reportId = Some d.

(** The call changed the stores by putting [d'] under the id, in the
    remote table or in the in-process map, and nothing else. *)
Definition writesRecord (w w' : World) (reportId : string) (d' : ReportData) : Prop :=
  (∃ rows, supabase w = Some rows
           ∧ w' = {| supabase := Some (<[reportId := d']> rows);
                     inMemoryReports := inMemoryReports w |})
  ∨ w' = {| supabase := supabase w;
            inMemoryReports := <[reportId := d']> (inMemoryReports w) |}.

(** [d'] is [d] but for the additional information of its report, its
    feedback marker, which is false, and its last update. *)
Definition onlyInfoChanged (d d' : ReportData) : Prop :=
  id d' = id d ∧ row_title d' = row_title d
  ∧ content_markdown d' = content_markdown d ∧ created_at d' = created_at d
  ∧ linear_issue_id d' = linear_issue_id d
  ∧ linear_issue_number d' = linear_issue_number d
  ∧ linear_issue_url d' = linear_issue_url d
  ∧ reporter_email d' = reporter_email d ∧ reporter_name d' = reporter_name d
  ∧ status d' = status d
  ∧ files_analyzed d' = files_analyzed d ∧ row_screenshots d' = row_screenshots d
  ∧ title (content_json d') = title (content_json d)
  ∧ suspected_root_cause (content_json d') = suspected_root_cause (content_json d)
  ∧ evidence (content_json d') = evidence (content_json d)
  ∧ next_steps (content_json d') = next_steps (content_json d)
  ∧ report_created_at (content_json d') = report_created_at (content_json d)
  ∧ feedback_requested d' = Some false.

(** Both submissions work on the same copy of the record: the in-process
    one (the remote store gives no record either time) or the remote one
    (it serves both lookups and both updates). *)
Definition sameCopyBothTimes (w : World) (reportId : string)
    (select1 update1 select2 update2 : Reply) : Prop :=
  (is_Some (inMemoryReports w !! reportId)
   ∧ ∀ rows, supabase w = Some rows →
             remoteSelect select1 rows reportId = None
             ∧ remoteSelect select2 rows reportId = None)
  ∨ (∃ rows, supabase w = Some rows ∧ is_Some (rows !! reportId)
             ∧ select1 = Served ∧ update1 = Served
             ∧ select2 = Served ∧ update2 = Served).

(** [m] has every key of [r1] and of [r2], with the value of [r2] where
    it has the key and the value of [r1] elsewhere; the key the submission
    time is stored under is the exception for the values. *)
Definition holdsBoth (r1 r2 m : gmap string string) : Prop :=
  (∀ k, is_Some (r1 !! k) ∨ is_Some (r2 !! k) → is_Some (m !! k))
  ∧ (∀ k v, k ≠ "submitted_at" → r2 !! k = Some v → m !! k = Some v)
  ∧ (∀ k v, k ≠ "submitted_at" → r2 !! k = None → r1 !! k = Some v → m !! k = Some v).

(** The six kinds of follow-up question, in the order the gate asks them. *)
Definition requestTypes : list string :=
  [ "reproduction_steps"; "environment"; "version"; "user_context"; "data_context";
    "screenshot" ].

(** A list of follow-up questions holds a question of the kind. *)
Definition asksFor (kind : string) (qs : list Request) : Prop :=
  ∃ q, In q qs ∧ type q = kind.

(** The report with its title, root cause and next steps in lower case;
    the evidence is left as it is. *)
Definition lowerCased (r : Report) : Report :=
  {| title := toLowerCase (title r);
     suspected_root_cause := toLowerCase (suspected_root_cause r);
     evidence := evidence r;
     next_steps := map toLowerCase (next_steps r);
     report_created_at := report_created_at r;
     additional_info := additional_info r |}.

(** Every code unit of the string is in the class. *)
Fixpoint allUnits (cls : ascii → bool) (s : string) : bool :=
  match s with
  | EmptyString => true
  | String c s' => cls c && allUnits cls s'
  end.

(** The texts a piece and a pattern stand for. *)
Definition pieceShape (piece : Regex.Piece) (m : string) : Prop :=
  match piece with
  | Regex.One cls => ∃ c, m = String c EmptyString ∧ cls c = true
  | Regex.Many cls => m ≠ "" ∧ allUnits cls m = true
  | Regex.Lit t => m = t
  | Regex.Choice alts => In m alts
  end.

Fixpoint patternShape (re : list Regex.Piece) (m : string) : Prop :=
  match re with
  | [] => m = ""
  | piece :: re' => ∃ m1 m2, m = m1 +:+ m2 ∧ pieceShape piece m1 ∧ patternShape re' m2
  end.

(** Every record is kept under its own id. *)
Definition wellKeyed (w : World) : Prop :=
  (∀ rows k d, supabase w = Some rows → rows !! k = Some d → id d = k)
  ∧ (∀ k d, inMemoryReports w !! k = Some d → id d = k).

(** The two worlds keep the same record, or none, under the id. *)
Definition sameAt (w w' : World) (k : string) : Prop :=
  (supabase w ≫= (.!! k)) = (supabase w' ≫= (.!! k))
  ∧ inMemoryReports w !! k = inMemoryReports w' !! k
  ∧ (is_Some (supabase w) ↔ is_Some (supabase w')).

(** [d'] is [d] but for the creation time of its report, which is [t]. *)
Definition onlyStampChanged (t : string) (d d' : ReportData) : Prop :=
  id d' = id d ∧ row_title d' = row_title d
  ∧ content_markdown d' = content_markdown d ∧ created_at d' = created_at d
  ∧ linear_issue_id d' = linear_issue_id d
  ∧ linear_issue_number d' = linear_issue_number d
  ∧ linear_issue_url d' = linear_issue_url d
  ∧ reporter_email d' = reporter_email d ∧ reporter_name d' = reporter_name d
  ∧ status d' = status d ∧ feedback_requested d' = feedback_requested d
  ∧ files_analyzed d' = files_analyzed d ∧ row_screenshots d' = row_screenshots d
  ∧ last_updated d' = last_updated d
  ∧ title (content_json d') = title (content_json d)
  ∧ suspected_root_cause (content_json d') = suspected_root_cause (content_json d)
  ∧ evidence (content_json d') = evidence (content_json d)
  ∧ next_steps (content_json d') = next_steps (content_json d)
  ∧ additional_info (content_json d') = additional_info (content_json d)
  ∧ report_created_at (content_json d') = Some t.

(** Under the id the remote table keeps what it kept, and the in-process
    map keeps what it kept unless its record is one of [sharing]: such a
    record changed in the creation time of its report only, which is [t]. *)
Definition sameAtButShared (t : string) (sharing : gset string) (w w' : World)
    (k : string) : Prop :=
  (supabase w ≫= (.!! k)) = (supabase w' ≫= (.!! k))
  ∧ (is_Some (supabase w) ↔ is_Some (supabase w'))
  ∧ (k ∉ sharing → inMemoryReports w !! k = inMemoryReports w' !! k)
  ∧ (k ∈ sharing →
     option_Forall2 (onlyStampChanged t) (inMemoryReports w !! k) (inMemoryReports w' !! k)).

(** The code unit is a decimal digit. *)
Definition isDigit (c : ascii) : bool :=
  let n := nat_of_ascii c in (48 <=? n) && (n <=? 57).

(** ** The file listing of the routes (bugReportRoutes.js, fileSystem.listFiles) *)

Module Disk.

(** What the disk holds at a path.  [statSync] throws ([NoStat]) or tells a
    directory from anything else; [readdirSync] on a directory throws
    ([IsDir None]) or gives the names it holds, and throws on anything that
    is no directory.  [statSync] follows links, so a tree describes a disk
    without link cycles. *)
#[warnings="-register-all"] Inductive Entry : Type :=
| NoStat
| IsFile
| IsDir (listing : option (list (string * Entry))).

(** [file === 'node_modules' || file === '.git' || file === 'dist'] *)
Definition skipped (file : string) : bool :=
  String.eqb file "node_modules" || String.eqb file ".git" || String.eqb file "dist".

Definition relevantExtensions : list string :=
  ["js"; "jsx"; "ts"; "tsx"; "css"; "html"; "json"].

(** [\.(js|jsx|ts|tsx|css|html|json)$] matched from the first unit of [rest] *)
Definition extensionAt (rest : string) : bool :=
  existsb (λ extension, String.eqb rest ("." +:+ extension)) relevantExtensions.

(** [/\.(js|jsx|ts|tsx|css|html|json)$/.test(file)]: the pattern is tried
    from every index of [file]. *)
Fixpoint hasExtension (file : string) : bool :=
  extensionAt file
  || match file with
     | EmptyString => false
     | String _ rest => hasExtension rest
     end.

Section Listing.

(** [path.join] *)
Variable pathJoin : string → string → string.

(** [getAllFiles(dir, fileList)], [here] being what the disk holds at [dir].
    The array [fileList] is shared by all the calls, so what was pushed
    before an exception stays; an exception of [readdirSync] or [statSync]
    ends the loop of the directory it happens in. *)
Fixpoint getAllFiles (dir : string) (here : Entry) (fileList : list string) : list string :=
  match here with
  | IsDir (Some files) =>
      (fix loop (files : list (string * Entry)) (fileList : list string) : list string :=
         match files with
         | [] => fileList
         | (file, stat) :: rest =>
             let filePath := pathJoin dir file in
             match stat with
             | NoStat => fileList
             | IsFile =>
                 if skipped file then loop rest fileList
                 else if hasExtension file then loop rest (fileList ++ [filePath])
                 else loop rest fileList
             | IsDir _ =>
                 if skipped file then loop rest fileList
                 else loop rest (getAllFiles filePath stat fileList)
             end
         end) files fileList
  | _ => fileList
  end.

(** The loop of [getAllFiles] over the names of one directory. *)
Fixpoint forEachFile (dir : string) (files : list (string * Entry)) (fileList : list string)
    : list string :=
  match files with
  | [] => fileList
  | (file, stat) :: rest =>
      let filePath := pathJoin dir file in
      match stat with
      | NoStat => fileList
      | IsFile =>
          if skipped file then forEachFile dir rest fileList
          else if hasExtension file then forEachFile dir rest (fileList ++ [filePath])
          else forEachFile dir rest fileList
      | IsDir _ =>
          if skipped file then forEachFile dir rest fileList
          else forEachFile dir rest (getAllFiles filePath stat fileList)
      end
  end.

(** [listFiles(repoPath)] *)
Definition listFiles (repoPath : string) (root : Entry) : list string :=
  getAllFiles repoPath root [].

(** The name ends with a dot and one of the seven extensions. *)
Definition endsWithExtension (file : string) : Prop :=
  ∃ stem extension, extension ∈ relevantExtensions ∧ file = stem +:+ "." +:+ extension.

(** [path] is the joined path of a file with one of the extensions that is
    reached from [dir] through readable directories none of which, nor the
    file, is named node_modules, .git or dist. *)
Inductive reachable : string → Entry → string → Prop :=
| reachable_file dir files file :
    (file, IsFile) ∈ files → skipped file = false → endsWithExtension file →
    reachable dir (IsDir (Some files)) (pathJoin dir file)
| reachable_below dir files file listing path :
    (file, IsDir listing) ∈ files → skipped file = false →
    reachable (pathJoin dir file) (IsDir listing) path →
    reachable dir (IsDir (Some files)) path.

End Listing.

(** [statSync] throws nowhere in the tree. *)
Fixpoint statsEverywhere (here : Entry) : bool :=
  match here with
  | NoStat => false
  | IsFile => true
  | IsDir None => true
  | IsDir (Some files) => forallb (λ entry, statsEverywhere entry.2) files
  end.

End Disk.

(** ** Sample values *)

Definition sampleReport : Report :=
  {| title := "Save fails";
     suspected_root_cause := "The handler drops the payload";
     evidence := [ "see /src/api/save.js: line 10"; "and /src/api/form.js: line 3" ];
     next_steps := [ "Check the handler" ];
     report_created_at := Some "2024-05-01T10:00:00.000Z";
     additional_info := None |}.

Definition sampleRow (reportId : string) : ReportData :=
  {| id := reportId;
     row_title := "Save fails";
     content_json := sampleReport;
     content_markdown := generateMarkdownReport sampleReport;
     created_at := "2024-05-01T10:00:00.000Z";
     linear_issue_id := None;
     linear_issue_number := None;
     linear_issue_url := None;
     reporter_email := Some "ana@example.org";
     reporter_name := None;
     status := Some "open";
     feedback_requested := Some false;
     files_analyzed := [ "/src/api/save.js" ];
     row_screenshots := [];
     last_updated := None |}.

Definition sampleStoreClock : StoreClock :=
  {| created_iso := "2024-05-01T10:00:00.000Z";
     now_ms := 1714557600000;
     random_1000 := 417;
     fallback_ms := 1714557600001;
     fallback_iso := "2024-05-01T10:00:00.001Z" |}.

(** An hour later. *)
Definition laterClock : StoreClock :=
  {| created_iso := "2024-05-01T11:00:00.000Z";
     now_ms := 1714561200000;
     random_1000 := 12;
     fallback_ms := 1714561200001;
     fallback_iso := "2024-05-01T11:00:00.001Z" |}.

Definition sampleConfirmClock : ConfirmClock :=
  {| remote_updated_iso := "2024-05-01T10:05:00.000Z";
     memory_updated_iso := "2024-05-01T10:05:00.001Z";
     confirm_timestamp := "2024-05-01T10:05:00.002Z" |}.

Definition sampleSubmitClock (minute : string) : SubmitClock :=
  {| remote_submitted_iso := "2024-05-01T10:" +:+ minute +:+ ":00.000Z";
     remote_info_updated_iso := "2024-05-01T10:" +:+ minute +:+ ":00.001Z";
     memory_submitted_iso := "2024-05-01T10:" +:+ minute +:+ ":00.002Z";
     memory_info_updated_iso := "2024-05-01T10:" +:+ minute +:+ ":00.003Z" |}.

(** ** Properties of the gate *)

Lemma hasUncertainty_spec (r : Report) :
  hasUncertainty r = true ↔ uncertainRootCause r.
Proof.
  unfold hasUncertainty, uncertainRootCause. rewrite existsb_exists. reflexivity.
Qed.

Lemma thinEvidence_spec (r : Report) :
  thinEvidence r = true ↔ fewerThanTwoEvidence r.
Proof.
  unfold thinEvidence, fewerThanTwoEvidence. apply Nat.ltb_lt.
Qed.

Lemma vagueItem_spec (e : string) :
  vagueItem e = true ↔
  String.length e < 20 ∨ includes e "/" = false
  ∨ (includes e "code" = true ∧ includes e ":" = false).
Proof.
  unfold vagueItem.
  rewrite !orb_true_iff, andb_true_iff, !negb_true_iff, Nat.ltb_lt. tauto.
Qed.

Lemma vagueEvidence_spec (r : Report) :
  vagueEvidence r = true ↔ someVagueEvidence r.
Proof.
  unfold vagueEvidence, someVagueEvidence. rewrite existsb_exists.
  split; intros (e & Hin & He); exists e; split; auto; now apply vagueItem_spec.
Qed.

Lemma stepAsksMore_spec (step : string) :
  stepAsksMore step = true ↔
  ∃ phrase, In phrase askForMorePhrases ∧ includes (toLowerCase step) phrase = true.
Proof.
  unfold stepAsksMore, askForMorePhrases. cbv zeta.
  rewrite !orb_true_iff. split.
  - intros [[[[H|H]|H]|H]|H]; eexists; (split; [|exact H]); simpl; tauto.
  - intros (p & Hin & Hp). simpl in Hin.
    destruct Hin as [<-|[<-|[<-|[<-|[<-|[]]]]]]; tauto.
Qed.

Lemma requestsMoreInfo_spec (r : Report) :
  requestsMoreInfo r = true ↔ someStepAsksForMore r.
Proof.
  unfold requestsMoreInfo, someStepAsksForMore. rewrite existsb_exists.
  split; intros (s & Hin & Hs); exists s; split; auto; now apply stepAsksMore_spec.
Qed.

Lemma needsMoreInfo_spec (r : Report) :
  needsMoreInfo r = true ↔ anyGateCondition r.
Proof.
  unfold needsMoreInfo, anyGateCondition.
  rewrite !orb_true_iff, hasUncertainty_spec, thinEvidence_spec,
    vagueEvidence_spec, requestsMoreInfo_spec. tauto.
Qed.

(** C1. The gate answers [null] exactly when none of the four conditions
    (uncertain root cause, fewer than two evidence entries, a vague evidence
    entry, a next step asking for more) holds; otherwise its
    [needs_more_info] is true and its confidence is "low" under the first
    condition, else "medium-low" under the third, else "medium". *)
Theorem gate_four_conditions (r : Report) :
  (checkIfNeedsMoreInfo r = None ↔ ¬ anyGateCondition r)
  ∧ (∀ info, checkIfNeedsMoreInfo r = Some info →
       anyGateCondition r
       ∧ needs_more_info info = true
       ∧ (uncertainRootCause r → confidence info = "low")
       ∧ (¬ uncertainRootCause r → someVagueEvidence r → confidence info = "medium-low")
       ∧ (¬ uncertainRootCause r → ¬ someVagueEvidence r → confidence info = "medium")).
Proof.
  pose proof (needsMoreInfo_spec r) as Hany.
  pose proof (hasUncertainty_spec r) as Ha.
  pose proof (vagueEvidence_spec r) as Hc.
  unfold checkIfNeedsMoreInfo.
  destruct (needsMoreInfo r) eqn:Hn; split.
  - split; [discriminate | intros H; destruct H; now apply Hany].
  - intros info [= <-]; simpl.
    split; [now apply Hany |]. split; [reflexivity |].
    destruct (hasUncertainty r), (vagueEvidence r); repeat split;
      intros; try reflexivity; exfalso; intuition congruence.
  - split; [intros _ H; apply Hany in H; discriminate | reflexivity].
  - discriminate.
Qed.

Lemma in_pushIf (c : bool) (x q : Request) (l : list Request) :
  In q (pushIf c x l) ↔ In q l ∨ (c = true ∧ q = x).
Proof.
  unfold pushIf. destruct c.
  - rewrite in_app_iff. simpl. intuition congruence.
  - intuition congruence.
Qed.

Lemma followUps_screenshot (r : Report) :
  asksScreenshot (followUps r) ↔ evidenceMentionsScreenshot r = false.
Proof.
  unfold asksScreenshot, followUps. cbv zeta. split.
  - intros (q & Hin & Hty).
    repeat (apply in_pushIf in Hin;
            destruct Hin as [Hin | [Hc ->]]; [| try discriminate Hty]).
    + destruct Hin.
    + now apply negb_true_iff.
  - intros H. exists q_screenshot. split; [| reflexivity].
    apply in_pushIf. right. split; [now apply negb_true_iff | reflexivity].
Qed.

Lemma evidenceMentionsScreenshot_spec (r : Report) :
  evidenceMentionsScreenshot r = true ↔ mentionsScreenshot (evidence r).
Proof.
  unfold evidenceMentionsScreenshot, mentionsScreenshot. now rewrite existsb_exists.
Qed.

(** C4. For every report the gate answers [null] or a list of follow-up
    questions that holds a "screenshot" question exactly when no evidence
    entry contains "screenshot" in any letter case.  The gate is a function
    on reports: it has a value on each and the value depends on nothing
    else. *)
Theorem gate_screenshot_iff (r : Report) :
  checkIfNeedsMoreInfo r = None
  ∨ ∃ info, checkIfNeedsMoreInfo r = Some info
            ∧ (asksScreenshot (requests info) ↔ ¬ mentionsScreenshot (evidence r)).
Proof.
  unfold checkIfNeedsMoreInfo. destruct (needsMoreInfo r); [right | now left].
  eexists; split; [reflexivity |]. simpl.
  rewrite followUps_screenshot, <- evidenceMentionsScreenshot_spec.
  destruct (evidenceMentionsScreenshot r); split; congruence.
Qed.

(** ** Properties of the synthesizer's fallback *)

Lemma append_empty_r (s : string) : s +:+ "" = s.
Proof.
  induction s as [| c s IH]; [reflexivity |].
  change (String c (s +:+ "") = String c s). now rewrite IH.
Qed.

Lemma append_assoc (a b c : string) : (a +:+ b) +:+ c = a +:+ b +:+ c.
Proof.
  induction a as [| x a IH]; [reflexivity |].
  change (String x ((a +:+ b) +:+ c) = String x (a +:+ b +:+ c)). now rewrite IH.
Qed.

Lemma substring0_all (n : nat) (s : string) :
  String.length s ≤ n → substring0 n s = s.
Proof.
  unfold substring0. revert n. induction s as [| c s IH]; intros [| n] Hlen;
    simpl in *; try reflexivity; try lia.
  rewrite IH; [reflexivity | lia].
Qed.

Lemma substring0_length (n : nat) (s : string) :
  n ≤ String.length s → String.length (substring0 n s) = n.
Proof.
  unfold substring0. revert n. induction s as [| c s IH]; intros [| n] Hlen;
    simpl in *; try reflexivity; try lia.
  rewrite IH; [reflexivity | lia].
Qed.

Lemma prefix_append (p t : string) : String.prefix p (p +:+ t) = true.
Proof.
  induction p as [| c p IH].
  - now destruct t.
  - change (String.prefix (String c p) (String c (p +:+ t)) = true). simpl.
    destruct (ascii_dec c c); [exact IH | congruence].
Qed.

(** C3 (as stated, refuted).  With no screenshot supplied the fallback
    evidence still holds an entry that mentions screenshots ("No
    screenshots provided"). *)
Lemma fallback_mentions_screenshots_unsupplied :
  let bugData := mkBugData "Login button does nothing on click" None None None [] in
  ¬ screenshotsMentionedOnlyIfSupplied bugData (generateBugReport NoModel bugData).
Proof.
  intros bugData H. apply H; [| reflexivity].
  exists "No screenshots provided". split; [| reflexivity].
  simpl. tauto.
Qed.

(** C3 (amended).  When the model is absent or its call failed, the report
    has as title the description itself if that has at most 50 code units
    and its first 50 code units followed by "..." otherwise, the fixed
    root-cause sentence, two fixed evidence strings followed by "Provided
    screenshots (analysis unavailable)" when a screenshot was supplied and
    by "No screenshots provided" when none was, and the three fixed next
    steps. *)
Theorem fallback_report_shape (model : ModelOutcome Report) (bugData : BugData) :
  modelUnavailable model →
  let r := generateBugReport model bugData in
  let d := description bugData in
  (String.length d ≤ 50 → title r = d)
  ∧ (50 < String.length d →
       title r = substring0 50 d +:+ "..." ∧ String.length (substring0 50 d) = 50)
  ∧ String.prefix (substring0 50 d) (title r) = true
  ∧ suspected_root_cause r = "Unable to generate detailed analysis without AI integration."
  ∧ evidence r =
      [ "Reported bug description";
        "Available code files (analysis unavailable)";
        match screenshots bugData with
        | [] => "No screenshots provided"
        | _ :: _ => "Provided screenshots (analysis unavailable)"
        end ]
  ∧ next_steps r =
      [ "Review the reported description manually";
        "Check the relevant files identified in the report";
        "Implement proper error handling and validation" ].
Proof.
  intros Hm r d.
  assert (Hr : r = mockReport bugData) by (subst r; now destruct model).
  rewrite Hr. simpl. fold d. unfold fallbackTitle.
  repeat split.
  - intros Hlen. apply Nat.ltb_ge in Hlen. rewrite Hlen, append_empty_r.
    apply substring0_all. now apply Nat.ltb_ge.
  - apply Nat.ltb_lt in H. now rewrite H.
  - apply substring0_length. lia.
  - apply prefix_append.
  - unfold fallbackEvidence. now destruct (screenshots bugData).
Qed.

Lemma fallback_report_shape_witness :
  let bugData :=
    mkBugData "The checkout page freezes after the coupon field loses focus"
      None None None ["https://img.example/1.png"] in
  title (generateBugReport ModelFailed bugData)
  = "The checkout page freezes after the coupon field l...".
Proof.
  intros bugData.
  destruct (fallback_report_shape ModelFailed bugData I) as (_ & H & _).
  destruct H as [H _]; [vm_compute; lia |]. exact H.
Defined.

(** C10.  When the model is absent or its call failed, the evidence of the
    report holds an entry that mentions screenshots whether or not any was
    supplied, the gate answers with a list of follow-up questions, and no
    question of that list is a "screenshot" question. *)
Theorem fallback_never_asks_screenshot (model : ModelOutcome Report) (bugData : BugData) :
  modelUnavailable model →
  let r := generateBugReport model bugData in
  mentionsScreenshot (evidence r)
  ∧ ∃ info, checkIfNeedsMoreInfo r = Some info ∧ ¬ asksScreenshot (requests info).
Proof.
  intros Hm r.
  assert (Hr : r = mockReport bugData) by (subst r; now destruct model).
  rewrite Hr. clear Hr r Hm model.
  assert (Hshot : evidenceMentionsScreenshot (mockReport bugData) = true).
  { unfold evidenceMentionsScreenshot, mockReport, fallbackEvidence. simpl evidence.
    destruct (screenshots bugData); vm_compute; reflexivity. }
  assert (Hneeds : needsMoreInfo (mockReport bugData) = true).
  { unfold needsMoreInfo, hasUncertainty, thinEvidence, vagueEvidence, requestsMoreInfo,
      mockReport, fallbackEvidence.
    simpl evidence; simpl suspected_root_cause; simpl next_steps.
    destruct (screenshots bugData); vm_compute; reflexivity. }
  split.
  - now apply evidenceMentionsScreenshot_spec.
  - unfold checkIfNeedsMoreInfo. rewrite Hneeds. eexists; split; [reflexivity |].
    simpl. rewrite followUps_screenshot. congruence.
Qed.

Lemma fallback_never_asks_screenshot_witness :
  let bugData := mkBugData "Login button does nothing on click" None None None [] in
  ∃ info, checkIfNeedsMoreInfo (generateBugReport NoModel bugData) = Some info
          ∧ ¬ asksScreenshot (requests info).
Proof.
  intros bugData.
  exact (proj2 (fallback_never_asks_screenshot NoModel bugData I)).
Defined.

(** ** Properties of the selector *)

Section SortByKey.
Context {A : Type} (key : A → nat).

Let descending (a b : A) : Z := (Z.of_nat (key b) - Z.of_nat (key a))%Z.
Let notBelow (a b : A) : Prop := key b ≤ key a.

Lemma insertSorted_perm (x : A) (l : list A) :
  insertSorted descending x l ≡ₚ x :: l.
Proof.
  induction l as [| y ys IH]; simpl; [reflexivity |].
  destruct (0 <? descending x y)%Z; [| reflexivity].
  rewrite IH. apply perm_swap.
Qed.

Lemma sort_perm (l : list A) : sort descending l ≡ₚ l.
Proof.
  induction l as [| x xs IH]; simpl; [reflexivity |].
  now rewrite insertSorted_perm, IH.
Qed.

Lemma insertSorted_sorted (x : A) (l : list A) :
  StronglySorted notBelow l → StronglySorted notBelow (insertSorted descending x l).
Proof.
  induction 1 as [| y ys Hs IH Hall]; simpl.
  - repeat constructor.
  - destruct (0 <? descending x y)%Z eqn:Hcmp.
    + apply Z.ltb_lt in Hcmp. constructor; [exact IH |].
      rewrite insertSorted_perm. constructor; [| exact Hall].
      subst descending notBelow. simpl in *. lia.
    + apply Z.ltb_ge in Hcmp.
      assert (Hxy : notBelow x y) by (subst descending notBelow; simpl in *; lia).
      constructor; [now constructor |]. constructor; [exact Hxy |].
      eapply Forall_impl; [exact Hall |].
      intros z Hz. subst notBelow. simpl in *. lia.
Qed.

Lemma sort_sorted (l : list A) : StronglySorted notBelow (sort descending l).
Proof.
  induction l as [| x xs IH]; simpl; [constructor | now apply insertSorted_sorted].
Qed.

(** Stability: the elements of one key keep their order. *)
Lemma filter_insertSorted (k : nat) (x : A) (l : list A) :
  filter (λ a, key a = k) (insertSorted descending x l)
  = filter (λ a, key a = k) (x :: l).
Proof.
  induction l as [| y ys IH]; simpl; [reflexivity |].
  destruct (0 <? descending x y)%Z eqn:Hcmp; [| reflexivity].
  apply Z.ltb_lt in Hcmp. rewrite filter_cons, IH, !filter_cons.
  subst descending. simpl in Hcmp.
  repeat case_decide; try reflexivity; lia.
Qed.

Lemma filter_sort (k : nat) (l : list A) :
  filter (λ a, key a = k) (sort descending l) = filter (λ a, key a = k) l.
Proof.
  induction l as [| x xs IH]; simpl; [reflexivity |].
  now rewrite filter_insertSorted, !filter_cons, IH.
Qed.
End SortByKey.

Lemma insertSorted_map {A B : Type} (f : A → B) (cmp : B → B → Z) (x : A) (l : list A) :
  insertSorted cmp (f x) (map f l) = map f (insertSorted (λ a b, cmp (f a) (f b)) x l).
Proof.
  induction l as [| y ys IH]; simpl; [reflexivity |].
  destruct (0 <? cmp (f x) (f y))%Z; simpl; [now rewrite IH | reflexivity].
Qed.

Lemma sort_map {A B : Type} (f : A → B) (cmp : B → B → Z) (l : list A) :
  sort cmp (map f l) = map f (sort (λ a b, cmp (f a) (f b)) l).
Proof.
  induction l as [| x xs IH]; simpl; [reflexivity |].
  now rewrite IH, insertSorted_map.
Qed.

Lemma count_by_fold (p : string → bool) (keywords : list string) (acc : nat) :
  fold_left (λ sum keyword, sum + (if p keyword then 1 else 0)) keywords acc
  = acc + length (List.filter p keywords).
Proof.
  revert acc. induction keywords as [| kw kws IH]; intros acc; simpl; [lia |].
  rewrite IH. destruct (p kw); simpl; lia.
Qed.

Lemma score_is_overlap (bugReport path : string) :
  score (scoreFile (keywordsOf bugReport) path) = keywordOverlap bugReport path.
Proof.
  unfold scoreFile, keywordOverlap, keywordsOf. simpl. now rewrite count_by_fold.
Qed.

Lemma sort_ext {A : Type} (c1 c2 : A → A → Z) (l : list A) :
  (∀ a b, c1 a b = c2 a b) → sort c1 l = sort c2 l.
Proof.
  intros Hext. induction l as [| x xs IH]; simpl; [reflexivity |].
  rewrite IH. generalize (sort c2 xs) as m.
  induction m as [| y ys IHm]; simpl; [reflexivity |].
  now rewrite Hext, IHm.
Qed.

(** The keyword path is the first ten of the candidates sorted by
    descending overlap. *)
Lemma keywordMatch_sorted_prefix (bugReport : string) (allFiles : list string) :
  keywordMatch bugReport allFiles
  = firstn 10 (sort (λ a b, (Z.of_nat (keywordOverlap bugReport b)
                             - Z.of_nat (keywordOverlap bugReport a))%Z) allFiles).
Proof.
  unfold keywordMatch. cbv zeta. rewrite sort_map.
  rewrite <- firstn_map, map_map.
  rewrite (sort_ext _ (λ a b, (Z.of_nat (keywordOverlap bugReport b)
                               - Z.of_nat (keywordOverlap bugReport a))%Z)).
  - f_equal. rewrite <- (map_id (sort _ allFiles)) at 2.
    apply map_ext. reflexivity.
  - intros a b. unfold byScoreDesc. now rewrite !score_is_overlap.
Qed.

Lemma filter_take_prefix {A : Type} (P : A → Prop) `{!∀ a, Decision (P a)}
    (n : nat) (l : list A) :
  filter P (take n l) `prefix_of` filter P l.
Proof.
  exists (filter P (drop n l)). now rewrite <- filter_app, take_drop.
Qed.

(** C2.  When the model is absent or its call failed, the selector answers
    at most ten paths, all taken from the candidate list (each candidate at
    most as often as it is listed), in order of non-increasing keyword
    overlap with the description, and the paths of one overlap come in the
    order the candidate list has them. *)
Theorem selector_fallback_order (model : ModelOutcome (list string))
    (bugReport : string) (allFiles : list string) :
  modelUnavailable model →
  let out := searchCodebase model bugReport (Some allFiles) in
  length out ≤ 10
  ∧ (∃ rest, out ++ rest ≡ₚ allFiles)
  ∧ (∀ f, In f out → In f allFiles)
  ∧ StronglySorted (λ a b, keywordOverlap bugReport b ≤ keywordOverlap bugReport a) out
  ∧ ∀ k, filter (λ f, keywordOverlap bugReport f = k) out
         `prefix_of` filter (λ f, keywordOverlap bugReport f = k) allFiles.
Proof.
  intros Hm out.
  assert (Hout : out = keywordMatch bugReport allFiles) by (subst out; now destruct model).
  rewrite Hout, keywordMatch_sorted_prefix. clear Hout out Hm model.
  set (sorted := sort _ allFiles).
  assert (Hperm : sorted ≡ₚ allFiles) by apply (sort_perm (keywordOverlap bugReport)).
  assert (Hrest : take 10 sorted ++ drop 10 sorted ≡ₚ allFiles)
    by now rewrite take_drop.
  repeat split.
  - rewrite length_take. lia.
  - eexists. exact Hrest.
  - intros f Hf. apply list_elem_of_In. rewrite <- Hrest.
    apply elem_of_app. left. now apply list_elem_of_In.
  - pose proof (sort_sorted (keywordOverlap bugReport) allFiles) as Hs.
    fold sorted in Hs. rewrite <- (take_drop 10 sorted) in Hs.
    now apply StronglySorted_app_1_l in Hs.
  - intros k.
    rewrite <- (filter_sort (keywordOverlap bugReport) k allFiles).
    apply filter_take_prefix.
Qed.

Lemma selector_fallback_order_witness :
  searchCodebase NoModel "login  button"
    (Some ["/src/a.js"; "/src/login.js"; "/src/button/login.js"; "/x/Button.js"])
  = ["/src/button/login.js"; "/src/login.js"; "/x/Button.js"; "/src/a.js"]
  ∧ length (searchCodebase NoModel "login  button"
      (Some ["/src/a.js"; "/src/login.js"; "/src/button/login.js"; "/x/Button.js"])) ≤ 10.
Proof.
  split; [reflexivity |].
  exact (proj1 (selector_fallback_order NoModel "login  button"
    ["/src/a.js"; "/src/login.js"; "/src/button/login.js"; "/x/Button.js"] I)).
Defined.

(** ** Properties of the renderer *)

Lemma dropUnits_length (n : nat) (s : string) :
  String.length (Regex.dropUnits n s) ≤ String.length s.
Proof.
  revert s. induction n as [| n IH]; intros [| c s]; simpl; try lia.
  specialize (IH s). lia.
Qed.

(** A match never gives back more than it was given. *)
Lemma matchFrom_shrinks (re : list Regex.Piece) (s rest : string) :
  Regex.matchFrom re s = Some rest → String.length rest ≤ String.length s.
Proof.
  revert s rest. induction re as [| piece re IH]; intros s rest H.
  - injection H as <-. lia.
  - destruct piece as [cls | cls | t | alts]; simpl in H.
    + destruct s as [| c s]; [discriminate |].
      destruct (cls c); [| discriminate]. apply IH in H. simpl. lia.
    + revert rest H. induction s as [| c s IHs]; intros rest H; [discriminate |].
      destruct (cls c); [| discriminate].
      match type of H with
      | match ?m with _ => _ end = _ =>
          pose proof (IHs : ∀ r, m = Some r → _) as Hlonger;
          destruct m as [r |]
      end.
      * injection H as <-. specialize (Hlonger r eq_refl). simpl. lia.
      * apply IH in H. simpl. lia.
    + destruct (String.prefix t s); [| discriminate].
      apply IH in H. pose proof (dropUnits_length (String.length t) s). lia.
    + induction alts as [| t alts IHa]; [discriminate |].
      destruct (String.prefix t s).
      * destruct (Regex.matchFrom re (Regex.dropUnits (String.length t) s)) as [r |] eqn:Hm.
        -- injection H as <-. apply IH in Hm.
           pose proof (dropUnits_length (String.length t) s). lia.
        -- now apply IHa.
      * now apply IHa.
Qed.

Lemma matchFrom_One (cls : ascii → bool) (re : list Regex.Piece) (c : ascii) (s : string) :
  Regex.matchFrom (Regex.One cls :: re) (String c s)
  = if cls c then Regex.matchFrom re s else None.
Proof. reflexivity. Qed.

(** The pattern starts with a separator, so its match is not empty. *)
Lemma extractPath_nonempty (item path : string) :
  extractPath item = Some path → path ≠ "".
Proof.
  unfold extractPath. induction item as [| c item IH]; intros H.
  - discriminate.
  - cbn [Regex.exec] in H.
    destruct (Regex.matchFrom filePathPattern (String c item)) as [rest |] eqn:Hm.
    + injection H as <-.
      unfold filePathPattern in Hm. rewrite matchFrom_One in Hm.
      destruct (isSeparator c); [| discriminate].
      apply matchFrom_shrinks in Hm.
      change (String.length (String c item)) with (S (String.length item)).
      replace (S (String.length item) - String.length rest)
        with (S (String.length item - String.length rest)) by lia.
      discriminate.
    + now apply IH.
Qed.

Lemma count_filePaths (ev : list string) (path : string) :
  count_occ string_dec
    (keepTruthy (map extractPath (List.filter mentionsSeparator ev))) path
  = length (List.filter
              (λ item, mentionsSeparator item && bool_decide (extractPath item = Some path))
              ev).
Proof.
  induction ev as [| item ev IH]; [reflexivity |].
  cbn [List.filter]. destruct (mentionsSeparator item); cbn [andb]; [| exact IH].
  cbn [map keepTruthy]. destruct (extractPath item) as [p |] eqn:Hp.
  - assert (Ht : truthy (Some p) = true).
    { apply extractPath_nonempty in Hp. unfold truthy.
      destruct (String.eqb_spec p ""); [contradiction | reflexivity]. }
    rewrite Ht. cbn [count_occ].
    destruct (string_dec p path) as [-> | Hne].
    + rewrite bool_decide_eq_true_2 by reflexivity. cbn [length]. now rewrite IH.
    + rewrite bool_decide_eq_false_2 by congruence. exact IH.
  - rewrite bool_decide_eq_false_2 by congruence. exact IH.
Qed.

(** C5.  The markdown is a function of the title, the root cause, the
    evidence and the next steps of the report alone, so the same report
    always renders to the same text; its Files Involved section is built
    from [filePaths], which lists a path once for every evidence entry it
    is extracted from: no duplicate is dropped. *)
Theorem markdown_pure_keeps_duplicates (r : Report) :
  (∀ r', title r' = title r → suspected_root_cause r' = suspected_root_cause r →
         evidence r' = evidence r → next_steps r' = next_steps r →
         generateMarkdownReport r' = generateMarkdownReport r)
  ∧ (∀ path,
       count_occ string_dec (filePaths r) path
       = length (List.filter
                   (λ item, mentionsSeparator item
                            && bool_decide (extractPath item = Some path))
                   (evidence r)))
  ∧ (∃ before after,
       generateMarkdownReport r = before +:+ filesSection (filePaths r) +:+ after)
  ∧ (filePaths r ≠ [] →
       filesSection (filePaths r)
       = nl +:+ "## Files Involved" +:+ nl
         +:+ join nl (map (λ f, "- `" +:+ f +:+ "`") (filePaths r)) +:+ nl).
Proof.
  repeat split.
  - intros r' Ht Hc He Hn. unfold generateMarkdownReport, filePaths.
    now rewrite Ht, Hc, He, Hn.
  - intros path. apply count_filePaths.
  - unfold generateMarkdownReport.
    exists ("# Bug Report: " +:+ title r +:+ nl +:+ nl +:+
            "## Suspected Root Cause" +:+ nl +:+
            suspected_root_cause r +:+ nl +:+ nl +:+
            "## Technical Evidence" +:+ nl +:+
            join nl (map bullet (evidence r)) +:+ nl +:+ nl +:+
            "## Recommended Next Steps for Developers" +:+ nl +:+
            join nl (map bullet (next_steps r)) +:+ nl +:+ nl).
    exists (nl +:+ nl +:+ "---" +:+ nl +:+ "Report generated by Bug Report AI" +:+ nl).
    now rewrite !append_assoc.
  - intros Hne. unfold filesSection. destruct (filePaths r); [contradiction | reflexivity].
Qed.

Lemma markdown_pure_keeps_duplicates_witness :
  let r := mkReport "Save fails" "The handler drops the payload"
             [ "see /src/api/save.js: line 10"; "again /src/api/save.js: line 42" ]
             [ "fix it" ] None None in
  filePaths r = ["/api/save.js"; "/api/save.js"]
  ∧ count_occ string_dec (filePaths r) "/api/save.js" = 2.
Proof.
  intros r. split; [reflexivity |].
  rewrite (proj1 (proj2 (markdown_pure_keeps_duplicates r)) "/api/save.js").
  reflexivity.
Defined.

(** ** Properties of the report store *)

Lemma setRemote_same (w : World) (rows : gmap string ReportData) :
  supabase w = Some rows → setRemote rows w = w.
Proof. destruct w as [remote memory]. simpl. now intros ->. Qed.

Lemma nonEmpty_true (s : string) : s ≠ "" → nonEmpty s = true.
Proof.
  intros H. unfold nonEmpty. destruct (String.eqb_spec s ""); [contradiction | reflexivity].
Qed.

(** C6 (as stated, refuted).  The empty id is in no store, and confirming
    it is rejected as a missing id, not as an unknown report. *)
Lemma confirm_empty_id_is_required :
  let w := {| supabase := Some ∅; inMemoryReports := ∅ |} in
  absentFromStore w ""
  ∧ confirmBugReport sampleConfirmClock Served Served (λ _, None) w ""
    = (w, Thrown "Report ID is required")
  ∧ snd (confirmBugReport sampleConfirmClock Served Served (λ _, None) w "")
    ≠ Thrown "Bug report not found".
Proof.
  intros w. split; [| split].
  - split; [intros rows [= <-] |]; apply lookup_empty.
  - reflexivity.
  - discriminate.
Qed.

(** C6 (amended).  For every non-empty id that neither the remote table
    nor the in-process map holds, confirm rejects with "Bug report not
    found", whatever the remote store answers, and leaves both stores as
    they were. *)
Theorem confirm_unknown_id (clock : ConfirmClock) (selectReply updateReply : Reply)
    (linearIssue : ReportData → option LinearIssue) (w : World) (reportId : string) :
  reportId ≠ "" →
  absentFromStore w reportId →
  confirmBugReport clock selectReply updateReply linearIssue w reportId
  = (w, Thrown "Bug report not found").
Proof.
  intros Hid [Hremote Hmemory]. unfold confirmBugReport.
  rewrite (nonEmpty_true _ Hid). cbn [negb].
  assert (Hsel : from_option (λ rows, remoteSelect selectReply rows reportId) None (supabase w)
                 = None).
  { destruct (supabase w) as [rows |] eqn:Hs; [| reflexivity]. simpl.
    destruct selectReply; simpl; auto. }
  now rewrite Hsel, Hmemory.
Qed.

Lemma confirm_unknown_id_witness :
  let w := {| supabase := Some {[ "report-1-1" := sampleRow "report-1-1" ]};
              inMemoryReports := {[ "report-2-2" := sampleRow "report-2-2" ]} |} in
  confirmBugReport sampleConfirmClock Served Served (λ _, None) w "report-3-3"
  = (w, Thrown "Bug report not found").
Proof.
  intros w. apply confirm_unknown_id.
  - discriminate.
  - split.
    + intros rows [= <-]. now apply lookup_singleton_ne.
    + now apply lookup_singleton_ne.
Defined.

Lemma prefix_fallback_id (clock : StoreClock) :
  String.prefix "fallback-" ("fallback-" +:+ decimal (fallback_ms clock)) = true.
Proof. apply prefix_append. Qed.

(** C7 (as stated, refuted).  On a [null] report the body raises and the
    handler, which reads the title of the report, raises again: the call
    rejects and nothing is stored. *)
Lemma store_null_report_raises :
  let w := {| supabase := None; inMemoryReports := ∅ |} in
  storeBugReport sampleStoreClock Served w None "# Bug Report" None
    (Some {| email := Some "ana@example.org"; name := None |}) [] []
  = (w, Thrown "Cannot read properties of null (reading 'title')").
Proof. reflexivity. Qed.

(** C7 (amended).  On every input whose report is an object,
    [storeBugReport] returns a record, and that record is kept under its
    id by the remote table or by the in-process map.  Unless the remote
    store is configured and serves the write, the in-process map keeps it.
    When the body raises ([userData] is [null]) the record has an id that
    starts with "fallback-" and the in-process map keeps it. *)
Theorem store_always_persists (clock : StoreClock) (insertReply : Reply) (w : World)
    (reportJson : Report) (reportMarkdown : string) (linearIssue : option LinearIssue)
    (userData : option UserData) (filesAnalyzed shots : list string) :
  ∃ w' data,
    storeBugReport clock insertReply w (Some reportJson) reportMarkdown linearIssue
      userData filesAnalyzed shots = (w', Returned data)
    ∧ persistedIn w' data
    ∧ (supabase w = None ∨ insertReply ≠ Served →
         inMemoryReports w' !! id data = Some data)
    ∧ (userData = None →
         String.prefix "fallback-" (id data) = true
         ∧ inMemoryReports w' !! id data = Some data).
Proof.
  assert (Hmem : ∀ (w0 : World) (d : ReportData),
            persistedIn (setMemory (<[id d := d]> (inMemoryReports w0)) w0) d
            ∧ inMemoryReports (setMemory (<[id d := d]> (inMemoryReports w0)) w0) !! id d
              = Some d).
  { intros w0 d. split; [right |]; apply lookup_insert_eq. }
  unfold storeBugReport, storeBody, storeHandler. destruct userData as [u |].
  - set (reportData := reportDataOf _ _ _ _ _ _ _).
    destruct (supabase w) as [rows |] eqn:Hs.
    + unfold remoteInsert.
      destruct insertReply; [destruct (rows !! id reportData) eqn:Hrow | |].
      * eexists _, _. split; [reflexivity |].
        destruct (Hmem (setRemote rows w) reportData) as [Hp Hl].
        split; [exact Hp |]. split; [intros _; exact Hl | discriminate].
      * eexists _, _. split; [reflexivity |]. split; [| split].
        -- left. eexists. split; [reflexivity |]. apply lookup_insert_eq.
        -- intros [? | ?]; congruence.
        -- discriminate.
      * eexists _, _. split; [reflexivity |].
        destruct (Hmem (setRemote rows w) reportData) as [Hp Hl].
        split; [exact Hp |]. split; [intros _; exact Hl | discriminate].
      * eexists _, _. split; [reflexivity |].
        destruct (Hmem (setRemote rows w) reportData) as [Hp Hl].
        split; [exact Hp |]. split; [intros _; exact Hl | discriminate].
    + eexists _, _. split; [reflexivity |].
      destruct (Hmem w reportData) as [Hp Hl].
      split; [exact Hp |]. split; [intros _; exact Hl | discriminate].
  - eexists _, _. split; [reflexivity |].
    destruct (Hmem w (fallbackDataOf clock reportJson reportMarkdown filesAnalyzed shots))
      as [Hp Hl].
    split; [exact Hp |]. split; [intros _; exact Hl |].
    intros _. split; [apply prefix_fallback_id | exact Hl].
Qed.

(** What [submitAdditionalInfo] does when the remote store gives no
    record and the in-process map has one. *)
Lemma submit_in_memory (clock : SubmitClock) (selectReply updateReply : Reply)
    (w : World) (reportId : string) (responses : gmap string string) (d : ReportData) :
  reportId ≠ "" → responses ≠ ∅ →
  from_option (λ rows, remoteSelect selectReply rows reportId) None (supabase w) = None →
  inMemoryReports w !! reportId = Some d →
  submitAdditionalInfo clock selectReply updateReply w reportId responses
  = ({| supabase := supabase w;
        inMemoryReports :=
          <[reportId := infoFields (withInfo responses (memory_submitted_iso clock)
                                             (content_json d))
                                   (memory_info_updated_iso clock) d]>
            (inMemoryReports w) |},
     Returned {| message := "Additional information submitted successfully";
                 submitted_id := id d |}).
Proof.
  intros Hid Hresp Hsel Hmem. unfold submitAdditionalInfo.
  rewrite (nonEmpty_true _ Hid), bool_decide_eq_false_2 by exact Hresp. cbn [negb].
  destruct (supabase w) as [rows |] eqn:Hs; simpl in Hsel.
  - rewrite Hsel, Hmem. unfold setMemory. now rewrite Hs.
  - rewrite Hmem. unfold setMemory. now rewrite Hs.
Qed.

(** What it does when the remote store serves the lookup, [served] telling
    whether it serves the update too. *)
Lemma submit_remote_found (clock : SubmitClock) (updateReply : Reply)
    (w : World) (reportId : string) (responses : gmap string string)
    (rows : gmap string ReportData) (d : ReportData) :
  reportId ≠ "" → responses ≠ ∅ →
  supabase w = Some rows → rows !! reportId = Some d →
  submitAdditionalInfo clock Served updateReply w reportId responses
  = match updateReply with
    | Served =>
        ({| supabase :=
              Some (<[reportId := infoFields (withInfo responses (remote_submitted_iso clock)
                                                       (content_json d))
                                             (remote_info_updated_iso clock) d]> rows);
            inMemoryReports := inMemoryReports w |},
         Returned {| message := "Additional information submitted successfully";
                     submitted_id := id d |})
    | Refused | Broken =>
        ({| supabase := Some rows;
            inMemoryReports :=
              <[reportId := infoFields (withInfo responses (memory_submitted_iso clock)
                                                 (content_json d))
                                       (memory_info_updated_iso clock) d]>
                (inMemoryReports w) |},
         Returned {| message := "Additional information submitted successfully";
                     submitted_id := id d |})
    end.
Proof.
  intros Hid Hresp Hs Hrow. unfold submitAdditionalInfo.
  rewrite (nonEmpty_true _ Hid), bool_decide_eq_false_2 by exact Hresp. cbn [negb].
  rewrite Hs. cbn [remoteSelect]. rewrite Hrow.
  destruct updateReply; cbn [remoteUpdate]; [rewrite Hrow |..];
    unfold setMemory, setRemote; cbn [supabase inMemoryReports]; reflexivity.
Qed.


Lemma infoFields_onlyInfoChanged (responses : gmap string string) (t t' : string)
    (d : ReportData) :
  onlyInfoChanged d (infoFields (withInfo responses t (content_json d)) t' d).
Proof. unfold onlyInfoChanged. repeat split. Qed.


Lemma confirm_writes (clock : ConfirmClock) (selectReply updateReply : Reply)
    (linearIssue : ReportData → option LinearIssue) (w w' : World) (reportId : string)
    (c : Confirmation) :
  confirmBugReport clock selectReply updateReply linearIssue w reportId = (w', Returned c) →
  w' = w ∨ ∃ d', status d' = Some "confirmed" ∧ writesRecord w w' reportId d'.
Proof.
  unfold confirmBugReport. destruct (negb (nonEmpty reportId)); [discriminate |].
  match goal with |- context [match ?found with Some _ => _ | None => (w, Thrown _) end] =>
    destruct found as [reportData |]; [| discriminate]
  end.
  destruct (supabase w) as [rows |] eqn:Hs.
  - unfold remoteUpdate.
    assert (Hsame : setRemote rows w = w) by now apply setRemote_same.
    destruct updateReply; [destruct (rows !! reportId) as [row |] |..];
      cbn [setRemote setMemory inMemoryReports supabase];
      try (destruct (inMemoryReports w !! reportId) as [report |]);
      intros [= <- _]; rewrite <- ?Hs;
      first
        [ left; exact Hsame
        | right; eexists; split;
          [| first [ left; eexists; split; [exact Hs | reflexivity]
                   | right; rewrite Hs; reflexivity ] ];
          reflexivity ].
  - destruct (inMemoryReports w !! reportId) as [report |]; intros [= <- _].
    + right. eexists. split; [| right; unfold setMemory; rewrite Hs; reflexivity].
      reflexivity.
    + now left.
Qed.

Lemma submit_writes (clock : SubmitClock) (selectReply updateReply : Reply)
    (w w' : World) (reportId : string) (responses : gmap string string)
    (out : Submission) :
  submitAdditionalInfo clock selectReply updateReply w reportId responses
  = (w', Returned out) →
  ∃ d d' t,
    readsRecord w reportId d ∧ writesRecord w w' reportId d'
    ∧ onlyInfoChanged d d'
    ∧ additional_info (content_json d')
      = Some (mergeInfo (additional_info (content_json d)) responses t).
Proof.
  intros H.
  destruct (decide (reportId = "")) as [-> | Hid].
  { unfold submitAdditionalInfo in H. cbn [nonEmpty String.eqb negb] in H.
    discriminate H. }
  destruct (decide (responses = ∅)) as [-> | Hresp].
  { unfold submitAdditionalInfo in H.
    rewrite (nonEmpty_true _ Hid), bool_decide_eq_true_2 in H by reflexivity.
    discriminate H. }
  destruct (from_option (λ rows, remoteSelect selectReply rows reportId) None (supabase w))
    as [d |] eqn:Hsel.
  - destruct (supabase w) as [rows |] eqn:Hs; [| discriminate Hsel]. simpl in Hsel.
    destruct selectReply; try discriminate Hsel. simpl in Hsel.
    rewrite (submit_remote_found _ _ _ _ _ rows d Hid Hresp Hs Hsel) in H.
    destruct updateReply; injection H as <- _;
      eexists d, _, _; (split; [left; eauto |]);
      (split; [| split; [apply infoFields_onlyInfoChanged | reflexivity]]).
    + left. eauto.
    + right. now rewrite Hs.
    + right. now rewrite Hs.
  - destruct (inMemoryReports w !! reportId) as [d |] eqn:Hmem.
    + rewrite (submit_in_memory _ _ _ _ _ _ d Hid Hresp Hsel Hmem) in H.
      injection H as <- _. eexists d, _, _. split; [now right |].
      split; [now right |]. split; [apply infoFields_onlyInfoChanged | reflexivity].
    + exfalso. revert H. unfold submitAdditionalInfo.
      rewrite (nonEmpty_true _ Hid), bool_decide_eq_false_2 by exact Hresp. cbn [negb].
      destruct (supabase w) as [rows |]; simpl in Hsel;
        rewrite ?Hsel, Hmem; discriminate.
Qed.



Lemma mergeInfo_twice (old : option (gmap string string))
    (r1 r2 : gmap string string) (t1 t2 : string) :
  holdsBoth r1 r2 (mergeInfo (Some (mergeInfo old r1 t1)) r2 t2).
Proof.
  unfold holdsBoth, mergeInfo. unfold default at 1. cbn [from_option Datatypes.id]. split; [| split].
  - intros k Hk. destruct (decide ("submitted_at" = k)) as [<- | Hne].
    + rewrite lookup_insert_eq. eauto.
    + rewrite lookup_insert_ne by exact Hne.
      destruct (r2 !! k) as [v |] eqn:H2.
      * erewrite lookup_union_Some_l by exact H2. eauto.
      * rewrite lookup_union_r by exact H2. rewrite lookup_insert_ne by exact Hne.
        destruct Hk as [[v H1] | [v Hv]]; [| discriminate].
        erewrite lookup_union_Some_l by exact H1. eauto.
  - intros k v Hne H2. rewrite lookup_insert_ne by congruence.
    now apply lookup_union_Some_l.
  - intros k v Hne H2 H1. rewrite lookup_insert_ne by congruence.
    rewrite lookup_union_r by exact H2. rewrite lookup_insert_ne by congruence.
    now apply lookup_union_Some_l.
Qed.

(** C9 (as stated, refuted).  The report is stored remotely.  The first
    submission finds it there but its update is refused, so the answers go
    to a copy in the in-process map; the second is served by the remote
    store, which never saw the first.  The record read back has [b] and
    not [a], and the in-process copy has [a] and not [b]. *)
Lemma submissions_split_between_stores :
  let w := {| supabase := Some {[ "report-1-1" := sampleRow "report-1-1" ]};
              inMemoryReports := ∅ |} in
  ∃ w1 w2 o1 o2 d d' m m',
    submitAdditionalInfo (sampleSubmitClock "10") Served Refused w "report-1-1"
      {[ "a" := "1" ]} = (w1, Returned o1)
    ∧ submitAdditionalInfo (sampleSubmitClock "11") Served Served w1 "report-1-1"
        {[ "b" := "2" ]} = (w2, Returned o2)
    ∧ getBugReport Served w2 "report-1-1" = Returned d
    ∧ additional_info (content_json d) = Some m
    ∧ m !! "a" = None ∧ m !! "b" = Some "2"
    ∧ inMemoryReports w2 !! "report-1-1" = Some d'
    ∧ additional_info (content_json d') = Some m'
    ∧ m' !! "a" = Some "1" ∧ m' !! "b" = None.
Proof.
  intros w.
  set (rid := "report-1-1"). set (row := sampleRow rid).
  pose proof (submit_remote_found (sampleSubmitClock "10") Refused w rid {[ "a" := "1" ]}
                {[ rid := row ]} row ltac:(discriminate) (singleton_non_empty _ _)
                eq_refl (lookup_singleton_eq _ _)) as H1.
  cbv match in H1.
  match type of H1 with _ = (?x, _) => set (w1 := x) in * end.
  pose proof (submit_remote_found (sampleSubmitClock "11") Served w1 rid {[ "b" := "2" ]}
                {[ rid := row ]} row ltac:(discriminate) (singleton_non_empty _ _)
                eq_refl (lookup_singleton_eq _ _)) as H2.
  cbv match in H2.
  match type of H2 with _ = (?x, _) => set (w2 := x) in * end.
  exists w1, w2. do 2 eexists.
  exists (infoFields (withInfo {[ "b" := "2" ]}
                        (remote_submitted_iso (sampleSubmitClock "11")) (content_json row))
            (remote_info_updated_iso (sampleSubmitClock "11")) row).
  exists (infoFields (withInfo {[ "a" := "1" ]}
                        (memory_submitted_iso (sampleSubmitClock "10")) (content_json row))
            (memory_info_updated_iso (sampleSubmitClock "10")) row).
  do 2 eexists.
  split; [exact H1 |]. split; [exact H2 |].
  split.
  { unfold getBugReport. cbn [nonEmpty String.eqb negb rid].
    subst w2. cbn [supabase from_option remoteSelect].
    now rewrite lookup_insert_eq. }
  split; [reflexivity |].
  split; [vm_compute; reflexivity |].
  split; [vm_compute; reflexivity |].
  split; [subst w2 w1; cbn [inMemoryReports]; apply lookup_insert_eq |].
  split; [reflexivity |].
  split; vm_compute; reflexivity.
Qed.

Lemma get_from_memory (selectReply : Reply) (w : World) (reportId : string) (d : ReportData) :
  reportId ≠ "" →
  from_option (λ rows, remoteSelect selectReply rows reportId) None (supabase w) = None →
  inMemoryReports w !! reportId = Some d →
  getBugReport selectReply w reportId = Returned d.
Proof.
  intros Hid Hsel Hmem. unfold getBugReport.
  now rewrite (nonEmpty_true _ Hid), Hsel, Hmem.
Qed.

Lemma get_from_remote (w : World) (reportId : string)
    (rows : gmap string ReportData) (d : ReportData) :
  reportId ≠ "" → supabase w = Some rows → rows !! reportId = Some d →
  getBugReport Served w reportId = Returned d.
Proof.
  intros Hid Hs Hrow. unfold getBugReport.
  rewrite (nonEmpty_true _ Hid), Hs. cbn [negb from_option remoteSelect].
  now rewrite Hrow.
Qed.

(** C9 (amended).  When both submissions work on the same copy of a stored
    report (the in-process one, or the remote one with every call served),
    both succeed and the record read back afterwards has an additional
    information that holds every key of the first and of the second
    responses, once each, with the value of the second submission for a key
    of both (the key [submitted_at] holds the submission time). *)
Theorem info_submissions_accumulate (clock1 clock2 : SubmitClock)
    (select1 update1 select2 update2 : Reply) (w : World) (reportId : string)
    (r1 r2 : gmap string string) :
  reportId ≠ "" → r1 ≠ ∅ → r2 ≠ ∅ →
  sameCopyBothTimes w reportId select1 update1 select2 update2 →
  ∃ w1 w2 o1 o2 d m,
    submitAdditionalInfo clock1 select1 update1 w reportId r1 = (w1, Returned o1)
    ∧ submitAdditionalInfo clock2 select2 update2 w1 reportId r2 = (w2, Returned o2)
    ∧ getBugReport select2 w2 reportId = Returned d
    ∧ additional_info (content_json d) = Some m
    ∧ holdsBoth r1 r2 m.
Proof.
  intros Hid Hr1 Hr2 [[[d0 Hmem] Hnone] | (rows & Hs & [d0 Hrow] & -> & -> & -> & ->)].
  - assert (Hsel : ∀ sel, (sel = select1 ∨ sel = select2) →
              from_option (λ rows, remoteSelect sel rows reportId) None (supabase w) = None).
    { intros sel Hsel. destruct (supabase w) as [rows |] eqn:Hs; [| reflexivity].
      destruct (Hnone rows eq_refl) as [Hn1 Hn2]. simpl.
      destruct Hsel as [-> | ->]; assumption. }
    pose proof (submit_in_memory clock1 select1 update1 w reportId r1 d0 Hid Hr1
                  (Hsel _ (or_introl eq_refl)) Hmem) as H1.
    match type of H1 with _ = (?x, _) => set (w1 := x) in * end.
    set (d1 := infoFields (withInfo r1 (memory_submitted_iso clock1) (content_json d0))
                 (memory_info_updated_iso clock1) d0) in *.
    assert (Hmem1 : inMemoryReports w1 !! reportId = Some d1) by apply lookup_insert_eq.
    pose proof (submit_in_memory clock2 select2 update2 w1 reportId r2 d1 Hid Hr2
                  (Hsel _ (or_intror eq_refl)) Hmem1) as H2.
    match type of H2 with _ = (?x, _) => set (w2 := x) in * end.
    exists w1, w2. do 4 eexists.
    split; [exact H1 |]. split; [exact H2 |].
    split.
    { apply get_from_memory;
        [exact Hid | exact (Hsel _ (or_intror eq_refl)) | apply lookup_insert_eq]. }
    split; [reflexivity | apply mergeInfo_twice].
  - pose proof (submit_remote_found clock1 Served w reportId r1 rows d0 Hid Hr1 Hs Hrow)
      as H1.
    cbv match in H1.
    match type of H1 with _ = (?x, _) => set (w1 := x) in * end.
    set (d1 := infoFields (withInfo r1 (remote_submitted_iso clock1) (content_json d0))
                 (remote_info_updated_iso clock1) d0) in *.
    pose proof (submit_remote_found clock2 Served w1 reportId r2 _ d1 Hid Hr2 eq_refl
                  (lookup_insert_eq _ _ _)) as H2.
    cbv match in H2.
    match type of H2 with _ = (?x, _) => set (w2 := x) in * end.
    exists w1, w2. do 4 eexists.
    split; [exact H1 |]. split; [exact H2 |].
    split.
    { eapply get_from_remote; [exact Hid | reflexivity | apply lookup_insert_eq]. }
    split; [reflexivity | apply mergeInfo_twice].
Qed.

Lemma info_submissions_accumulate_witness :
  let w := {| supabase := None;
              inMemoryReports := {[ "report-1-1" := sampleRow "report-1-1" ]} |} in
  ∃ w1 w2 o1 o2 d m,
    submitAdditionalInfo (sampleSubmitClock "10") Served Served w "report-1-1"
      {[ "a" := "1" ]} = (w1, Returned o1)
    ∧ submitAdditionalInfo (sampleSubmitClock "11") Served Served w1 "report-1-1"
        {[ "b" := "2" ]} = (w2, Returned o2)
    ∧ getBugReport Served w2 "report-1-1" = Returned d
    ∧ additional_info (content_json d) = Some m
    ∧ holdsBoth {[ "a" := "1" ]} {[ "b" := "2" ]} m.
Proof.
  intros w.
  apply info_submissions_accumulate.
  - discriminate.
  - apply singleton_non_empty.
  - apply singleton_non_empty.
  - left. split.
    + exists (sampleRow "report-1-1"). apply lookup_singleton_eq.
    + intros rows Hrows. discriminate Hrows.
Defined.

(** ** Worked examples *)

(** The gate on a report with an uncertain root cause and three specific
    evidence entries. *)
Example gate_uncertain_environment :
  let r := {| title := "Login fails";
              suspected_root_cause := "It might be unclear, possibly an environment issue";
              evidence := [ "src/auth/login.js:42 returns before the request is sent";
                            "src/auth/session.js:10 reads a stale token";
                            "src/ui/LoginForm.jsx:88 swallows the rejection" ];
              next_steps := [ "Add a test" ];
              report_created_at := None;
              additional_info := None |} in
  (λ info, (confidence info, map type (requests info))) <$> checkIfNeedsMoreInfo r
  = Some ("low", [ "reproduction_steps"; "environment"; "screenshot" ]).
Proof. reflexivity. Qed.

(** A report that passes the gate. *)
Example gate_sufficient_report :
  checkIfNeedsMoreInfo
    {| title := "Save fails";
       suspected_root_cause := "The handler drops the payload before validation";
       evidence := [ "src/api/save.js:10 returns before validate()";
                     "src/api/form.js:3 passes an empty body" ];
       next_steps := [ "Move the early return below the validation" ];
       report_created_at := None;
       additional_info := None |}
  = None.
Proof. reflexivity. Qed.

(** The separator pieces of [split(/\s+/)]: leading and trailing
    separators give empty keywords. *)
Example split_leading_trailing :
  splitSpaces " login  button " = [ ""; "login"; "button"; "" ].
Proof. reflexivity. Qed.

Example split_empty : splitSpaces "" = [ "" ].
Proof. reflexivity. Qed.

(** The extension alternatives are tried in order, so [.jsx] is cut to
    [.js], and the match starts at the last separator but one. *)
Example extractPath_jsx :
  extractPath "see /src/app/main.jsx: line 3" = Some "/app/main.js".
Proof. reflexivity. Qed.

Example extractPath_none : extractPath "/a/b.txt" = None.
Proof. reflexivity. Qed.

(** A [null] user makes the body raise; the handler stores the minimal
    record. *)
Example store_null_user :
  ∃ w' data,
    storeBugReport sampleStoreClock Served {| supabase := None; inMemoryReports := ∅ |}
      (Some sampleReport) "# Bug Report" None None [] []
    = (w', Returned data)
    ∧ id data = "fallback-1714557600001"
    ∧ inMemoryReports w' !! "fallback-1714557600001" = Some data.
Proof.
  eexists _, _. split; [reflexivity |]. split; [reflexivity |].
  apply lookup_insert_eq.
Qed.

(** ** Further properties of the gate *)

Lemma types_pushIf (c : bool) (q : Request) (l : list Request) :
  map type (pushIf c q l) = map type l ++ (if c then [type q] else []).
Proof. destruct c; simpl; [apply map_app | now rewrite app_nil_r]. Qed.

Lemma followUps_in_order (r : Report) :
  map type (followUps r) `sublist_of` requestTypes.
Proof.
  unfold followUps. cbv zeta. rewrite !types_pushIf.
  repeat match goal with |- context [if ?c then _ else _] => destruct c end;
    cbv;
    repeat first [apply sublist_nil | apply sublist_skip | apply sublist_cons].
Qed.

(** X1.  The follow-up questions of the gate come in the fixed order
    reproduction steps, environment, version, user context, data context,
    screenshot, each kind at most once: at most six questions. *)
Theorem gate_requests_in_fixed_order (r : Report) (info : MoreInfo) :
  checkIfNeedsMoreInfo r = Some info →
  map type (requests info) `sublist_of` requestTypes
  ∧ NoDup (map type (requests info))
  ∧ length (requests info) ≤ 6.
Proof.
  unfold checkIfNeedsMoreInfo. destruct (needsMoreInfo r); [| discriminate].
  intros [= <-]. cbn [requests].
  pose proof (followUps_in_order r) as Hsub. split; [exact Hsub |]. split.
  - eapply sublist_NoDup; [| exact Hsub].
    apply (bool_decide_unpack _). vm_compute. reflexivity.
  - rewrite <- (length_map type). apply sublist_length in Hsub. exact Hsub.
Qed.

Lemma gate_requests_in_fixed_order_witness :
  let r := {| title := "User cannot save";
              suspected_root_cause := "Unknown: a data version clash in some environment";
              evidence := [ "nothing specific" ];
              next_steps := [ "Try to reproduce" ];
              report_created_at := None; additional_info := None |} in
  ∃ info, checkIfNeedsMoreInfo r = Some info ∧ length (requests info) ≤ 6.
Proof.
  intros r. eexists. split; [reflexivity |].
  exact (proj2 (proj2 (gate_requests_in_fixed_order r _ eq_refl))).
Defined.

Lemma followUps_asks_environment (r : Report) :
  asksFor "environment" (followUps r)
  ↔ (includes (toLowerCase (suspected_root_cause r)) "environment"
     || vagueEvidence r || stepMentions "environment" r) = true.
Proof.
  unfold asksFor, followUps. cbv zeta. split.
  - intros (q & Hin & Hty).
    repeat (apply in_pushIf in Hin;
            destruct Hin as [Hin | [Hc ->]]; [| try discriminate Hty]);
      [destruct Hin | exact Hc].
  - intros H. exists q_environment. split; [| reflexivity].
    do 4 (apply in_pushIf; left). apply in_pushIf. right. now split.
Qed.

Lemma followUps_asks_steps (r : Report) :
  asksFor "reproduction_steps" (followUps r)
  ↔ (includes (toLowerCase (suspected_root_cause r)) "reproduce"
     || negb (includes (toLowerCase (suspected_root_cause r)) "steps to")
     || stepMentions "reproduce" r) = true.
Proof.
  unfold asksFor, followUps. cbv zeta. split.
  - intros (q & Hin & Hty).
    repeat (apply in_pushIf in Hin;
            destruct Hin as [Hin | [Hc ->]]; [| try discriminate Hty]);
      [destruct Hin | exact Hc].
  - intros H. exists q_reproduction_steps. split; [| reflexivity].
    do 5 (apply in_pushIf; left). apply in_pushIf. right. now split.
Qed.

(** X2.  When the gate asks for more, a vague evidence entry (in
    particular the confidence "medium-low") brings the environment
    question, and a root cause that does not contain "steps to" brings the
    reproduction-steps question. *)
Theorem gate_environment_and_steps (r : Report) (info : MoreInfo) :
  checkIfNeedsMoreInfo r = Some info →
  (someVagueEvidence r → asksFor "environment" (requests info))
  ∧ (confidence info = "medium-low" → asksFor "environment" (requests info))
  ∧ (includes (toLowerCase (suspected_root_cause r)) "steps to" = false →
       asksFor "reproduction_steps" (requests info)).
Proof.
  unfold checkIfNeedsMoreInfo. destruct (needsMoreInfo r); [| discriminate].
  intros [= <-]. cbn [requests confidence].
  assert (Hvague : vagueEvidence r = true → asksFor "environment" (followUps r)).
  { intros Hv. apply followUps_asks_environment. rewrite Hv.
    now rewrite orb_true_r. }
  split; [| split].
  - intros Hv. apply Hvague. now apply vagueEvidence_spec.
  - destruct (hasUncertainty r); [discriminate |].
    destruct (vagueEvidence r); [intros _; now apply Hvague | discriminate].
  - intros Hsteps. apply followUps_asks_steps. rewrite Hsteps.
    now rewrite orb_true_r.
Qed.

Lemma gate_environment_and_steps_witness :
  ∃ info, checkIfNeedsMoreInfo (mockReport (mkBugData "Save fails" None None None []))
          = Some info
          ∧ asksFor "environment" (requests info).
Proof.
  eexists. split; [reflexivity |].
  refine (proj1 (proj2 (gate_environment_and_steps
                          (mockReport (mkBugData "Save fails" None None None [])) _ eq_refl)) _).
  reflexivity.
Defined.

(** X3.  A report without evidence always gets a follow-up request: it
    holds the screenshot question, its confidence is "low" when the root
    cause is uncertain and "medium" otherwise, never "medium-low". *)
Theorem gate_empty_evidence (r : Report) :
  evidence r = [] →
  ∃ info, checkIfNeedsMoreInfo r = Some info
          ∧ asksFor "screenshot" (requests info)
          ∧ confidence info = (if hasUncertainty r then "low" else "medium").
Proof.
  intros He.
  assert (Hthin : thinEvidence r = true) by (unfold thinEvidence; now rewrite He).
  assert (Hvague : vagueEvidence r = false) by (unfold vagueEvidence; now rewrite He).
  unfold checkIfNeedsMoreInfo, needsMoreInfo.
  rewrite Hthin, Hvague, orb_true_r. cbn [orb].
  eexists. split; [reflexivity |]. cbn [requests confidence]. split; [| reflexivity].
  apply followUps_screenshot. unfold evidenceMentionsScreenshot. now rewrite He.
Qed.

Lemma gate_empty_evidence_witness :
  ∃ info,
    checkIfNeedsMoreInfo
      {| title := "Save fails"; suspected_root_cause := "The handler drops the payload";
         evidence := []; next_steps := []; report_created_at := None;
         additional_info := None |} = Some info
    ∧ confidence info = "medium".
Proof.
  destruct (gate_empty_evidence
    {| title := "Save fails"; suspected_root_cause := "The handler drops the payload";
       evidence := []; next_steps := []; report_created_at := None;
       additional_info := None |} eq_refl) as (info & Hgate & _ & Hconf).
  exists info. split; [exact Hgate | exact Hconf].
Defined.

Lemma lowerUnit_idempotent (c : ascii) : lowerUnit (lowerUnit c) = lowerUnit c.
Proof. destruct c as [[] [] [] [] [] [] [] []]; reflexivity. Qed.

Lemma toLowerCase_idempotent (s : string) : toLowerCase (toLowerCase s) = toLowerCase s.
Proof.
  induction s as [| c s IH]; [reflexivity |].
  cbn [toLowerCase]. now rewrite lowerUnit_idempotent, IH.
Qed.

Lemma existsb_map_lower (f : string → bool) (l : list string) :
  (∀ s, f (toLowerCase s) = f s) → existsb f (map toLowerCase l) = existsb f l.
Proof.
  intros Hf. induction l as [| s l IH]; [reflexivity |].
  cbn [map existsb]. now rewrite Hf, IH.
Qed.

Lemma stepMentions_lowerCased (word : string) (r : Report) :
  stepMentions word (lowerCased r) = stepMentions word r.
Proof.
  unfold stepMentions. cbn [next_steps lowerCased].
  apply (existsb_map_lower (λ step, includes (toLowerCase step) word)).
  intros s. now rewrite toLowerCase_idempotent.
Qed.

(** X4.  The gate reads the title, the root cause and the next steps in
    lower case only: writing them in lower case changes nothing in its
    answer. *)
Theorem gate_ignores_letter_case (r : Report) :
  checkIfNeedsMoreInfo (lowerCased r) = checkIfNeedsMoreInfo r.
Proof.
  assert (Hu : hasUncertainty (lowerCased r) = hasUncertainty r).
  { unfold hasUncertainty. cbn [suspected_root_cause lowerCased].
    now rewrite toLowerCase_idempotent. }
  assert (Hv : vagueEvidence (lowerCased r) = vagueEvidence r) by reflexivity.
  assert (Hq : requestsMoreInfo (lowerCased r) = requestsMoreInfo r).
  { unfold requestsMoreInfo. cbn [next_steps lowerCased].
    apply existsb_map_lower. intros s. unfold stepAsksMore.
    now rewrite toLowerCase_idempotent. }
  assert (Hf : followUps (lowerCased r) = followUps r).
  { unfold followUps. cbv zeta.
    rewrite !stepMentions_lowerCased, Hv.
    unfold evidenceMentionsScreenshot.
    cbn [title suspected_root_cause evidence lowerCased].
    now rewrite !toLowerCase_idempotent. }
  unfold checkIfNeedsMoreInfo, needsMoreInfo.
  rewrite Hu, Hv, Hq, Hf. reflexivity.
Qed.

(** ** Further properties of the selector *)

Lemma keywordMatch_length (bugReport : string) (allFiles : list string) :
  length (keywordMatch bugReport allFiles) ≤ 10.
Proof. rewrite keywordMatch_sorted_prefix, length_take. lia. Qed.

(** X5.  Whatever the model and the file listing do, the selector answers
    at most ten paths; it answers none when the listing fails, and on the
    model path it passes the first ten paths of the model on without
    looking at the candidate list. *)
Theorem selector_bounds (model : ModelOutcome (list string)) (bugReport : string)
    (listing : option (list string)) :
  length (searchCodebase model bugReport listing) ≤ 10
  ∧ searchCodebase model bugReport None = []
  ∧ ∀ files allFiles,
      searchCodebase (ModelReturned files) bugReport (Some allFiles) = take 10 files.
Proof.
  split; [| split; [reflexivity | reflexivity]].
  destruct listing as [allFiles |]; [| simpl; lia].
  destruct model as [| | files]; simpl;
    [apply keywordMatch_length | apply keywordMatch_length |].
  rewrite length_take. lia.
Qed.

(** X6.  With at most ten candidates the keyword path drops none: its
    answer is a rearrangement of the candidate list. *)
Theorem selector_keeps_short_lists (model : ModelOutcome (list string))
    (bugReport : string) (allFiles : list string) :
  modelUnavailable model →
  length allFiles ≤ 10 →
  searchCodebase model bugReport (Some allFiles) ≡ₚ allFiles.
Proof.
  intros Hm Hlen.
  assert (Hout : searchCodebase model bugReport (Some allFiles)
                 = keywordMatch bugReport allFiles) by now destruct model.
  rewrite Hout, keywordMatch_sorted_prefix.
  pose proof (sort_perm (keywordOverlap bugReport) allFiles) as Hperm.
  rewrite take_ge; [exact Hperm |].
  apply Permutation_length in Hperm. lia.
Qed.

Lemma selector_keeps_short_lists_witness :
  searchCodebase NoModel "button"
    (Some ["/src/a.js"; "/src/login.js"; "/x/Button.js"])
  ≡ₚ ["/src/a.js"; "/src/login.js"; "/x/Button.js"].
Proof.
  apply selector_keeps_short_lists; [exact I | simpl; lia].
Defined.

Lemma filter_all_true {A : Type} (P : A → Prop) `{!∀ a, Decision (P a)} (l : list A) :
  Forall P l → filter P l = l.
Proof.
  induction 1 as [| x l Hx _ IH]; [reflexivity |].
  rewrite filter_cons, decide_True by exact Hx. now rewrite IH.
Qed.

Lemma sort_constant_key {A : Type} (key : A → nat) (k : nat) (l : list A) :
  Forall (λ a, key a = k) l →
  sort (λ a b, (Z.of_nat (key b) - Z.of_nat (key a))%Z) l = l.
Proof.
  intros Hall.
  rewrite <- (filter_all_true (λ a, key a = k) l Hall) at 2.
  rewrite <- (filter_sort key k l).
  symmetry. apply filter_all_true.
  rewrite (sort_perm key l). exact Hall.
Qed.

(** X7.  When every candidate has the same keyword overlap (as for a
    description made of blanks, whose keywords are empty and occur in every
    path), the keyword path answers the first ten candidates in the order
    of the listing. *)
Theorem selector_equal_scores (model : ModelOutcome (list string))
    (bugReport : string) (allFiles : list string) :
  modelUnavailable model →
  (∀ f g, In f allFiles → In g allFiles →
          keywordOverlap bugReport f = keywordOverlap bugReport g) →
  searchCodebase model bugReport (Some allFiles) = take 10 allFiles.
Proof.
  intros Hm Heq.
  assert (Hout : searchCodebase model bugReport (Some allFiles)
                 = keywordMatch bugReport allFiles) by now destruct model.
  rewrite Hout, keywordMatch_sorted_prefix. f_equal.
  destruct allFiles as [| f0 rest]; [reflexivity |].
  apply (sort_constant_key (keywordOverlap bugReport) (keywordOverlap bugReport f0)).
  apply Forall_forall. intros g Hg. apply Heq; [| now left].
  now apply list_elem_of_In.
Qed.

Lemma selector_equal_scores_witness :
  searchCodebase NoModel " "
    (Some ["/src/z.js"; "/src/a.js"; "/src/m.js"])
  = ["/src/z.js"; "/src/a.js"; "/src/m.js"].
Proof.
  apply (selector_equal_scores NoModel " " ["/src/z.js"; "/src/a.js"; "/src/m.js"] I).
  intros f g Hf Hg. simpl in Hf, Hg.
  destruct Hf as [<- | [<- | [<- | []]]], Hg as [<- | [<- | [<- | []]]]; reflexivity.
Defined.

(** X8.  On the keyword path the first path of the answer has the largest
    keyword overlap of all candidates. *)
Theorem selector_best_first (model : ModelOutcome (list string))
    (bugReport : string) (allFiles : list string) (best : string) (others : list string) :
  modelUnavailable model →
  searchCodebase model bugReport (Some allFiles) = best :: others →
  ∀ g, In g allFiles → keywordOverlap bugReport g ≤ keywordOverlap bugReport best.
Proof.
  intros Hm Hout g Hg.
  assert (Hkw : searchCodebase model bugReport (Some allFiles)
                = keywordMatch bugReport allFiles) by now destruct model.
  rewrite Hkw, keywordMatch_sorted_prefix in Hout.
  pose proof (sort_perm (keywordOverlap bugReport) allFiles) as Hperm.
  pose proof (sort_sorted (keywordOverlap bugReport) allFiles) as Hsorted.
  destruct (sort _ allFiles) as [| s0 sorted] eqn:Hs; [discriminate Hout |].
  cbn [take] in Hout. injection Hout as -> _.
  apply list_elem_of_In in Hg. rewrite <- Hperm in Hg.
  apply StronglySorted_inv in Hsorted as [_ Hall].
  apply elem_of_cons in Hg as [-> | Hg]; [lia |].
  rewrite Forall_forall in Hall. now apply Hall.
Qed.

Lemma selector_best_first_witness :
  keywordOverlap "login button" "/src/a.js"
  ≤ keywordOverlap "login button" "/src/button/login.js".
Proof.
  apply (selector_best_first NoModel "login button"
           ["/src/a.js"; "/src/login.js"; "/src/button/login.js"]
           "/src/button/login.js" ["/src/login.js"; "/src/a.js"] I eq_refl).
  simpl. tauto.
Defined.

(** ** Further properties of the renderer *)

Lemma length_append (a b : string) :
  String.length (a +:+ b) = String.length a + String.length b.
Proof.
  induction a as [| c a IH]; [reflexivity |].
  change (S (String.length (a +:+ b)) = S (String.length a + String.length b)).
  now rewrite IH.
Qed.

Lemma substring0_append (m rest : string) :
  String.substring 0 (String.length m) (m +:+ rest) = m.
Proof.
  induction m as [| c m IH]; [now destruct rest |].
  change (String c (String.substring 0 (String.length m) (m +:+ rest)) = String c m).
  now rewrite IH.
Qed.

Lemma prefix_split (t s : string) :
  String.prefix t s = true → s = t +:+ Regex.dropUnits (String.length t) s.
Proof.
  revert s. induction t as [| a t IH]; intros s H; [now destruct s |].
  destruct s as [| b s]; [discriminate H |]. simpl in H.
  destruct (ascii_dec a b) as [<- |]; [| discriminate H].
  change (String a s = String a (t +:+ Regex.dropUnits (String.length t) s)).
  now rewrite <- IH.
Qed.

(** What a match consumed has the shape of the pattern. *)
Lemma matchFrom_sound (re : list Regex.Piece) (s rest : string) :
  Regex.matchFrom re s = Some rest → ∃ m, s = m +:+ rest ∧ patternShape re m.
Proof.
  revert s rest. induction re as [| piece re IH]; intros s rest H.
  - injection H as <-. now exists "".
  - destruct piece as [cls | cls | t | alts]; simpl in H.
    + destruct s as [| c s]; [discriminate |].
      destruct (cls c) eqn:Hc; [| discriminate].
      apply IH in H as (m & -> & Hm).
      exists (String c m). split; [reflexivity |].
      exists (String c ""), m. split; [reflexivity |]. split; [| exact Hm].
      exists c. now split.
    + revert rest H. induction s as [| c s IHs]; intros rest H; [discriminate |].
      destruct (cls c) eqn:Hc; [| discriminate].
      match type of H with
      | match ?m with _ => _ end = _ =>
          pose proof (IHs : ∀ r, m = Some r → _) as Hlonger;
          destruct m as [r |]
      end.
      * injection H as <-.
        destruct (Hlonger r eq_refl) as (m & -> & m1 & m2 & -> & [Hne Hall] & Hm2).
        exists (String c (m1 +:+ m2)). split; [reflexivity |].
        exists (String c m1), m2. split; [reflexivity |]. split; [| exact Hm2].
        split; [discriminate |]. cbn [allUnits]. now rewrite Hc, Hall.
      * apply IH in H as (m & -> & Hm).
        exists (String c m). split; [reflexivity |].
        exists (String c ""), m. split; [reflexivity |]. split; [| exact Hm].
        split; [discriminate |]. cbn [allUnits]. now rewrite Hc.
    + destruct (String.prefix t s) eqn:Hp; [| discriminate].
      apply IH in H as (m & Hs & Hm). apply prefix_split in Hp.
      exists (t +:+ m). split; [rewrite append_assoc, <- Hs; exact Hp |].
      exists t, m. now repeat split.
    + assert (Hany : ∃ t, In t alts ∧ String.prefix t s = true
                          ∧ Regex.matchFrom re (Regex.dropUnits (String.length t) s)
                            = Some rest).
      { induction alts as [| t alts IHa]; [discriminate |].
        destruct (String.prefix t s) eqn:Hp.
        - destruct (Regex.matchFrom re (Regex.dropUnits (String.length t) s))
            as [r |] eqn:Hm.
          + injection H as <-. exists t. split; [now left | now split].
          + destruct (IHa H) as (t' & Hin & Ht'). exists t'. split; [now right | exact Ht'].
        - destruct (IHa H) as (t' & Hin & Ht'). exists t'. split; [now right | exact Ht']. }
      destruct Hany as (t & Hin & Hp & Hm).
      apply IH in Hm as (m & Hs & Hm). apply prefix_split in Hp.
      exists (t +:+ m). split; [rewrite append_assoc, <- Hs; exact Hp |].
      exists t, m. now repeat split.
Qed.

(** The match of [exec] is a piece of the text and has the shape of the
    pattern. *)
Lemma exec_sound (re : list Regex.Piece) (s p : string) :
  Regex.exec re s = Some p →
  ∃ before after, s = before +:+ p +:+ after ∧ patternShape re p.
Proof.
  assert (Hhere : ∀ s rest, Regex.matchFrom re s = Some rest →
            ∃ after, s = String.substring 0 (String.length s - String.length rest) s
                         +:+ after
                     ∧ patternShape re
                         (String.substring 0 (String.length s - String.length rest) s)).
  { intros s0 rest Hm. apply matchFrom_sound in Hm as (m & -> & Hm).
    rewrite length_append.
    replace (String.length m + String.length rest - String.length rest)
      with (String.length m) by lia.
    rewrite substring0_append. now exists rest. }
  induction s as [| c s IH]; intros H; cbn [Regex.exec] in H.
  - destruct (Regex.matchFrom re "") as [rest |] eqn:Hm; [| discriminate].
    injection H as <-. destruct (Hhere _ _ Hm) as (after & Hs & Hshape).
    now exists "", after.
  - destruct (Regex.matchFrom re (String c s)) as [rest |] eqn:Hm.
    + injection H as <-. destruct (Hhere _ _ Hm) as (after & Hs & Hshape).
      now exists "", after.
    + destruct (IH H) as (before & after & -> & Hshape).
      now exists (String c before), after.
Qed.

(** X9.  A path the renderer extracts from an evidence entry is a piece of
    that entry made of a separator, a non-empty segment without separator
    or colon, a separator, another such segment, a dot and one of the
    extensions js, jsx, ts, tsx, css, html, json. *)
Theorem extractPath_shape (item path : string) :
  extractPath item = Some path →
  ∃ before after sep1 seg1 sep2 seg2 ext,
    item = before +:+ path +:+ after
    ∧ path = String sep1 (seg1 +:+ String sep2 (seg2 +:+ "." +:+ ext))
    ∧ isSeparator sep1 = true ∧ isSeparator sep2 = true
    ∧ seg1 ≠ "" ∧ allUnits isSegmentUnit seg1 = true
    ∧ seg2 ≠ "" ∧ allUnits isSegmentUnit seg2 = true
    ∧ In ext ["js"; "jsx"; "ts"; "tsx"; "css"; "html"; "json"].
Proof.
  intros H. apply exec_sound in H as (before & after & Hitem & Hshape).
  unfold filePathPattern in Hshape. cbn [patternShape pieceShape] in Hshape.
  destruct Hshape as (m1 & r1 & -> & (sep1 & -> & Hsep1)
                      & seg1 & r2 & -> & [Hne1 Hall1]
                      & m3 & r3 & -> & (sep2 & -> & Hsep2)
                      & seg2 & r4 & -> & [Hne2 Hall2]
                      & dot & r5 & -> & ->
                      & ext & r6 & -> & Hext & ->).
  exists before, after, sep1, seg1, sep2, seg2, ext.
  rewrite append_empty_r in Hitem |- *.
  split; [exact Hitem |]. split; [reflexivity |].
  repeat split; assumption.
Qed.

Lemma extractPath_shape_witness :
  ∃ before after sep1 seg1 sep2 seg2 ext,
    "see /src/app/main.jsx: line 3" = before +:+ "/app/main.js" +:+ after
    ∧ "/app/main.js" = String sep1 (seg1 +:+ String sep2 (seg2 +:+ "." +:+ ext))
    ∧ isSeparator sep1 = true ∧ isSeparator sep2 = true
    ∧ seg1 ≠ "" ∧ allUnits isSegmentUnit seg1 = true
    ∧ seg2 ≠ "" ∧ allUnits isSegmentUnit seg2 = true
    ∧ In ext ["js"; "jsx"; "ts"; "tsx"; "css"; "html"; "json"].
Proof.
  apply (extractPath_shape "see /src/app/main.jsx: line 3" "/app/main.js").
  reflexivity.
Defined.

Lemma includes_unfold (s t : string) :
  includes s t
  = (String.prefix t s
     || match s with
        | EmptyString => false
        | String _ s' => includes s' t
        end).
Proof. now destruct s. Qed.

Lemma includes_piece (before p after : string) :
  includes (before +:+ p +:+ after) p = true.
Proof.
  induction before as [| c before IH].
  - rewrite includes_unfold. change ("" +:+ p +:+ after) with (p +:+ after).
    now rewrite prefix_append.
  - change (String c before +:+ p +:+ after) with (String c (before +:+ p +:+ after)).
    cbn [includes]. rewrite IH. apply orb_true_r.
Qed.

Lemma in_filePaths (ev : list string) (path : string) :
  In path (keepTruthy (map extractPath (List.filter mentionsSeparator ev)))
  ↔ ∃ item, In item ev ∧ mentionsSeparator item = true ∧ extractPath item = Some path.
Proof.
  induction ev as [| item ev IH].
  - simpl. split; [tauto | now intros (item & [] & _)].
  - cbn [List.filter]. destruct (mentionsSeparator item) eqn:Hsep.
    + cbn [map keepTruthy]. destruct (extractPath item) as [p |] eqn:Hp.
      * assert (Ht : truthy (Some p) = true).
        { apply extractPath_nonempty in Hp. unfold truthy.
          destruct (String.eqb_spec p ""); [contradiction | reflexivity]. }
        rewrite Ht. cbn [In]. rewrite IH. split.
        -- intros [<- | (item' & Hin & Hs & He)].
           ++ exists item. split; [now left | now split].
           ++ exists item'. split; [now right | now split].
        -- intros (item' & [<- | Hin] & Hs & He).
           ++ left. congruence.
           ++ right. now exists item'.
      * rewrite IH. split.
        -- intros (item' & Hin & Hs & He). exists item'. split; [now right | now split].
        -- intros (item' & [<- | Hin] & Hs & He); [congruence | now exists item'].
    + rewrite IH. split.
      * intros (item' & Hin & Hs & He). exists item'. split; [now right | now split].
      * intros (item' & [<- | Hin] & Hs & He); [congruence | now exists item'].
Qed.

Lemma keepTruthy_length (l : list (option string)) : length (keepTruthy l) ≤ length l.
Proof.
  induction l as [| [s |] l IH]; cbn [keepTruthy length]; [lia | | lia].
  destruct (truthy (Some s)); cbn [length]; lia.
Qed.

(** X10.  Every path of the Files Involved list occurs in an evidence
    entry of the report; the list is never longer than the evidence; and
    the section is left out of the markdown exactly when no evidence entry
    that holds a separator yields a path. *)
Theorem files_involved_from_evidence (r : Report) :
  (∀ path, In path (filePaths r) →
           ∃ item, In item (evidence r) ∧ includes item path = true)
  ∧ length (filePaths r) ≤ length (evidence r)
  ∧ (filesSection (filePaths r) = ""
     ↔ ∀ item, In item (evidence r) →
               mentionsSeparator item = false ∨ extractPath item = None).
Proof.
  unfold filePaths. split; [| split].
  - intros path Hin. apply in_filePaths in Hin as (item & Hitem & _ & Hpath).
    exists item. split; [exact Hitem |].
    apply exec_sound in Hpath as (before & after & -> & _).
    apply includes_piece.
  - etransitivity; [apply keepTruthy_length |].
    rewrite length_map.
    pose proof (filter_length mentionsSeparator (evidence r)). lia.
  - pose proof (in_filePaths (evidence r)) as Hin.
    unfold filesSection.
    destruct (keepTruthy (map extractPath (List.filter mentionsSeparator (evidence r))))
      as [| p paths] eqn:Hpaths.
    + split; [| reflexivity]. intros _ item Hitem.
      destruct (mentionsSeparator item) eqn:Hs; [| now left].
      destruct (extractPath item) as [p |] eqn:Hp; [| now right].
      exfalso. apply (proj2 (Hin p)). now exists item.
    + split; [discriminate |]. intros Hnone. exfalso.
      destruct (proj1 (Hin p) (or_introl eq_refl)) as (item & Hitem & Hs & Hp).
      destruct (Hnone item Hitem); congruence.
Qed.

(** ** Properties of the snippet loader *)

Lemma setProperty_lookup (key value : string) (object : gmap string string) (p : string) :
  setProperty key value object !! p
  = if bool_decide (key = p ∧ p ≠ "__proto__") then Some value else object !! p.
Proof.
  unfold setProperty. destruct (String.eqb_spec key "__proto__") as [-> | Hproto].
  - rewrite bool_decide_eq_false_2; [reflexivity |]. intros [<- H]. now apply H.
  - destruct (decide (key = p)) as [<- | Hne].
    + rewrite bool_decide_eq_true_2 by now split. apply lookup_insert_eq.
    + rewrite bool_decide_eq_false_2 by (intros [? _]; contradiction).
      now apply lookup_insert_ne.
Qed.

Lemma readCodeSnippets_lookup (readFile : string → Result string)
    (filePaths : list string) (acc : gmap string string) (p : string) :
  fold_left
    (λ codeSnippets filePath,
       match readFile filePath with
       | Returned content => setProperty filePath content codeSnippets
       | Thrown message =>
           setProperty filePath ("Error reading file: " +:+ message) codeSnippets
       end)
    filePaths acc !! p
  = if bool_decide (p ∈ filePaths ∧ p ≠ "__proto__")
    then Some (match readFile p with
               | Returned content => content
               | Thrown message => "Error reading file: " +:+ message
               end)
    else acc !! p.
Proof.
  revert acc. induction filePaths as [| q filePaths IH]; intros acc.
  - cbn [fold_left]. rewrite bool_decide_eq_false_2; [reflexivity |].
    intros [H _]. now apply elem_of_nil in H.
  - cbn [fold_left]. rewrite IH.
    destruct (decide (p ∈ filePaths ∧ p ≠ "__proto__")) as [Hin | Hout].
    + rewrite !bool_decide_eq_true_2; [reflexivity | | exact Hin].
      destruct Hin. split; [apply elem_of_cons; now right | assumption].
    + rewrite (bool_decide_eq_false_2 _ Hout).
      destruct (decide (q = p ∧ p ≠ "__proto__")) as [[<- Hp] | Hne].
      * rewrite bool_decide_eq_true_2 by (split; [apply elem_of_cons; now left | exact Hp]).
        destruct (readFile q); rewrite setProperty_lookup;
          now rewrite bool_decide_eq_true_2 by now split.
      * rewrite bool_decide_eq_false_2.
        -- destruct (readFile q); rewrite setProperty_lookup;
             now rewrite bool_decide_eq_false_2 by exact Hne.
        -- intros [Hin Hp]. apply elem_of_cons in Hin as [-> | Hin];
             [apply Hne | apply Hout]; now split.
Qed.

(** X11.  The snippet loader never fails as a whole: every path it is
    given (the key ["__proto__"] apart, which an object assignment cannot
    set) gets an entry, the content of the file when it could be read and
    "Error reading file: " with the message of the failure otherwise, and
    no other key gets one. *)
Theorem snippets_isolate_failures (readFile : string → Result string)
    (filePaths : list string) (p : string) :
  (In p filePaths → p ≠ "__proto__" →
     readCodeSnippets readFile filePaths !! p
     = Some (match readFile p with
             | Returned content => content
             | Thrown message => "Error reading file: " +:+ message
             end))
  ∧ (is_Some (readCodeSnippets readFile filePaths !! p) →
       In p filePaths ∧ p ≠ "__proto__").
Proof.
  unfold readCodeSnippets. rewrite readCodeSnippets_lookup.
  rewrite <- list_elem_of_In. split.
  - intros Hin Hp. now rewrite bool_decide_eq_true_2 by now split.
  - destruct (decide (p ∈ filePaths ∧ p ≠ "__proto__")) as [H | H]; [now intros _ |].
    rewrite (bool_decide_eq_false_2 _ H), lookup_empty. now intros [? ?].
Qed.

Lemma snippets_isolate_failures_witness :
  let readFile := λ path, if String.eqb path "/src/gone.js"
                          then Thrown "ENOENT: no such file"
                          else Returned "export default 1;" in
  readCodeSnippets readFile ["/src/gone.js"; "/src/a.js"] !! "/src/a.js"
  = Some "export default 1;"
  ∧ readCodeSnippets readFile ["/src/gone.js"; "/src/a.js"] !! "/src/gone.js"
    = Some "Error reading file: ENOENT: no such file".
Proof.
  intros readFile. split.
  - apply (proj1 (snippets_isolate_failures readFile ["/src/gone.js"; "/src/a.js"]
                    "/src/a.js")); [simpl; tauto | discriminate].
  - apply (proj1 (snippets_isolate_failures readFile ["/src/gone.js"; "/src/a.js"]
                    "/src/gone.js")); [simpl; tauto | discriminate].
Defined.

(** ** Further properties of the report store *)

Lemma stored_id_nonEmpty (clock : StoreClock) (reportJson : Report) (reportMarkdown : string)
    (linearIssue : option LinearIssue) (u : UserData) (filesAnalyzed shots : list string) :
  nonEmpty (id (reportDataOf clock reportJson reportMarkdown linearIssue u filesAnalyzed shots))
  = true
  ∧ nonEmpty (id (fallbackDataOf clock reportJson reportMarkdown filesAnalyzed shots)) = true.
Proof. split; reflexivity. Qed.

(** The cases of [storeBugReport] on a report object. *)
Lemma store_cases (clock : StoreClock) (insertReply : Reply) (w w' : World)
    (reportJson : Report) (reportMarkdown : string) (linearIssue : option LinearIssue)
    (userData : option UserData) (filesAnalyzed shots : list string)
    (res : Result ReportData) :
  storeBugReport clock insertReply w (Some reportJson) reportMarkdown linearIssue userData
    filesAnalyzed shots = (w', res) →
  ∃ data, res = Returned data ∧ nonEmpty (id data) = true
    ∧ ((∃ rows, supabase w = Some rows ∧ rows !! id data = None
                ∧ insertReply = Served ∧ is_Some userData
                ∧ w' = {| supabase := Some (<[id data := data]> rows);
                          inMemoryReports := inMemoryReports w |})
       ∨ ((userData = None ∨ supabase w = None ∨ insertReply ≠ Served
           ∨ ∃ rows, supabase w = Some rows ∧ is_Some (rows !! id data))
          ∧ w' = {| supabase := supabase w;
                    inMemoryReports := <[id data := data]> (inMemoryReports w) |})).
Proof.
  unfold storeBugReport, storeBody, storeHandler. destruct userData as [u |].
  - set (reportData := reportDataOf _ _ _ _ _ _ _).
    destruct (supabase w) as [rows |] eqn:Hs.
    + unfold remoteInsert.
      destruct insertReply; [destruct (rows !! id reportData) eqn:Hrow | |];
        intros [= <- <-]; exists reportData; (split; [reflexivity |]);
        (split; [reflexivity |]).
      * right. split; [| reflexivity]. do 3 right. exists rows. now rewrite Hrow.
      * left. exists rows. repeat split; eauto.
      * right. split; [| reflexivity]. right. right. left. discriminate.
      * right. split; [| reflexivity]. right. right. left. discriminate.
    + intros [= <- <-]. exists reportData. split; [reflexivity |].
      split; [reflexivity |]. right. split; [| unfold setMemory; now rewrite Hs]. tauto.
  - intros [= <- <-]. eexists. split; [reflexivity |]. split; [reflexivity |].
    right. split; [tauto | reflexivity].
Qed.

(** X12.  A stored record can be read back: when the remote table had no
    row of the new id and the lookup is served whenever the insert was,
    [getBugReport] on the id of the record [storeBugReport] gave answers
    that very record, from whichever store holds it. *)
Theorem store_then_get (clock : StoreClock) (insertReply selectReply : Reply) (w w' : World)
    (reportJson : Report) (reportMarkdown : string) (linearIssue : option LinearIssue)
    (userData : option UserData) (filesAnalyzed shots : list string) (data : ReportData) :
  storeBugReport clock insertReply w (Some reportJson) reportMarkdown linearIssue userData
    filesAnalyzed shots = (w', Returned data) →
  (∀ rows, supabase w = Some rows → rows !! id data = None) →
  (insertReply = Served → selectReply = Served) →
  getBugReport selectReply w' (id data) = Returned data.
Proof.
  intros Hstore Hfresh Hserved.
  apply store_cases in Hstore as (data' & [= <-] & Hid & Hcase).
  unfold getBugReport. rewrite Hid. cbn [negb].
  destruct Hcase as [(rows & Hs & Hrow & -> & Hu & ->) | [_ ->]].
  - rewrite (Hserved eq_refl). cbn [supabase from_option remoteSelect].
    now rewrite lookup_insert_eq.
  - cbn [supabase inMemoryReports].
    assert (Hsel : from_option (λ rows, remoteSelect selectReply rows (id data)) None
                     (supabase w) = None).
    { destruct (supabase w) as [rows |] eqn:Hs; [| reflexivity]. simpl.
      destruct selectReply; simpl; auto. }
    now rewrite Hsel, lookup_insert_eq.
Qed.

Lemma store_then_get_witness :
  ∃ w' data,
    storeBugReport sampleStoreClock Broken {| supabase := Some ∅; inMemoryReports := ∅ |}
      (Some sampleReport) "# Bug Report" None
      (Some {| email := Some "ana@example.org"; name := None |}) [] []
    = (w', Returned data)
    ∧ getBugReport Served w' (id data) = Returned data.
Proof.
  eexists _, _. split; [reflexivity |].
  apply (store_then_get sampleStoreClock Broken Served
           {| supabase := Some ∅; inMemoryReports := ∅ |} _ sampleReport "# Bug Report"
           None (Some {| email := Some "ana@example.org"; name := None |}) [] [] _ eq_refl).
  - intros rows [= <-]. apply lookup_empty.
  - discriminate.
Defined.

(** What a successful [confirmBugReport] read, answered and wrote. *)
Lemma confirm_returned (clock : ConfirmClock) (selectReply updateReply : Reply)
    (linearIssue : ReportData → option LinearIssue) (w w' : World) (reportId : string)
    (c : Confirmation) :
  confirmBugReport clock selectReply updateReply linearIssue w reportId = (w', Returned c) →
  ∃ d, readsRecord w reportId d
    ∧ c = {| confirmed_id := reportId;
             report_json := content_json d;
             report_markdown := content_markdown d;
             confirmed_files := files_analyzed d;
             confirmed_screenshots := row_screenshots d;
             linear_issue := linearIssue d;
             timestamp := confirm_timestamp clock;
             confirmed := true |}
    ∧ (w' = w
       ∨ (∃ rows row, supabase w = Some rows ∧ rows !! reportId = Some row
                      ∧ w' = {| supabase :=
                                  Some (<[reportId := confirmRemote clock (linearIssue d) row]>
                                          rows);
                                inMemoryReports := inMemoryReports w |})
       ∨ (∃ report, inMemoryReports w !! reportId = Some report
                    ∧ w' = {| supabase := supabase w;
                              inMemoryReports :=
                                <[reportId := confirmMemory clock (linearIssue d) report]>
                                  (inMemoryReports w) |})).
Proof.
  unfold confirmBugReport. destruct (negb (nonEmpty reportId)); [discriminate |].
  destruct (supabase w) as [rows |] eqn:Hs; cbn [from_option].
  - assert (Hsame : setRemote rows w = w) by now apply setRemote_same.
    unfold remoteSelect, remoteUpdate.
    destruct selectReply, updateReply;
      destruct (rows !! reportId) as [row |] eqn:Hrow;
      destruct (inMemoryReports w !! reportId) as [report |] eqn:Hmem;
      cbn [setRemote setMemory inMemoryReports supabase]; rewrite ?Hmem;
      try discriminate;
      intros [= <- <-];
      (refine (ex_intro _ _ (conj _ (conj eq_refl _)));
       [ first [ left; exists rows; split; [exact Hs | exact Hrow]
               | right; exact Hmem ]
       | first [ left; exact Hsame
               | left; reflexivity
               | right; left; exists rows, row; split; [reflexivity |];
                 split; [exact Hrow | reflexivity]
               | right; right; exists report; split; reflexivity ] ]).
  - destruct (inMemoryReports w !! reportId) as [report |] eqn:Hmem; [| discriminate].
    intros [= <- <-]. exists report. split; [now right |].
    split; [reflexivity |]. right. right. exists report. split; [reflexivity |].
    unfold setMemory. now rewrite Hs.
Qed.

Lemma confirm_thrown (clock : ConfirmClock) (selectReply updateReply : Reply)
    (linearIssue : ReportData → option LinearIssue) (w w' : World) (reportId : string)
    (message : string) :
  confirmBugReport clock selectReply updateReply linearIssue w reportId = (w', Thrown message) →
  w' = w.
Proof.
  unfold confirmBugReport. destruct (negb (nonEmpty reportId)); [now intros [= <- _] |].
  match goal with |- context [match ?found with Some _ => _ | None => (w, Thrown _) end] =>
    destruct found as [reportData |]; [| now intros [= <- _]]
  end.
  destruct (supabase w) as [rows |]; [destruct (remoteUpdate _ _ _ _) as [rows' [data |]] |];
    cbn; try discriminate;
    repeat match goal with |- context [match ?x with Some _ => _ | None => _ end] =>
      destruct x end; discriminate.
Qed.

Lemma submit_thrown (clock : SubmitClock) (selectReply updateReply : Reply)
    (w w' : World) (reportId : string) (responses : gmap string string) (message : string) :
  submitAdditionalInfo clock selectReply updateReply w reportId responses
  = (w', Thrown message) →
  w' = w.
Proof.
  unfold submitAdditionalInfo. destruct (negb (nonEmpty reportId)); [now intros [= <- _] |].
  destruct (bool_decide (responses = ∅)); [now intros [= <- _] |].
  destruct (supabase w) as [rows |] eqn:Hs.
  - destruct (remoteSelect selectReply rows reportId) as [data |].
    + destruct (remoteUpdate _ _ _ _) as [rows' [updated |]]; discriminate.
    + destruct (inMemoryReports w !! reportId); [discriminate | now intros [= <- _]].
  - destruct (inMemoryReports w !! reportId); [discriminate | now intros [= <- _]].
Qed.

(** X13.  A call that is rejected has changed nothing: when
    [storeBugReport], [confirmBugReport] or [submitAdditionalInfo] raises,
    the remote table and the in-process map are as they were before the
    call. *)
Theorem rejected_calls_change_nothing (w w' : World) (message : string) :
  (∀ clock insertReply reportJson reportMarkdown linearIssue userData filesAnalyzed shots,
     storeBugReport clock insertReply w reportJson reportMarkdown linearIssue userData
       filesAnalyzed shots = (w', Thrown message) → w' = w)
  ∧ (∀ clock selectReply updateReply linearIssue reportId,
       confirmBugReport clock selectReply updateReply linearIssue w reportId
       = (w', Thrown message) → w' = w)
  ∧ (∀ clock selectReply updateReply reportId responses,
       submitAdditionalInfo clock selectReply updateReply w reportId responses
       = (w', Thrown message) → w' = w).
Proof.
  split; [| split].
  - intros clock insertReply [reportJson |] reportMarkdown linearIssue userData
      filesAnalyzed shots H.
    + apply store_cases in H as (data & Hres & _). discriminate Hres.
    + unfold storeBugReport, storeBody, storeHandler in H. now injection H as <- _.
  - intros. eapply confirm_thrown; eassumption.
  - intros. eapply submit_thrown; eassumption.
Qed.

Lemma sameAt_refl (w : World) (k : string) : sameAt w w k.
Proof. unfold sameAt. tauto. Qed.

Lemma writes_sameAt (w w' : World) (reportId k : string) (d' : ReportData) :
  writesRecord w w' reportId d' → k ≠ reportId → sameAt w w' k.
Proof.
  intros [(rows & Hs & ->) | ->] Hk; unfold sameAt; cbn [supabase inMemoryReports].
  - rewrite Hs. cbn. rewrite lookup_insert_ne by congruence.
    repeat split; eauto.
  - rewrite lookup_insert_ne by congruence. tauto.
Qed.

Lemma stampShared_lookup (t : string) (sharing : gset string) (w : World) (k : string) :
  inMemoryReports (stampShared t sharing w) !! k
  = (λ d, if bool_decide (k ∈ sharing) then seenStamped t d else d)
      <$> inMemoryReports w !! k.
Proof.
  unfold stampShared, setMemory. cbn [inMemoryReports].
  rewrite map_lookup_imap. now destruct (inMemoryReports w !! k).
Qed.

(** An object that no record holds: the stores read as before. *)
Lemma stampShared_empty (t : string) (w : World) : stampShared t ∅ w = w.
Proof.
  destruct w as [rows reports]. unfold stampShared, setMemory.
  cbn [supabase inMemoryReports]. f_equal.
  apply map_eq. intros k. rewrite map_lookup_imap.
  now destruct (reports !! k).
Qed.

Lemma seenStamped_onlyStampChanged (t : string) (d : ReportData) :
  onlyStampChanged t d (seenStamped t d).
Proof. unfold onlyStampChanged. repeat split. Qed.

Lemma stampShared_sameAtButShared (t : string) (sharing : gset string) (w : World)
    (k : string) :
  sameAtButShared t sharing w (stampShared t sharing w) k.
Proof.
  unfold sameAtButShared. rewrite stampShared_lookup.
  unfold stampShared, setMemory. cbn [supabase].
  split; [reflexivity |]. split; [reflexivity |]. split; intros Hk.
  - rewrite bool_decide_eq_false_2 by exact Hk. now destruct (inMemoryReports w !! k).
  - rewrite bool_decide_eq_true_2 by exact Hk.
    destruct (inMemoryReports w !! k) as [d |]; constructor.
    apply seenStamped_onlyStampChanged.
Qed.

(** X14.  A call on one report leaves every other report alone.  After
    [confirmBugReport] or [submitAdditionalInfo] on an id, the remote table
    and the in-process map hold under every other id what they held
    before.  After [storeBugReport] gave a record they do so too, with one
    exception: the function assigns [created_at] to the report object it
    is given, so a record of the in-process map that holds this very
    object reads the new creation time in its report, and differs in
    nothing else. *)
Theorem other_reports_untouched (w w' : World) (k : string) :
  (∀ clock selectReply updateReply linearIssue reportId res,
     confirmBugReport clock selectReply updateReply linearIssue w reportId = (w', res) →
     k ≠ reportId → sameAt w w' k)
  ∧ (∀ clock selectReply updateReply reportId responses res,
       submitAdditionalInfo clock selectReply updateReply w reportId responses = (w', res) →
       k ≠ reportId → sameAt w w' k)
  ∧ (∀ clock insertReply sharing reportJson reportMarkdown linearIssue userData
       filesAnalyzed shots data,
       storeSharedReport clock insertReply sharing w reportJson reportMarkdown linearIssue
         userData filesAnalyzed shots = (w', Returned data) →
       k ≠ id data → sameAtButShared (created_iso clock) sharing w w' k).
Proof.
  split; [| split].
  - intros clock selectReply updateReply linearIssue reportId [c | message] H Hk.
    + apply confirm_writes in H as [-> | (d' & _ & Hw)]; [apply sameAt_refl |].
      eapply writes_sameAt; eassumption.
    + apply confirm_thrown in H as ->. apply sameAt_refl.
  - intros clock selectReply updateReply reportId responses [out | message] H Hk.
    + apply submit_writes in H as (d & d' & t & _ & Hw & _).
      eapply writes_sameAt; eassumption.
    + apply submit_thrown in H as ->. apply sameAt_refl.
  - intros clock insertReply sharing reportJson reportMarkdown linearIssue userData
      filesAnalyzed shots data H Hk.
    unfold storeSharedReport in H.
    set (seen := stampShared (created_iso clock) sharing w) in H.
    apply store_cases in H as (data' & [= <-] & _ & Hcase).
    assert (Hafter : sameAt seen w' k).
    { apply (writes_sameAt seen w' (id data) k data); [| exact Hk].
      destruct Hcase as [(rows & Hs & _ & _ & _ & ->) | [_ ->]]; [left | right]; eauto. }
    destruct Hafter as (Hremote & Hmemory & Hconfigured).
    destruct (stampShared_sameAtButShared (created_iso clock) sharing w k)
      as (Hremote' & Hconfigured' & Hout & Hin).
    fold seen in Hremote', Hconfigured', Hout, Hin.
    unfold sameAtButShared. rewrite <- Hremote, <- Hmemory, <- Hconfigured.
    repeat split; try assumption; apply Hconfigured'.
Qed.

(** With no remote store the record goes to the in-process map. *)
Lemma store_without_remote (clock : StoreClock) (insertReply : Reply) (w : World)
    (reportJson : Report) (reportMarkdown : string) (linearIssue : option LinearIssue)
    (u : UserData) (filesAnalyzed shots : list string) :
  supabase w = None →
  storeBugReport clock insertReply w (Some reportJson) reportMarkdown linearIssue (Some u)
    filesAnalyzed shots
  = (let reportData :=
       reportDataOf clock reportJson reportMarkdown linearIssue u filesAnalyzed shots in
     ({| supabase := None;
         inMemoryReports := <[id reportData := reportData]> (inMemoryReports w) |},
      Returned reportData)).
Proof.
  intros Hs. unfold storeBugReport, storeBody, setMemory. rewrite Hs. reflexivity.
Qed.

Lemma shared_record_after {A} (R : A → A → Prop) (d : A) (after : option A) :
  option_Forall2 R (Some d) after → ∃ d', after = Some d' ∧ R d d'.
Proof. intros H. inversion H; subst. eauto. Qed.

(** A report object stored a second time, an hour after the record
    "report-1-1" of the in-process map was made from it: that record now
    reads the creation time of the second call in its report, and keeps
    its own. *)
Lemma other_reports_untouched_witness :
  let w := {| supabase := None;
              inMemoryReports := {[ "report-1-1" := sampleRow "report-1-1" ]} |} in
  ∃ w' data d',
    storeSharedReport laterClock Served {[ "report-1-1" ]} w sampleReport "# Bug Report"
      None (Some {| email := None; name := None |}) [] []
    = (w', Returned data)
    ∧ inMemoryReports w' !! "report-1-1" = Some d'
    ∧ report_created_at (content_json d') = Some "2024-05-01T11:00:00.000Z"
    ∧ created_at d' = "2024-05-01T10:00:00.000Z".
Proof.
  intros w.
  pose proof (store_without_remote laterClock Served
                (stampShared (created_iso laterClock) {[ "report-1-1" ]} w) sampleReport
                "# Bug Report" None {| email := None; name := None |} [] [] eq_refl)
    as Hstore.
  cbv zeta in Hstore.
  set (data := reportDataOf laterClock sampleReport "# Bug Report" None
                 {| email := None; name := None |} [] []) in Hstore.
  assert (Hk : "report-1-1" ≠ id data) by (vm_compute; discriminate).
  destruct (proj2 (proj2 (other_reports_untouched w _ "report-1-1"))
              laterClock Served {[ "report-1-1" ]} sampleReport "# Bug Report" None
              (Some {| email := None; name := None |}) [] [] data Hstore Hk)
    as (_ & _ & _ & Hin).
  specialize (Hin ltac:(apply elem_of_singleton; reflexivity)).
  unfold w in Hin at 1. cbn [inMemoryReports] in Hin. rewrite lookup_singleton_eq in Hin.
  apply shared_record_after in Hin as (d' & Hsecond & Hd).
  eexists _, data, d'. split; [exact Hstore |]. split; [exact Hsecond |].
  destruct Hd as (_ & _ & _ & Hcreated & Hrest). split; [| exact Hcreated].
  repeat match type of Hrest with _ ∧ _ => destruct Hrest as [_ Hrest] end.
  exact Hrest.
Defined.

Lemma wellKeyed_write (w w' : World) (reportId : string) (d' : ReportData) :
  wellKeyed w → writesRecord w w' reportId d' → id d' = reportId → wellKeyed w'.
Proof.
  intros [Hremote Hmemory] [(rows & Hs & ->) | ->] Hid; split;
    cbn [supabase inMemoryReports].
  - intros rows' k d [= <-] Hk.
    destruct (decide (reportId = k)) as [<- | Hne].
    + rewrite lookup_insert_eq in Hk. congruence.
    + rewrite lookup_insert_ne in Hk by exact Hne. eauto.
  - exact Hmemory.
  - exact Hremote.
  - intros k d Hk.
    destruct (decide (reportId = k)) as [<- | Hne].
    + rewrite lookup_insert_eq in Hk. congruence.
    + rewrite lookup_insert_ne in Hk by exact Hne. eauto.
Qed.

(** X15.  The identity of a record does not change: if every record is
    kept under its own id, this is still so after [storeBugReport],
    [confirmBugReport] and [submitAdditionalInfo], whatever they answer. *)
Theorem records_stay_under_their_id (w w' : World) :
  wellKeyed w →
  (∀ clock insertReply reportJson reportMarkdown linearIssue userData filesAnalyzed shots
     res,
     storeBugReport clock insertReply w reportJson reportMarkdown linearIssue userData
       filesAnalyzed shots = (w', res) → wellKeyed w')
  ∧ (∀ clock selectReply updateReply linearIssue reportId res,
       confirmBugReport clock selectReply updateReply linearIssue w reportId = (w', res) →
       wellKeyed w')
  ∧ (∀ clock selectReply updateReply reportId responses res,
       submitAdditionalInfo clock selectReply updateReply w reportId responses = (w', res) →
       wellKeyed w').
Proof.
  intros Hw. split; [| split].
  - intros clock insertReply [reportJson |] reportMarkdown linearIssue userData
      filesAnalyzed shots res H.
    + apply store_cases in H as (data & _ & _ & Hcase).
      apply (wellKeyed_write w w' (id data) data Hw); [| reflexivity].
      destruct Hcase as [(rows & Hs & _ & _ & _ & ->) | [_ ->]]; [left | right]; eauto.
    + unfold storeBugReport, storeBody, storeHandler in H. now injection H as <- _.
  - intros clock selectReply updateReply linearIssue reportId [c | message] H.
    + apply confirm_returned in H as (d & _ & _ & [-> | [Hr | Hm]]); [exact Hw | |].
      * destruct Hr as (rows & row & Hs & Hrow & ->).
        eapply (wellKeyed_write w _ reportId); [exact Hw | left; eauto |].
        cbn [id confirmRemote]. destruct Hw as [Hremote _]. eauto.
      * destruct Hm as (report & Hmem & ->).
        eapply (wellKeyed_write w _ reportId); [exact Hw | right; eauto |].
        cbn [id confirmMemory]. destruct Hw as [_ Hmemory]. eauto.
    + now apply confirm_thrown in H as ->.
  - intros clock selectReply updateReply reportId responses [out | message] H.
    + apply submit_writes in H as (d & d' & t & Hread & Hwrite & Hsame & _).
      apply (wellKeyed_write w w' reportId d' Hw Hwrite).
      destruct Hsame as [-> _]. destruct Hw as [Hremote Hmemory].
      destruct Hread as [(rows & Hs & Hrow) | Hmem]; eauto.
    + now apply submit_thrown in H as ->.
Qed.

Lemma records_stay_under_their_id_witness :
  wellKeyed (fst (submitAdditionalInfo (sampleSubmitClock "10") Served Served
                    {| supabase := None;
                       inMemoryReports := {[ "report-1-1" := sampleRow "report-1-1" ]} |}
                    "report-1-1" {[ "a" := "1" ]})).
Proof.
  refine (proj2 (proj2 (records_stay_under_their_id
    {| supabase := None;
       inMemoryReports := {[ "report-1-1" := sampleRow "report-1-1" ]} |} _ _))
    (sampleSubmitClock "10") Served Served "report-1-1" {[ "a" := "1" ]} _ _).
  - split; [discriminate |]. intros k d Hk. cbn [inMemoryReports] in Hk.
    apply lookup_singleton_Some in Hk as [<- <-]. reflexivity.
  - apply surjective_pairing.
Defined.

(** What [confirmBugReport] does on a record of the in-process map when no
    remote store is configured. *)
Lemma confirm_in_memory (clock : ConfirmClock) (selectReply updateReply : Reply)
    (linearIssue : ReportData → option LinearIssue) (w : World) (reportId : string)
    (d : ReportData) :
  reportId ≠ "" → supabase w = None → inMemoryReports w !! reportId = Some d →
  confirmBugReport clock selectReply updateReply linearIssue w reportId
  = ({| supabase := None;
        inMemoryReports :=
          <[reportId := confirmMemory clock (linearIssue d) d]> (inMemoryReports w) |},
     Returned {| confirmed_id := reportId;
                 report_json := content_json d;
                 report_markdown := content_markdown d;
                 confirmed_files := files_analyzed d;
                 confirmed_screenshots := row_screenshots d;
                 linear_issue := linearIssue d;
                 timestamp := confirm_timestamp clock;
                 confirmed := true |}).
Proof.
  intros Hid Hs Hmem. unfold confirmBugReport.
  rewrite (nonEmpty_true _ Hid), Hs. cbn [negb from_option].
  rewrite Hmem. cbn. rewrite ?Hmem. unfold setMemory. now rewrite ?Hs.
Qed.

(** What it does on a row of the remote table when the store serves the
    lookup and the update. *)
Lemma confirm_in_remote (clock : ConfirmClock)
    (linearIssue : ReportData → option LinearIssue) (w : World) (reportId : string)
    (rows : gmap string ReportData) (d : ReportData) :
  reportId ≠ "" → supabase w = Some rows → rows !! reportId = Some d →
  confirmBugReport clock Served Served linearIssue w reportId
  = ({| supabase := Some (<[reportId := confirmRemote clock (linearIssue d) d]> rows);
        inMemoryReports := inMemoryReports w |},
     Returned {| confirmed_id := reportId;
                 report_json := content_json d;
                 report_markdown := content_markdown d;
                 confirmed_files := files_analyzed d;
                 confirmed_screenshots := row_screenshots d;
                 linear_issue := linearIssue d;
                 timestamp := confirm_timestamp clock;
                 confirmed := true |}).
Proof.
  intros Hid Hs Hrow. unfold confirmBugReport.
  rewrite (nonEmpty_true _ Hid), Hs. cbn [negb from_option remoteSelect].
  rewrite Hrow. cbn [remoteUpdate]. now rewrite Hrow.
Qed.

(** X16.  After a confirm that the store of the record takes (the
    in-process map when no remote store is configured, the remote table
    when it serves the lookup and the update), reading the report back
    gives the same report and markdown under the same id with the status
    "confirmed", and the answer of the confirm carries that report and the
    ticket of this call. *)
Theorem confirm_then_get (clock : ConfirmClock) (selectReply updateReply : Reply)
    (linearIssue : ReportData → option LinearIssue) (w : World) (reportId : string)
    (d : ReportData) :
  reportId ≠ "" →
  (supabase w = None ∧ inMemoryReports w !! reportId = Some d)
  ∨ (∃ rows, supabase w = Some rows ∧ rows !! reportId = Some d
             ∧ selectReply = Served ∧ updateReply = Served) →
  ∃ w' c d',
    confirmBugReport clock selectReply updateReply linearIssue w reportId = (w', Returned c)
    ∧ getBugReport selectReply w' reportId = Returned d'
    ∧ status d' = Some "confirmed"
    ∧ id d' = id d
    ∧ content_json d' = content_json d ∧ content_markdown d' = content_markdown d
    ∧ report_json c = content_json d ∧ report_markdown c = content_markdown d
    ∧ linear_issue c = linearIssue d ∧ confirmed c = true.
Proof.
  intros Hid [[Hs Hmem] | (rows & Hs & Hrow & -> & ->)].
  - eexists _, _, _. split; [apply confirm_in_memory; eassumption |].
    split.
    { apply get_from_memory; [exact Hid | reflexivity | apply lookup_insert_eq]. }
    repeat split.
  - eexists _, _, _. split; [apply (confirm_in_remote _ _ _ _ rows); eassumption |].
    split.
    { eapply get_from_remote; [exact Hid | reflexivity | apply lookup_insert_eq]. }
    repeat split.
Qed.

Lemma confirm_then_get_witness :
  ∃ w' c d',
    confirmBugReport sampleConfirmClock Served Served (λ _, None)
      {| supabase := None;
         inMemoryReports := {[ "report-1-1" := sampleRow "report-1-1" ]} |} "report-1-1"
    = (w', Returned c)
    ∧ getBugReport Served w' "report-1-1" = Returned d'
    ∧ status d' = Some "confirmed".
Proof.
  destruct (confirm_then_get sampleConfirmClock Served Served (λ _, None)
              {| supabase := None;
                 inMemoryReports := {[ "report-1-1" := sampleRow "report-1-1" ]} |}
              "report-1-1" (sampleRow "report-1-1"))
    as (w' & c & d' & Hc & Hg & Hst & _).
  - discriminate.
  - left. split; [reflexivity | apply lookup_singleton_eq].
  - exists w', c, d'. repeat split; assumption.
Defined.

(** X17.  A confirm that creates no ticket (no tracker, or the tracker
    failed) treats the two stores differently: the record of the
    in-process map loses the ticket link it had, the row of the remote
    table keeps it. *)
Theorem confirm_without_ticket (clock : ConfirmClock) (selectReply updateReply : Reply)
    (w : World) (reportId : string) (d : ReportData) :
  reportId ≠ "" →
  (supabase w = None → inMemoryReports w !! reportId = Some d →
     ∃ w' c d',
       confirmBugReport clock selectReply updateReply (λ _, None) w reportId
       = (w', Returned c)
       ∧ inMemoryReports w' !! reportId = Some d'
       ∧ linear_issue_id d' = None ∧ linear_issue_number d' = None
       ∧ linear_issue_url d' = None)
  ∧ (∀ rows, supabase w = Some rows → rows !! reportId = Some d →
       ∃ w' c d',
         confirmBugReport clock Served Served (λ _, None) w reportId = (w', Returned c)
         ∧ (supabase w' ≫= (.!! reportId)) = Some d'
         ∧ linear_issue_id d' = linear_issue_id d
         ∧ linear_issue_number d' = linear_issue_number d
         ∧ linear_issue_url d' = linear_issue_url d).
Proof.
  intros Hid. split.
  - intros Hs Hmem. eexists _, _, _.
    split; [apply confirm_in_memory; eassumption |].
    split; [apply lookup_insert_eq |]. repeat split.
  - intros rows Hs Hrow. eexists _, _, _.
    split; [apply (confirm_in_remote _ _ _ _ rows); eassumption |].
    split; [cbn; apply lookup_insert_eq |]. repeat split.
Qed.

Lemma confirm_without_ticket_witness :
  let linked :=
    confirmMemory sampleConfirmClock
      (Some {| issue_id := "iss-1"; issue_number := 7;
               issue_url := "https://linear.example/iss-1" |})
      (sampleRow "report-1-1") in
  linear_issue_id linked = Some "iss-1"
  ∧ ∃ w' c d',
      confirmBugReport sampleConfirmClock Served Served (λ _, None)
        {| supabase := None; inMemoryReports := {[ "report-1-1" := linked ]} |}
        "report-1-1" = (w', Returned c)
      ∧ inMemoryReports w' !! "report-1-1" = Some d'
      ∧ linear_issue_id d' = None.
Proof.
  intros linked. split; [reflexivity |].
  destruct (proj1 (confirm_without_ticket sampleConfirmClock Served Served
                     {| supabase := None;
                        inMemoryReports := {[ "report-1-1" := linked ]} |}
                     "report-1-1" linked ltac:(discriminate))
              eq_refl (lookup_singleton_eq _ _))
    as (w' & c & d' & Hc & Hm & Hid & _).
  exists w', c, d'. repeat split; assumption.
Defined.

(** X18.  A confirm answers [confirmed: true] with the ticket of the call
    as soon as the record is found, also when no store takes the update:
    if the remote table serves the lookup but not the update and the
    in-process map has no copy, the stores are left as they were and the
    report keeps its former status. *)
Theorem confirm_answers_without_update (clock : ConfirmClock) (updateReply : Reply)
    (linearIssue : ReportData → option LinearIssue) (w : World) (reportId : string)
    (rows : gmap string ReportData) (d : ReportData) :
  reportId ≠ "" →
  supabase w = Some rows → rows !! reportId = Some d →
  inMemoryReports w !! reportId = None →
  updateReply ≠ Served →
  ∃ c, confirmBugReport clock Served updateReply linearIssue w reportId = (w, Returned c)
       ∧ confirmed c = true ∧ linear_issue c = linearIssue d
       ∧ getBugReport Served w reportId = Returned d.
Proof.
  intros Hid Hs Hrow Hmem Hupd. eexists. split; [| split; [| split]].
  - unfold confirmBugReport.
    rewrite (nonEmpty_true _ Hid), Hs. cbn [negb from_option remoteSelect].
    rewrite Hrow.
    destruct updateReply; [contradiction | |]; cbn [remoteUpdate];
      rewrite (setRemote_same _ _ Hs), Hmem; reflexivity.
  - reflexivity.
  - reflexivity.
  - now apply (get_from_remote w reportId rows d).
Qed.

Lemma confirm_answers_without_update_witness :
  let w := {| supabase := Some {[ "report-1-1" := sampleRow "report-1-1" ]};
              inMemoryReports := ∅ |} in
  ∃ c, confirmBugReport sampleConfirmClock Served Refused (λ _, None) w "report-1-1"
       = (w, Returned c)
       ∧ confirmed c = true
       ∧ status (sampleRow "report-1-1") = Some "open".
Proof.
  intros w.
  destruct (confirm_answers_without_update sampleConfirmClock Refused (λ _, None) w
              "report-1-1" {[ "report-1-1" := sampleRow "report-1-1" ]}
              (sampleRow "report-1-1"))
    as (c & Hc & Hconf & _).
  - discriminate.
  - reflexivity.
  - apply lookup_singleton_eq.
  - apply lookup_empty.
  - discriminate.
  - exists c. repeat split; assumption.
Defined.

(** X19.  [submitAdditionalInfo] checks in this order and changes nothing
    when it rejects: an empty id is "Bug report ID is required" whatever the
    responses; empty responses are "Additional information is required"
    whether or not the report exists; an id that no store holds is "Bug
    report not found". *)
Theorem submit_rejections (clock : SubmitClock) (selectReply updateReply : Reply)
    (w : World) (reportId : string) (responses : gmap string string) :
  (reportId = "" →
     submitAdditionalInfo clock selectReply updateReply w reportId responses
     = (w, Thrown "Bug report ID is required"))
  ∧ (reportId ≠ "" → responses = ∅ →
       submitAdditionalInfo clock selectReply updateReply w reportId responses
       = (w, Thrown "Additional information is required"))
  ∧ (reportId ≠ "" → responses ≠ ∅ → absentFromStore w reportId →
       submitAdditionalInfo clock selectReply updateReply w reportId responses
       = (w, Thrown "Bug report not found")).
Proof.
  split; [| split].
  - intros ->. reflexivity.
  - intros Hid ->. unfold submitAdditionalInfo.
    now rewrite (nonEmpty_true _ Hid), bool_decide_eq_true_2.
  - intros Hid Hresp [Hremote Hmemory]. unfold submitAdditionalInfo.
    rewrite (nonEmpty_true _ Hid), bool_decide_eq_false_2 by exact Hresp. cbn [negb].
    destruct (supabase w) as [rows |] eqn:Hs.
    + assert (Hsel : remoteSelect selectReply rows reportId = None).
      { destruct selectReply; simpl; auto. }
      now rewrite Hsel, Hmemory.
    + now rewrite Hmemory.
Qed.

Lemma mergeInfo_lookup (old : option (gmap string string))
    (responses : gmap string string) (t k : string) :
  mergeInfo old responses t !! k
  = if bool_decide (k = "submitted_at") then Some t
    else match responses !! k with
         | Some v => Some v
         | None => default ∅ old !! k
         end.
Proof.
  unfold mergeInfo. destruct (decide (k = "submitted_at")) as [-> | Hne].
  - rewrite bool_decide_eq_true_2 by reflexivity. apply lookup_insert_eq.
  - rewrite bool_decide_eq_false_2 by exact Hne.
    rewrite lookup_insert_ne by congruence.
    destruct (responses !! k) as [v |] eqn:Hk.
    + now apply lookup_union_Some_l.
    + now apply lookup_union_r.
Qed.

(** X20.  A submission that the store of the record takes merges key by
    key: read back, the additional information holds the submission time
    under [submitted_at] (an answer sent under that key is dropped), every
    other answer of the submission under its key, and every earlier entry
    whose key the submission does not use. *)
Theorem submit_then_get (clock : SubmitClock) (selectReply updateReply : Reply)
    (w : World) (reportId : string) (responses : gmap string string) (d : ReportData) :
  reportId ≠ "" → responses ≠ ∅ →
  (supabase w = None ∧ inMemoryReports w !! reportId = Some d)
  ∨ (∃ rows, supabase w = Some rows ∧ rows !! reportId = Some d
             ∧ selectReply = Served ∧ updateReply = Served) →
  ∃ w' out d' m,
    submitAdditionalInfo clock selectReply updateReply w reportId responses
    = (w', Returned out)
    ∧ submitted_id out = id d
    ∧ getBugReport selectReply w' reportId = Returned d'
    ∧ additional_info (content_json d') = Some m
    ∧ m !! "submitted_at"
      = Some (match supabase w with
              | None => memory_submitted_iso clock
              | Some _ => remote_submitted_iso clock
              end)
    ∧ ∀ k, k ≠ "submitted_at" →
           m !! k = match responses !! k with
                    | Some v => Some v
                    | None => default ∅ (additional_info (content_json d)) !! k
                    end.
Proof.
  intros Hid Hresp [[Hs Hmem] | (rows & Hs & Hrow & -> & ->)].
  - assert (Hsel : from_option (λ rows, remoteSelect selectReply rows reportId) None
                     (supabase w) = None) by now rewrite Hs.
    eexists _, _, _, _.
    split; [apply (submit_in_memory _ _ _ _ _ _ d); assumption |].
    split; [reflexivity |]. split.
    { apply get_from_memory; [exact Hid | now rewrite Hs | apply lookup_insert_eq]. }
    split; [reflexivity |]. rewrite Hs. split.
    + rewrite mergeInfo_lookup. now rewrite bool_decide_eq_true_2.
    + intros k Hk. rewrite mergeInfo_lookup. now rewrite bool_decide_eq_false_2.
  - eexists _, _, _, _.
    split; [apply (submit_remote_found _ Served _ _ _ rows d); assumption |].
    split; [reflexivity |]. split.
    { eapply get_from_remote; [exact Hid | reflexivity | apply lookup_insert_eq]. }
    split; [reflexivity |]. rewrite Hs. split.
    + rewrite mergeInfo_lookup. now rewrite bool_decide_eq_true_2.
    + intros k Hk. rewrite mergeInfo_lookup. now rewrite bool_decide_eq_false_2.
Qed.

Lemma submit_then_get_witness :
  ∃ w' out d' m,
    submitAdditionalInfo (sampleSubmitClock "10") Served Served
      {| supabase := None;
         inMemoryReports := {[ "report-1-1" := sampleRow "report-1-1" ]} |}
      "report-1-1" {[ "submitted_at" := "yesterday" ]} = (w', Returned out)
    ∧ getBugReport Served w' "report-1-1" = Returned d'
    ∧ additional_info (content_json d') = Some m
    ∧ m !! "submitted_at" = Some "2024-05-01T10:10:00.002Z".
Proof.
  destruct (submit_then_get (sampleSubmitClock "10") Served Served
              {| supabase := None;
                 inMemoryReports := {[ "report-1-1" := sampleRow "report-1-1" ]} |}
              "report-1-1" {[ "submitted_at" := "yesterday" ]} (sampleRow "report-1-1"))
    as (w' & out & d' & m & Hsub & _ & Hget & Hinfo & Hat & _).
  - discriminate.
  - apply singleton_non_empty.
  - left. split; [reflexivity | apply lookup_singleton_eq].
  - exists w', out, d', m. repeat split; assumption.
Defined.

(** ** Properties of the orchestrator *)

(** X21.  [analyzeBugReport] validates before it does anything: without a
    description it rejects with "Bug description is required" (also when
    the repository path is missing too), with a description but without a
    repository path with "Repository path is required"; in both cases
    nothing is stored. *)
Theorem analyze_validation (fileSystem : FileSystem)
    (selection : ModelOutcome (list string)) (synthesis : ModelOutcome Report)
    (clock : StoreClock) (insertReply : Reply) (answered_iso : string)
    (w : World) (data : AnalyzeData) :
  (truthy (data_description data) = false →
     analyzeBugReport fileSystem selection synthesis clock insertReply answered_iso w data
     = (w, Thrown "Bug description is required"))
  ∧ (truthy (data_description data) = true → truthy (repoPath data) = false →
       analyzeBugReport fileSystem selection synthesis clock insertReply answered_iso w data
       = (w, Thrown "Repository path is required")).
Proof.
  unfold analyzeBugReport, truthy, nonEmpty.
  destruct (data_description data) as [description |], (repoPath data) as [path |];
    split; try discriminate; try reflexivity.
  - now intros ->.
  - intros ->. cbn [negb]. now intros ->.
  - now intros ->.
  - now intros ->.
Qed.

(** What [analyzeBugReport] does on a request with a description and a
    repository path. *)
Lemma analyze_valid (fileSystem : FileSystem)
    (selection : ModelOutcome (list string)) (synthesis : ModelOutcome Report)
    (clock : StoreClock) (insertReply : Reply) (answered_iso : string)
    (w : World) (data : AnalyzeData) (description path : string) :
  data_description data = Some description → description ≠ "" →
  repoPath data = Some path → path ≠ "" →
  let relevantFiles := searchCodebase selection description (listFiles fileSystem path) in
  let shots := default [] (data_screenshots data) in
  let reportJson :=
    generateBugReport synthesis
      {| description := description; logs := data_logs data; steps := data_steps data;
         additionalContext := data_additionalContext data; screenshots := shots |} in
  ∃ w' stored,
    storeBugReport clock insertReply w (Some reportJson) (generateMarkdownReport reportJson)
      None (Some {| email := data_email data; name := data_name data |}) relevantFiles shots
    = (w', Returned stored)
    ∧ analyzeBugReport fileSystem selection synthesis clock insertReply answered_iso w data
      = (w', Returned {| analysis_id := id stored;
                         analysis_report_json := stampReport (created_iso clock) reportJson;
                         analysis_report_markdown := generateMarkdownReport reportJson;
                         analysis_files := relevantFiles;
                         analysis_screenshots := shots;
                         analysis_needs_more_info := checkIfNeedsMoreInfo reportJson;
                         analysis_timestamp := answered_iso;
                         pending_confirmation := true |}).
Proof.
  intros Hd Hdne Hp Hpne relevantFiles shots reportJson.
  destruct (storeBugReport clock insertReply w (Some reportJson)
              (generateMarkdownReport reportJson) None
              (Some {| email := data_email data; name := data_name data |})
              relevantFiles shots) as [w' res] eqn:Hstore.
  pose proof Hstore as Hcases.
  apply store_cases in Hcases as (stored & -> & _).
  exists w', stored. split; [reflexivity |].
  unfold analyzeBugReport. rewrite Hd, Hp.
  rewrite (nonEmpty_true _ Hdne), (nonEmpty_true _ Hpne). cbn [negb].
  fold shots. fold relevantFiles. fold reportJson. now rewrite Hstore.
Qed.

Lemma stored_content (clock : StoreClock) (insertReply : Reply) (w w' : World)
    (reportJson : Report) (reportMarkdown : string) (linearIssue : option LinearIssue)
    (userData : option UserData) (filesAnalyzed shots : list string) (data : ReportData) :
  storeBugReport clock insertReply w (Some reportJson) reportMarkdown linearIssue userData
    filesAnalyzed shots = (w', Returned data) →
  content_json data = stampReport (created_iso clock) reportJson
  ∧ content_markdown data = reportMarkdown
  ∧ files_analyzed data = filesAnalyzed ∧ row_screenshots data = shots.
Proof.
  unfold storeBugReport, storeBody, storeHandler. destruct userData as [u |].
  - destruct (supabase w) as [rows |].
    + unfold remoteInsert.
      destruct insertReply; [destruct (rows !! _) |..]; intros [= <- <-]; repeat split.
    + intros [= <- <-]. repeat split.
  - intros [= <- <-]. repeat split.
Qed.

(** X22.  A request with a description and a repository path is always
    answered, whatever the file listing, the two model calls (taken to
    answer in the shape of a report, when they answer) and the remote
    store do: the answer is pending confirmation, has at most ten files,
    its markdown is the rendering of its report and its follow-up request
    the gate's verdict on it, and under its id a store keeps a record with
    this report, markdown, files and screenshots. *)
Theorem analyze_answers_and_stores (fileSystem : FileSystem)
    (selection : ModelOutcome (list string)) (synthesis : ModelOutcome Report)
    (clock : StoreClock) (insertReply : Reply) (answered_iso : string)
    (w : World) (data : AnalyzeData) :
  truthy (data_description data) = true → truthy (repoPath data) = true →
  ∃ w' a stored,
    analyzeBugReport fileSystem selection synthesis clock insertReply answered_iso w data
    = (w', Returned a)
    ∧ pending_confirmation a = true
    ∧ length (analysis_files a) ≤ 10
    ∧ analysis_report_markdown a = generateMarkdownReport (analysis_report_json a)
    ∧ analysis_needs_more_info a = checkIfNeedsMoreInfo (analysis_report_json a)
    ∧ persistedIn w' stored
    ∧ id stored = analysis_id a
    ∧ content_json stored = analysis_report_json a
    ∧ content_markdown stored = analysis_report_markdown a
    ∧ files_analyzed stored = analysis_files a
    ∧ row_screenshots stored = analysis_screenshots a.
Proof.
  intros Hd Hp.
  destruct (data_description data) as [description |] eqn:Hdd; [| discriminate].
  destruct (repoPath data) as [path |] eqn:Hpp; [| discriminate].
  assert (Hdne : description ≠ "").
  { intros ->. discriminate Hd. }
  assert (Hpne : path ≠ "").
  { intros ->. discriminate Hp. }
  destruct (analyze_valid fileSystem selection synthesis clock insertReply answered_iso
              w data description path Hdd Hdne Hpp Hpne) as (w' & stored & Hstore & Ha).
  eexists w', _, stored. split; [exact Ha |].
  cbn [pending_confirmation analysis_files analysis_report_markdown analysis_report_json
       analysis_needs_more_info analysis_id analysis_screenshots].
  destruct (stored_content _ _ _ _ _ _ _ _ _ _ _ Hstore) as (Hj & Hm & Hf & Hsh).
  split; [reflexivity |]. split.
  { destruct (listFiles fileSystem path) as [allFiles |]; [| simpl; lia].
    destruct selection as [| | files]; simpl;
      [apply keywordMatch_length | apply keywordMatch_length |].
    rewrite length_take. lia. }
  split; [reflexivity |]. split; [reflexivity |]. split.
  { apply store_cases in Hstore as (stored' & [= <-] & _ & Hcase).
    destruct Hcase as [(rows & Hs & _ & _ & _ & ->) | [_ ->]].
    - left. eexists. split; [reflexivity |]. apply lookup_insert_eq.
    - right. apply lookup_insert_eq. }
  repeat split; assumption.
Qed.

Lemma analyze_answers_and_stores_witness :
  ∃ w' a,
    analyzeBugReport
      {| listFiles := λ _, Some ["/repo/src/login.js"; "/repo/src/a.js"];
         readFile := λ _, Returned "export default 1;" |}
      NoModel NoModel sampleStoreClock Served "2024-05-01T10:00:01.000Z"
      {| supabase := None; inMemoryReports := ∅ |}
      {| data_description := Some "Login button does nothing on click";
         data_logs := None; data_steps := None; repoPath := Some "/repo";
         data_email := None; data_name := None; data_additionalContext := None;
         data_screenshots := None |}
    = (w', Returned a)
    ∧ pending_confirmation a = true.
Proof.
  destruct (analyze_answers_and_stores
    {| listFiles := λ _, Some ["/repo/src/login.js"; "/repo/src/a.js"];
       readFile := λ _, Returned "export default 1;" |}
    NoModel NoModel sampleStoreClock Served "2024-05-01T10:00:01.000Z"
    {| supabase := None; inMemoryReports := ∅ |}
    {| data_description := Some "Login button does nothing on click";
       data_logs := None; data_steps := None; repoPath := Some "/repo";
       data_email := None; data_name := None; data_additionalContext := None;
       data_screenshots := None |} eq_refl eq_refl)
    as (w' & a & stored & Ha & Hp & _).
  exists w', a. split; assumption.
Defined.

Lemma nonEmpty_inv (s : string) : nonEmpty s = true → s ≠ "".
Proof. intros H ->. discriminate H. Qed.

(** X23.  With no remote store configured, a report that was analysed can
    be confirmed under the id of the answer: the confirm succeeds whatever
    the tracker does, answers the report, markdown, files and screenshots
    of the analysis, and the record read back afterwards has the status
    "confirmed". *)
Theorem analyze_then_confirm (fileSystem : FileSystem)
    (selection : ModelOutcome (list string)) (synthesis : ModelOutcome Report)
    (storeClock : StoreClock) (insertReply : Reply) (answered_iso : string)
    (linearClient : option LinearClient) (configTeamId : option string)
    (confirmClock : ConfirmClock) (selectReply updateReply : Reply)
    (w : World) (data : AnalyzeData) :
  supabase w = None →
  truthy (data_description data) = true → truthy (repoPath data) = true →
  ∃ w1 a w2 c d,
    analyzeBugReport fileSystem selection synthesis storeClock insertReply answered_iso w data
    = (w1, Returned a)
    ∧ confirmWithTracker linearClient configTeamId confirmClock selectReply updateReply
        w1 (analysis_id a) = (w2, Returned c)
    ∧ report_json c = analysis_report_json a
    ∧ report_markdown c = analysis_report_markdown a
    ∧ confirmed_files c = analysis_files a
    ∧ confirmed_screenshots c = analysis_screenshots a
    ∧ getBugReport selectReply w2 (analysis_id a) = Returned d
    ∧ status d = Some "confirmed"
    ∧ content_json d = analysis_report_json a.
Proof.
  intros Hs Hd Hp.
  destruct (data_description data) as [description |] eqn:Hdd; [| discriminate].
  destruct (repoPath data) as [path |] eqn:Hpp; [| discriminate].
  assert (Hdne : description ≠ "") by (intros ->; discriminate Hd).
  assert (Hpne : path ≠ "") by (intros ->; discriminate Hp).
  destruct (analyze_valid fileSystem selection synthesis storeClock insertReply answered_iso
              w data description path Hdd Hdne Hpp Hpne) as (w1 & stored & Hstore & Ha).
  destruct (stored_content _ _ _ _ _ _ _ _ _ _ _ Hstore) as (Hj & Hm & Hf & Hsh).
  apply store_cases in Hstore as (stored' & [= <-] & Hid & Hcase).
  apply nonEmpty_inv in Hid.
  destruct Hcase as [(rows & Hrows & _) | [_ ->]]; [congruence |].
  rewrite Hs in Ha.
  eexists _, _, _, _, _. split; [exact Ha |].
  cbn [analysis_id analysis_report_json analysis_report_markdown analysis_files
       analysis_screenshots].
  split.
  { unfold confirmWithTracker.
    apply (confirm_in_memory _ _ _ _ _ _ stored Hid); [reflexivity |].
    apply lookup_insert_eq. }
  cbn [report_json report_markdown confirmed_files confirmed_screenshots].
  split; [exact Hj |]. split; [exact Hm |]. split; [exact Hf |]. split; [exact Hsh |].
  split.
  { apply get_from_memory; [exact Hid | reflexivity | apply lookup_insert_eq]. }
  split; [reflexivity | exact Hj].
Qed.

Lemma analyze_then_confirm_witness :
  ∃ w1 a w2 c,
    analyzeBugReport
      {| listFiles := λ _, None; readFile := λ _, Thrown "EACCES" |}
      NoModel NoModel sampleStoreClock Served "2024-05-01T10:00:01.000Z"
      {| supabase := None; inMemoryReports := ∅ |}
      {| data_description := Some "Login button does nothing on click";
         data_logs := None; data_steps := None; repoPath := Some "/repo";
         data_email := None; data_name := None; data_additionalContext := None;
         data_screenshots := None |}
    = (w1, Returned a)
    ∧ confirmWithTracker None None sampleConfirmClock Served Served w1 (analysis_id a)
      = (w2, Returned c)
    ∧ report_json c = analysis_report_json a.
Proof.
  destruct (analyze_then_confirm
    {| listFiles := λ _, None; readFile := λ _, Thrown "EACCES" |}
    NoModel NoModel sampleStoreClock Served "2024-05-01T10:00:01.000Z"
    None None sampleConfirmClock Served Served
    {| supabase := None; inMemoryReports := ∅ |}
    {| data_description := Some "Login button does nothing on click";
       data_logs := None; data_steps := None; repoPath := Some "/repo";
       data_email := None; data_name := None; data_additionalContext := None;
       data_screenshots := None |} eq_refl eq_refl eq_refl)
    as (w1 & a & w2 & c & d & Ha & Hc & Hj & _).
  exists w1, a, w2, c. repeat split; assumption.
Defined.

(** ** Properties of the ticket publisher *)

(** X24.  A ticket gets at most two labels, each the id of a label of the
    tracker: one named "bug" in any letter case, and, only when the root
    cause mentions "crash" or "critical", one named "high" or "urgent";
    when the labels cannot be fetched it gets none. *)
Theorem ticket_labels (labels : Result (list Label)) (reportJson : Report) :
  length (labelIdsFor labels reportJson) ≤ 2
  ∧ (∀ message, labels = Thrown message → labelIdsFor labels reportJson = [])
  ∧ (∀ i, In i (labelIdsFor labels reportJson) →
       ∃ nodes label, labels = Returned nodes ∧ In label nodes ∧ label_id label = i
         ∧ (toLowerCase (label_name label) = "bug"
            ∨ (mentionsCrash reportJson = true
               ∧ (toLowerCase (label_name label) = "high"
                  ∨ toLowerCase (label_name label) = "urgent")))).
Proof.
  unfold labelIdsFor. destruct labels as [nodes | message].
  - assert (Hbug : ∀ l, List.find isBugLabel nodes = Some l →
              In l nodes ∧ toLowerCase (label_name l) = "bug").
    { intros l Hl. apply find_some in Hl as [Hin Hname]. split; [exact Hin |].
      now apply String.eqb_eq. }
    assert (Hprio : ∀ l, List.find isPriorityLabel nodes = Some l →
              In l nodes ∧ (toLowerCase (label_name l) = "high"
                            ∨ toLowerCase (label_name l) = "urgent")).
    { intros l Hl. apply find_some in Hl as [Hin Hname]. split; [exact Hin |].
      unfold isPriorityLabel in Hname. apply orb_true_iff in Hname.
      destruct Hname as [H | H]; apply String.eqb_eq in H; tauto. }
    destruct (List.find isBugLabel nodes) as [bugLabel |];
      destruct (mentionsCrash reportJson);
      try destruct (List.find isPriorityLabel nodes) as [priorityLabel |];
      (split; [simpl; lia |]); (split; [discriminate |]); intros i Hi; simpl in Hi;
      repeat match type of Hi with
             | _ ∨ _ => destruct Hi as [<- | Hi]
             | False => destruct Hi
             end;
      try (exists nodes, bugLabel; destruct (Hbug _ eq_refl) as [? ?];
           split; [reflexivity |]; split; [assumption |]; split; [reflexivity |];
           left; assumption);
      try (exists nodes, priorityLabel; destruct (Hprio _ eq_refl) as [? ?];
           split; [reflexivity |]; split; [assumption |]; split; [reflexivity |];
           right; split; [reflexivity | assumption]).
  - split; [simpl; lia |]. split; [reflexivity |]. intros i [].
Qed.

Lemma confirm_thrown_message (clock : ConfirmClock) (selectReply updateReply : Reply)
    (linearIssue : ReportData → option LinearIssue) (w w' : World) (reportId : string)
    (message : string) :
  confirmBugReport clock selectReply updateReply linearIssue w reportId = (w', Thrown message) →
  (reportId = "" ∧ message = "Report ID is required")
  ∨ (reportId ≠ "" ∧ message = "Bug report not found"
     ∧ from_option (λ rows, remoteSelect selectReply rows reportId) None (supabase w) = None
     ∧ inMemoryReports w !! reportId = None).
Proof.
  unfold confirmBugReport. unfold nonEmpty.
  destruct (String.eqb_spec reportId "") as [-> | Hid]; cbn [negb].
  - intros [= _ <-]. now left.
  - destruct (from_option _ None (supabase w)) as [data |] eqn:Hsel.
    + destruct (supabase w) as [rows |];
        [destruct (remoteUpdate _ _ _ _) as [rows' [updated |]] |]; cbn;
        repeat match goal with |- context [match ?x with Some _ => _ | None => _ end] =>
          destruct x end; discriminate.
    + destruct (inMemoryReports w !! reportId) as [data |] eqn:Hmem.
      * destruct (supabase w) as [rows |];
          [destruct (remoteUpdate _ _ _ _) as [rows' [updated |]] |]; cbn;
          rewrite ?Hmem; discriminate.
      * intros [= _ <-]. right. now repeat split.
Qed.

(** X25.  The tracker cannot make a confirm fail: whatever the tracker
    client does, [confirmBugReport] rejects only an empty id ("Report ID is
    required") or an id for which the lookup finds no record ("Bug report
    not found"); and without a tracker client the answer carries no ticket. *)
Theorem tracker_never_fails_confirm (linearClient : option LinearClient)
    (configTeamId : option string) (clock : ConfirmClock) (selectReply updateReply : Reply)
    (w w' : World) (reportId : string) :
  (∀ message,
     confirmWithTracker linearClient configTeamId clock selectReply updateReply w reportId
     = (w', Thrown message) →
     (reportId = "" ∧ message = "Report ID is required")
     ∨ (reportId ≠ "" ∧ message = "Bug report not found"
        ∧ from_option (λ rows, remoteSelect selectReply rows reportId) None (supabase w)
          = None
        ∧ inMemoryReports w !! reportId = None))
  ∧ (∀ c, linearClient = None →
          confirmWithTracker linearClient configTeamId clock selectReply updateReply w
            reportId = (w', Returned c) →
          linear_issue c = None).
Proof.
  unfold confirmWithTracker. split.
  - intros message H. eapply confirm_thrown_message. exact H.
  - intros c -> H. apply confirm_returned in H as (d & _ & -> & _). reflexivity.
Qed.

(** ** Properties of the routes *)

(** X26.  [POST /confirm] answers 400 "Report ID is required" without
    calling the controller when the id is missing or empty, and 500 (not
    404) with the detail "Bug report not found" for an id no store holds;
    its status is 200, 400 or 500, it is 200 exactly when the body is the
    confirmation, and an answer other than 200 means the stores were not
    changed. *)
Theorem confirm_route_status (linearClient : option LinearClient)
    (envTeamId : option string) (clock : ConfirmClock) (selectReply updateReply : Reply)
    (w : World) (reportId : option string) :
  (truthy reportId = false →
     confirmRoute linearClient envTeamId clock selectReply updateReply w reportId
     = (w, failJson 400 "Report ID is required" None))
  ∧ (∀ rid, reportId = Some rid → rid ≠ "" → absentFromStore w rid →
       confirmRoute linearClient envTeamId clock selectReply updateReply w reportId
       = (w, failJson 500 "An error occurred while confirming the bug report"
               (Some "Bug report not found")))
  ∧ (∀ w' response,
       confirmRoute linearClient envTeamId clock selectReply updateReply w reportId
       = (w', response) →
       (http_status response = 200 ∨ http_status response = 400
        ∨ http_status response = 500)
       ∧ (http_status response = 200 ↔ ∃ c, http_body response = inl c)
       ∧ (http_status response ≠ 200 → w' = w)).
Proof.
  split; [| split].
  - unfold confirmRoute, truthy, nonEmpty. destruct reportId as [rid |]; [| reflexivity].
    now intros ->.
  - intros rid -> Hid [Hremote Hmemory].
    unfold confirmRoute, confirmWithTracker, confirmBugReport.
    rewrite (nonEmpty_true _ Hid). cbn [negb].
    assert (Hsel : from_option (λ rows, remoteSelect selectReply rows rid) None (supabase w)
                   = None).
    { destruct (supabase w) as [rows |] eqn:Hs; [| reflexivity]. simpl.
      destruct selectReply; simpl; auto. }
    now rewrite Hsel, Hmemory.
  - intros w' response. unfold confirmRoute.
    destruct reportId as [rid |].
    + destruct (negb (nonEmpty rid)).
      * intros [= <- <-]. cbn. split; [tauto |]. split; [| reflexivity].
        split; [discriminate | now intros [c Hc]].
      * destruct (confirmWithTracker _ _ _ _ _ _ _) as [w1 [c | message]] eqn:Hc;
          intros [= <- <-]; cbn.
        -- split; [tauto |]. split; [| congruence]. split; [eauto | reflexivity].
        -- split; [tauto |]. split.
           ++ split; [discriminate | now intros [c Hc']].
           ++ intros _. unfold confirmWithTracker in Hc.
              now apply confirm_thrown in Hc.
    + intros [= <- <-]. cbn. split; [tauto |]. split; [| reflexivity].
      split; [discriminate | now intros [c Hc]].
Qed.

Lemma confirm_route_status_witness :
  confirmRoute None None sampleConfirmClock Served Served
    {| supabase := None; inMemoryReports := ∅ |} (Some "report-9-9")
  = ({| supabase := None; inMemoryReports := ∅ |},
     failJson 500 "An error occurred while confirming the bug report"
       (Some "Bug report not found")).
Proof.
  apply (proj1 (proj2 (confirm_route_status None None sampleConfirmClock Served Served
                         {| supabase := None; inMemoryReports := ∅ |}
                         (Some "report-9-9"))) "report-9-9" eq_refl).
  - discriminate.
  - split; [discriminate | apply lookup_empty].
Defined.

(** X27.  [GET /:id] answers 200 with a record some store keeps under the
    id, or 404 with the message "Bug report not found"; when the remote
    store does not serve the lookup, a report that only the remote table
    holds is answered 404 as well. *)
Theorem get_route_status (selectReply : Reply) (w : World) (reportId : string) :
  (http_status (getRoute selectReply w reportId) = 200
   ∨ http_status (getRoute selectReply w reportId) = 404)
  ∧ (∀ d, http_body (getRoute selectReply w reportId) = inl d →
          http_status (getRoute selectReply w reportId) = 200
          ∧ readsRecord w reportId d)
  ∧ (∀ e, http_body (getRoute selectReply w reportId) = inr e →
          http_status (getRoute selectReply w reportId) = 404
          ∧ error_message e = "Bug report not found")
  ∧ (∀ rows, supabase w = Some rows → is_Some (rows !! reportId) →
             inMemoryReports w !! reportId = None → selectReply ≠ Served →
             http_status (getRoute selectReply w reportId) = 404).
Proof.
  unfold getRoute, getBugReport.
  destruct (negb (nonEmpty reportId)).
  { cbn. split; [tauto |]. split; [discriminate |]. split; [now intros e [= <-] |].
    reflexivity. }
  destruct (supabase w) as [rows |] eqn:Hs; cbn [from_option].
  - destruct (remoteSelect selectReply rows reportId) as [d |] eqn:Hsel.
    + cbn. split; [tauto |]. split; [| split; [discriminate |]].
      * intros d' [= <-]. split; [reflexivity |]. left. exists rows. split; [exact Hs |].
        destruct selectReply; [exact Hsel | discriminate | discriminate].
      * intros rows' [= <-] _ _ Hdown.
        destruct selectReply; [contradiction | discriminate | discriminate].
    + destruct (inMemoryReports w !! reportId) as [d |] eqn:Hmem; cbn.
      * split; [tauto |]. split; [| split; [discriminate |]].
        -- intros d' [= <-]. split; [reflexivity | now right].
        -- discriminate.
      * split; [tauto |]. split; [discriminate |]. split; [now intros e [= <-] |].
        reflexivity.
  - destruct (inMemoryReports w !! reportId) as [d |] eqn:Hmem; cbn.
    + split; [tauto |]. split; [| split; [discriminate |]].
      * intros d' [= <-]. split; [reflexivity | now right].
      * discriminate.
    + split; [tauto |]. split; [discriminate |]. split; [now intros e [= <-] |].
      discriminate.
Qed.

(** X28.  [POST /:id/additional-info] answers 400 "Additional information
    is required" without calling the controller when the responses are
    missing or empty, and 500 (not 404) with the detail "Bug report not
    found" for an id no store holds; an answer other than 200 means the
    stores were not changed. *)
Theorem additional_info_route_status (clock : SubmitClock) (selectReply updateReply : Reply)
    (w : World) (reportId : string) (responses : option (gmap string string)) :
  (responses = None ∨ responses = Some ∅ →
     additionalInfoRoute clock selectReply updateReply w reportId responses
     = (w, failJson 400 "Additional information is required" None))
  ∧ (∀ answers, responses = Some answers → answers ≠ ∅ → reportId ≠ "" →
       absentFromStore w reportId →
       additionalInfoRoute clock selectReply updateReply w reportId responses
       = (w, failJson 500 "An error occurred while submitting additional information"
               (Some "Bug report not found")))
  ∧ (∀ w' response,
       additionalInfoRoute clock selectReply updateReply w reportId responses
       = (w', response) →
       http_status response ≠ 200 → w' = w).
Proof.
  split; [| split].
  - intros [-> | ->]; reflexivity.
  - intros answers -> Hne Hid [Hremote Hmemory].
    unfold additionalInfoRoute, submitAdditionalInfo.
    rewrite (nonEmpty_true _ Hid), bool_decide_eq_false_2 by exact Hne. cbn [negb].
    destruct (supabase w) as [rows |] eqn:Hs.
    + assert (Hsel : remoteSelect selectReply rows reportId = None).
      { destruct selectReply; simpl; auto. }
      now rewrite Hsel, Hmemory.
    + now rewrite Hmemory.
  - intros w' response. unfold additionalInfoRoute.
    destruct responses as [answers |]; [| now intros [= <- _]].
    destruct (bool_decide (answers = ∅)); [now intros [= <- _] |].
    destruct (submitAdditionalInfo _ _ _ _ _ _) as [w1 [out | message]] eqn:Hsub;
      intros [= <- <-]; cbn.
    + congruence.
    + intros _. now apply submit_thrown in Hsub.
Qed.

Lemma additional_info_route_status_witness :
  additionalInfoRoute (sampleSubmitClock "10") Served Served
    {| supabase := None; inMemoryReports := ∅ |} "report-9-9" (Some {[ "a" := "1" ]})
  = ({| supabase := None; inMemoryReports := ∅ |},
     failJson 500 "An error occurred while submitting additional information"
       (Some "Bug report not found")).
Proof.
  apply (proj1 (proj2 (additional_info_route_status (sampleSubmitClock "10") Served Served
                         {| supabase := None; inMemoryReports := ∅ |} "report-9-9"
                         (Some {[ "a" := "1" ]}))) {[ "a" := "1" ]} eq_refl).
  - apply singleton_non_empty.
  - discriminate.
  - split; [discriminate | apply lookup_empty].
Defined.

(** ** Properties of the record ids *)

Lemma to_uint_nonnil (n : N) : N.to_uint n ≠ Decimal.Nil.
Proof.
  intros H. pose proof (DecimalN.Unsigned.of_to n) as Hn. rewrite H in Hn.
  cbn in Hn. subst n. discriminate H.
Qed.

Lemma decimal_inj (a b : N) : decimal a = decimal b → a = b.
Proof.
  unfold decimal. intros H.
  apply (f_equal NilZero.uint_of_string) in H.
  rewrite !NilZero.usu in H by apply to_uint_nonnil.
  injection H as H. apply (f_equal N.of_uint) in H.
  now rewrite !DecimalN.Unsigned.of_to in H.
Qed.

Lemma digits_of_uint (d : Decimal.uint) : allUnits isDigit (NilEmpty.string_of_uint d) = true.
Proof. induction d; cbn [NilEmpty.string_of_uint allUnits]; try rewrite IHd; reflexivity. Qed.

Lemma decimal_digits (n : N) : allUnits isDigit (decimal n) = true.
Proof.
  unfold decimal, NilZero.string_of_uint.
  destruct (N.to_uint n); try apply digits_of_uint. reflexivity.
Qed.

(** Digits up to a dash: the dash ends the digits on both sides. *)
Lemma split_at_dash (a a' b b' : string) :
  allUnits isDigit a = true → allUnits isDigit a' = true →
  a +:+ "-" +:+ b = a' +:+ "-" +:+ b' → a = a' ∧ b = b'.
Proof.
  revert a'. induction a as [| c a IH]; intros [| c' a'] Ha Ha' H.
  - change (String "-" b = String "-" b') in H. now injection H as ->.
  - change ("" +:+ "-" +:+ b) with (String "-" b) in H.
    change (String c' a' +:+ "-" +:+ b') with (String c' (a' +:+ "-" +:+ b')) in H.
    injection H as <- _. cbn in Ha'. discriminate Ha'.
  - change ("" +:+ "-" +:+ b') with (String "-" b') in H.
    change (String c a +:+ "-" +:+ b) with (String c (a +:+ "-" +:+ b)) in H.
    injection H as -> _. cbn in Ha. discriminate Ha.
  - change (String c a +:+ "-" +:+ b) with (String c (a +:+ "-" +:+ b)) in H.
    change (String c' a' +:+ "-" +:+ b') with (String c' (a' +:+ "-" +:+ b')) in H.
    injection H as -> H. cbn [allUnits] in Ha, Ha'.
    apply andb_true_iff in Ha as [_ Ha]. apply andb_true_iff in Ha' as [_ Ha'].
    destruct (IH a' Ha Ha' H) as [-> ->]. now split.
Qed.

(** X29.  The ids of stored records collide only when the clock does: two
    records of the main path have the same id exactly when the millisecond
    reading and the random number of their ids are the same, two minimal
    records of the handler exactly when the millisecond reading is the same
    (they have no random part), and an id of the main path is never an id
    of the handler. *)
Theorem stored_ids_collide_only_with_the_clock (clock1 clock2 : StoreClock)
    (report1 report2 : Report) (markdown1 markdown2 : string)
    (issue1 issue2 : option LinearIssue) (user1 user2 : UserData)
    (files1 files2 shots1 shots2 : list string) :
  (id (reportDataOf clock1 report1 markdown1 issue1 user1 files1 shots1)
   = id (reportDataOf clock2 report2 markdown2 issue2 user2 files2 shots2)
   ↔ now_ms clock1 = now_ms clock2 ∧ random_1000 clock1 = random_1000 clock2)
  ∧ (id (fallbackDataOf clock1 report1 markdown1 files1 shots1)
     = id (fallbackDataOf clock2 report2 markdown2 files2 shots2)
     ↔ fallback_ms clock1 = fallback_ms clock2)
  ∧ id (reportDataOf clock1 report1 markdown1 issue1 user1 files1 shots1)
    ≠ id (fallbackDataOf clock2 report2 markdown2 files2 shots2).
Proof.
  cbn [id reportDataOf fallbackDataOf]. split; [| split].
  - split.
    + intros H. apply String.app_inj in H.
      apply split_at_dash in H as [H1 H2]; try apply decimal_digits.
      split; now apply decimal_inj.
    + now intros [-> ->].
  - split.
    + intros H. apply String.app_inj in H. now apply decimal_inj.
    + now intros ->.
  - discriminate.
Qed.

(** ** Properties of the file listing *)

Lemma Entry_nested_ind (P : Disk.Entry → Prop) :
  P Disk.NoStat → P Disk.IsFile → P (Disk.IsDir None) →
  (∀ files, Forall (λ entry, P entry.2) files → P (Disk.IsDir (Some files))) →
  ∀ here, P here.
Proof.
  intros HN HF HU HD. fix IH 1. intros [| | [files |]].
  - exact HN.
  - exact HF.
  - apply HD. induction files as [| [file stat] rest IHrest].
    + constructor.
    + constructor; [exact (IH stat) | exact IHrest].
  - exact HU.
Qed.

Lemma getAllFiles_directory pathJoin dir files fileList :
  Disk.getAllFiles pathJoin dir (Disk.IsDir (Some files)) fileList
  = Disk.forEachFile pathJoin dir files fileList.
Proof.
  revert fileList. induction files as [| [file stat] rest IH]; intros fileList.
  - reflexivity.
  - cbn [Disk.forEachFile]. rewrite <- !IH. reflexivity.
Qed.

Lemma hasExtension_here (file : string) :
  Disk.extensionAt file = true → Disk.hasExtension file = true.
Proof. destruct file; cbn [Disk.hasExtension]; intros ->; reflexivity. Qed.

Lemma hasExtension_spec (file : string) :
  Disk.hasExtension file = true ↔ Disk.endsWithExtension file.
Proof.
  split.
  - induction file as [| c rest IH]; cbn [Disk.hasExtension]; intros H;
      apply orb_true_iff in H as [H | H].
    + apply existsb_exists in H as (extension & Hin & Heq).
      apply String.eqb_eq in Heq. exists "", extension.
      split; [now apply list_elem_of_In | exact Heq].
    + discriminate H.
    + apply existsb_exists in H as (extension & Hin & Heq).
      apply String.eqb_eq in Heq. exists "", extension.
      split; [now apply list_elem_of_In | exact Heq].
    + destruct (IH H) as (stem & extension & Hin & ->).
      now exists (String c stem), extension.
  - intros (stem & extension & Hin & ->). induction stem as [| c stem IH].
    + apply hasExtension_here, existsb_exists. exists extension.
      split; [now apply list_elem_of_In | apply String.eqb_refl].
    + change (String c stem +:+ "." +:+ extension)
        with (String c (stem +:+ "." +:+ extension)).
      cbn [Disk.hasExtension]. rewrite IH. apply orb_true_r.
Qed.

(** What the calls find in the array stays in it, in its place. *)
Lemma getAllFiles_keeps pathJoin (here : Disk.Entry) :
  ∀ dir fileList, fileList `prefix_of` Disk.getAllFiles pathJoin dir here fileList.
Proof.
  induction here as [| | | files Hfiles] using Entry_nested_ind; intros dir fileList;
    try reflexivity.
  rewrite getAllFiles_directory. revert fileList.
  induction Hfiles as [| [file stat] rest Hstat _ IH]; intros fileList;
    cbn [Disk.forEachFile]; [reflexivity |].
  destruct stat as [| | listing].
  - reflexivity.
  - destruct (Disk.skipped file); [apply IH |].
    destruct (Disk.hasExtension file); [| apply IH].
    etransitivity; [| apply IH]. now apply prefix_app_r.
  - destruct (Disk.skipped file); [apply IH |].
    etransitivity; [apply Hstat | apply IH].
Qed.

Lemma forEachFile_keeps pathJoin dir files fileList (path : string) :
  path ∈ fileList → path ∈ Disk.forEachFile pathJoin dir files fileList.
Proof.
  intros Hin. rewrite <- getAllFiles_directory.
  destruct (getAllFiles_keeps pathJoin (Disk.IsDir (Some files)) dir fileList) as [more ->].
  apply elem_of_app. now left.
Qed.

(** A name on which [statSync] throws hides the names after it. *)
Lemma forEachFile_stat_throws pathJoin dir before file after fileList :
  Disk.forEachFile pathJoin dir (before ++ (file, Disk.NoStat) :: after) fileList
  = Disk.forEachFile pathJoin dir before fileList.
Proof.
  revert fileList. induction before as [| [name stat] before IH]; intros fileList.
  - reflexivity.
  - cbn [app Disk.forEachFile]. destruct stat; [reflexivity | |];
      destruct (Disk.skipped name); try apply IH.
    destruct (Disk.hasExtension name); apply IH.
Qed.

Lemma reachable_cons pathJoin dir entry files path :
  Disk.reachable pathJoin dir (Disk.IsDir (Some files)) path →
  Disk.reachable pathJoin dir (Disk.IsDir (Some (entry :: files))) path.
Proof.
  intros H. inversion H; subst.
  - apply Disk.reachable_file; [apply elem_of_cons; now right | assumption ..].
  - eapply Disk.reachable_below; [apply elem_of_cons; right; eassumption | assumption ..].
Qed.

Lemma listed_reachable pathJoin (here : Disk.Entry) :
  ∀ dir fileList path,
    path ∈ Disk.getAllFiles pathJoin dir here fileList →
    path ∈ fileList ∨ Disk.reachable pathJoin dir here path.
Proof.
  induction here as [| | | files Hfiles] using Entry_nested_ind; intros dir fileList path;
    try (now left).
  rewrite getAllFiles_directory. revert fileList.
  induction Hfiles as [| [file stat] rest Hstat _ IH]; intros fileList;
    cbn [Disk.forEachFile]; [now left |].
  assert (Hrest : ∀ fileList', path ∈ Disk.forEachFile pathJoin dir rest fileList' →
            path ∈ fileList'
            ∨ Disk.reachable pathJoin dir (Disk.IsDir (Some ((file, stat) :: rest))) path).
  { intros fileList' H. destruct (IH _ H) as [H' | H']; [now left |].
    right. now apply reachable_cons. }
  destruct stat as [| | listing].
  - now left.
  - destruct (Disk.skipped file) eqn:Hskip; [apply Hrest |].
    destruct (Disk.hasExtension file) eqn:Hext; [| apply Hrest].
    intros H. destruct (Hrest _ H) as [H' | H']; [| now right].
    apply elem_of_app in H' as [H' | H']; [now left |].
    apply list_elem_of_singleton in H' as ->. right.
    apply Disk.reachable_file; [apply elem_of_cons; now left | exact Hskip |].
    now apply hasExtension_spec.
  - destruct (Disk.skipped file) eqn:Hskip; [apply Hrest |].
    intros H. destruct (Hrest _ H) as [H' | H']; [| now right].
    destruct (Hstat _ _ _ H') as [H'' | H'']; [now left |].
    right. eapply Disk.reachable_below; [apply elem_of_cons; now left | exact Hskip |].
    exact H''.
Qed.

Lemma reachable_listed pathJoin (here : Disk.Entry) :
  Disk.statsEverywhere here = true →
  ∀ dir fileList path,
    Disk.reachable pathJoin dir here path →
    path ∈ Disk.getAllFiles pathJoin dir here fileList.
Proof.
  induction here as [| | | files Hfiles] using Entry_nested_ind;
    intros Hstats dir fileList path Hreach; try (now inversion Hreach).
  rewrite getAllFiles_directory. revert fileList.
  induction Hfiles as [| [file stat] rest Hstat _ IH]; intros fileList.
  - inversion Hreach; subst; match goal with H : _ ∈ [] |- _ => inversion H end.
  - cbn [Disk.statsEverywhere forallb] in Hstats.
    apply andb_true_iff in Hstats as [Hhere Hothers]. cbn [snd] in Hhere, Hstat.
    assert (Hrest : Disk.reachable pathJoin dir (Disk.IsDir (Some rest)) path →
              ∀ fileList', path ∈ Disk.forEachFile pathJoin dir rest fileList').
    { intros H. now apply IH. }
    cbn [Disk.forEachFile]. inversion Hreach as [? ? name Hin Hskip Hext
                                               | ? ? name listing ? Hin Hskip Hbelow]; subst.
    + apply elem_of_cons in Hin as [Heq | Hin].
      * injection Heq as <- <-. rewrite Hskip.
        apply hasExtension_spec in Hext. rewrite Hext.
        apply forEachFile_keeps, elem_of_app. right. now apply list_elem_of_singleton.
      * assert (Hlater : Disk.reachable pathJoin dir (Disk.IsDir (Some rest))
                           (pathJoin dir name))
          by now apply Disk.reachable_file.
        destruct stat; [discriminate Hhere | |];
          destruct (Disk.skipped file); try now apply Hrest.
        destruct (Disk.hasExtension file); now apply Hrest.
    + apply elem_of_cons in Hin as [Heq | Hin].
      * injection Heq as <- <-. rewrite Hskip.
        apply forEachFile_keeps. now apply Hstat.
      * assert (Hlater : Disk.reachable pathJoin dir (Disk.IsDir (Some rest)) path)
          by (eapply Disk.reachable_below; eassumption).
        destruct stat; [discriminate Hhere | |];
          destruct (Disk.skipped file); try now apply Hrest.
        destruct (Disk.hasExtension file); now apply Hrest.
Qed.

(** X30.  The listing of a repository follows the tree of the disk: every
    path it gives is the joined path of a file whose name ends with a dot
    and one of the seven extensions, reached through readable directories
    none of which, nor the file, is named node_modules, .git or dist; when
    [statSync] throws nowhere, every such file is listed; and a name on
    which [statSync] throws hides the names that come after it in its
    directory, whatever they are. *)
Theorem listing_follows_the_tree (pathJoin : string → string → string)
    (repoPath : string) (root : Disk.Entry) :
  (∀ path, path ∈ Disk.listFiles pathJoin repoPath root →
           Disk.reachable pathJoin repoPath root path)
  ∧ (Disk.statsEverywhere root = true →
     ∀ path, Disk.reachable pathJoin repoPath root path →
             path ∈ Disk.listFiles pathJoin repoPath root)
  ∧ (∀ before file after,
       root = Disk.IsDir (Some (before ++ (file, Disk.NoStat) :: after)) →
       Disk.listFiles pathJoin repoPath root
       = Disk.listFiles pathJoin repoPath (Disk.IsDir (Some before))).
Proof.
  unfold Disk.listFiles. split; [| split].
  - intros path H. apply listed_reachable in H as [H | H]; [inversion H | exact H].
  - intros Hstats path H. now apply reachable_listed.
  - intros before file after ->. rewrite !getAllFiles_directory.
    apply forEachFile_stat_throws.
Qed.

Lemma listing_follows_the_tree_witness :
  let pathJoin := λ dir file : string, dir +:+ "/" +:+ file in
  let src := [("view.tsx", Disk.IsFile); ("notes.md", Disk.IsFile)] in
  let root :=
    Disk.IsDir (Some [("app.js", Disk.IsFile);
                      ("node_modules", Disk.IsDir (Some [("lib.js", Disk.IsFile)]));
                      ("src", Disk.IsDir (Some src))]) in
  Disk.statsEverywhere root = true
  ∧ pathJoin (pathJoin "repo" "src") "view.tsx" ∈ Disk.listFiles pathJoin "repo" root.
Proof.
  intros pathJoin src root. split; [reflexivity |].
  apply (proj1 (proj2 (listing_follows_the_tree pathJoin "repo" root))); [reflexivity |].
  apply (Disk.reachable_below pathJoin "repo" _ "src" (Some src)).
  - apply elem_of_cons; right. apply elem_of_cons; right. apply elem_of_cons; now left.
  - reflexivity.
  - apply (Disk.reachable_file pathJoin (pathJoin "repo" "src") src "view.tsx").
    + apply elem_of_cons; now left.
    + reflexivity.
    + exists "view", "tsx". split; [| reflexivity].
      apply list_elem_of_In. cbn. auto 10.
Defined.
